(** * umd2: the streaming measurement pipeline of [umd2.py]

    A shallow embedding of the backend [umd2.py] (token parsing, frequency
    tracking, displacement integration, smoothing, environmental
    compensation, angle conversion, emission policy and the spectral
    buffer) together with the properties its specification states.

    Conventions of the embedding:
    - a Python [int] is a [Z];
    - a Python [float] is an IEEE 754 binary64 value, taken from the
      executable specification [SpecFloat] (round to nearest even, one
      NaN), so that infinities, NaN and signed zeros behave as they do in
      the interpreter;
    - a Python exception is a value of [exn] carried by the [result]
      monad; an uncaught exception ends the run;
    - a [dict] is a [gmap], a [deque] a list with its [maxlen];
    - a line is a [string] whose characters are read as the code points
      0..255;
    - the interpreter is CPython 3.11 on a 64-bit platform: a container
      bound is a C [ssize_t], and a decimal numeral of more than 4300
      digits does not convert to an [int]. *)

From Stdlib Require Import ZArith List Bool Ascii String Lia.
From Stdlib Require Import Floats.SpecFloat.
From stdpp Require Import gmap strings.
Import ListNotations.

Local Open Scope string_scope.
Local Open Scope list_scope.
Local Open Scope Z_scope.

(** ** Exceptions and the error monad *)

Inductive exn : Type :=
| OverflowError
| ValueError
| ZeroDivisionError
| NameError (name : string).

Inductive result (A : Type) : Type :=
| Ok (a : A)
| Raise (e : exn).
Arguments Ok {A} a.
Arguments Raise {A} e.

Definition bind {A B : Type} (m : result A) (k : A -> result B) : result B :=
  match m with
  | Ok a => k a
  | Raise e => Raise e
  end.

Notation "'do' x <- m ; k" := (bind m (fun x => k))
  (at level 10, x name, m at level 100, k at level 200).


(** ** Python floats: IEEE 754 binary64 *)

Module Float.

Definition prec : Z := 53.
Definition emax : Z := 1024.

Definition float : Type := spec_float.

Definition add : float -> float -> float := SFadd prec emax.
Definition sub : float -> float -> float := SFsub prec emax.
Definition mul : float -> float -> float := SFmul prec emax.
(** IEEE division; Python's [/] checks the divisor first, see [truediv]. *)
Definition div : float -> float -> float := SFdiv prec emax.
Definition ltb : float -> float -> bool := SFltb.
Definition leb : float -> float -> bool := SFleb.
Definition eqb : float -> float -> bool := SFeqb.
Definition gtb (x y : float) : bool := SFltb y x.

Definition zero : float := S754_zero false.

(** [is_finite x]: [x] is neither an infinity nor NaN. *)
Definition is_finite (x : float) : bool :=
  match x with
  | S754_zero _ | S754_finite _ _ _ => true
  | S754_infinity _ | S754_nan => false
  end.

(** [float(n)] for an [int] [n]: correctly rounded, [OverflowError] when
    the rounded value does not fit. *)
Definition of_int (n : Z) : result float :=
  match binary_normalize prec emax n 0 false with
  | S754_infinity _ => Raise OverflowError
  | f => Ok f
  end.

(** [int(x)] for a [float] [x]: truncation toward zero. *)
Definition to_int (x : float) : result Z :=
  match x with
  | S754_zero _ => Ok 0
  | S754_finite s m e => Ok (cond_Zopp s (Z.shiftl (Zpos m) e))
  | S754_infinity _ => Raise OverflowError
  | S754_nan => Raise ValueError
  end.

(** The value of the decimal numeral [n / 10^k] with sign [neg],
    correctly rounded: what [float(str)] returns for the numerals the
    token and header patterns capture. *)
Definition pow10 (k : N) : positive :=
  match k with
  | N0 => 1%positive
  | Npos p => Pos.pow 10 p
  end.

Definition of_decimal (neg : bool) (n : Z) (k : N) : float :=
  match n with
  | Zpos m =>
      SFdiv prec emax (S754_finite neg m 0) (S754_finite false (pow10 k) 0)
  | _ => S754_zero neg
  end.

(** Truth value of a float: [bool(x)] is [x != 0.0]. *)
Definition truthy (x : float) : bool := negb (eqb x zero).

(** [x / y] on floats: [ZeroDivisionError] when [y == 0]. *)
Definition truediv (x y : float) : result float :=
  if eqb y zero then Raise ZeroDivisionError else Ok (div x y).

End Float.

Abbreviation float := Float.float.

(** ** Python numbers held by a token dictionary *)

Inductive pyval : Type :=
| PyInt (n : Z)
| PyFloat (x : float).

(** [int(v)] *)
Definition py_int (v : pyval) : result Z :=
  match v with
  | PyInt n => Ok n
  | PyFloat x => Float.to_int x
  end.

(** [float(v)] *)
Definition py_float (v : pyval) : result float :=
  match v with
  | PyInt n => Float.of_int n
  | PyFloat x => Ok x
  end.

(** ** Characters and the two patterns

    [HeaderFS_RE] and [Tok_RE] are compiled from [str] patterns, so [\s],
    [\d] and [\w] are the Unicode classes; below are their members among
    the code points 0..255. *)

Module Re.

Definition code (c : ascii) : N := N_of_ascii c.

Definition between (lo hi : N) (c : ascii) : bool :=
  ((lo <=? code c) && (code c <=? hi))%N.

(** [\s], also the characters [str.strip()] removes *)
Definition is_space (c : ascii) : bool :=
  between 9 13 c || between 28 32 c || between 133 133 c || between 160 160 c.

(** [\d] and [[0-9]] *)
Definition is_digit (c : ascii) : bool := between 48 57 c.

(** [[A-Za-z]] *)
Definition is_alpha (c : ascii) : bool := between 65 90 c || between 97 122 c.

(** [\w] *)
Definition is_word (c : ascii) : bool :=
  is_alpha c || is_digit c || between 95 95 c
  || between 170 170 c || between 178 179 c || between 181 181 c
  || between 185 186 c || between 188 190 c || between 192 214 c
  || between 216 246 c || between 248 255 c.

Definition upper (c : ascii) : ascii :=
  if between 97 122 c then ascii_of_N (code c - 32) else c.

Definition lower (c : ascii) : ascii :=
  if between 65 90 c then ascii_of_N (code c + 32) else c.

(** The longest prefix of [s] whose characters satisfy [p], and the rest:
    a greedy [p+] or [p*]. *)
Fixpoint span (p : ascii -> bool) (s : list ascii) : list ascii * list ascii :=
  match s with
  | c :: s' =>
      if p c then let '(a, b) := span p s' in (c :: a, b) else ([], s)
  | [] => ([], [])
  end.

Definition skip (p : ascii -> bool) (s : list ascii) : list ascii :=
  snd (span p s).

(** [str.strip()] *)
Definition strip (s : list ascii) : list ascii :=
  rev (skip is_space (rev (skip is_space s))).

(** [\b] after a digit: the end of the string or a character outside [\w]. *)
Definition at_boundary (rest : list ascii) : bool :=
  match rest with
  | [] => true
  | c :: _ => negb (is_word c)
  end.

(** [(-?\d+(?:\.\d+)?)\b] at the start of [s]: the captured numeral and
    what follows it. The digits are taken greedily; when the fraction is
    followed by a word character the matcher backtracks to the integer
    part, after which the [.] is a boundary. Giving back single digits
    never yields a boundary. *)
Definition match_value (s : list ascii) : option (list ascii * list ascii) :=
  let '(sign, s1) :=
    match s with
    | "-"%char :: t => (["-"%char], t)
    | _ => ([], s)
    end in
  let '(ds, s2) := span is_digit s1 in
  match ds with
  | [] => None
  | _ =>
      let whole := if at_boundary s2 then Some (sign ++ ds, s2) else None in
      match s2 with
      | "."%char :: t =>
          let '(fs, s3) := span is_digit t in
          match fs with
          | [] => whole
          | _ => if at_boundary s3
                 then Some (sign ++ ds ++ "."%char :: fs, s3)
                 else whole
          end
      | _ => whole
      end
  end.

(** [Tok_RE] at the start of [s]: key, numeral and the rest of the line. *)
Definition Tok_RE_match (s : list ascii)
  : option (list ascii * list ascii * list ascii) :=
  let '(key, s1) := span is_alpha s in
  match key with
  | [] => None
  | _ =>
      match skip is_space s1 with
      | ":"%char :: s2 =>
          match match_value (skip is_space s2) with
          | Some (val, rest) => Some (key, val, rest)
          | None => None
          end
      | _ => None
      end
  end.

(** [Tok_RE.findall]: leftmost matches, scanning on after each match and
    one character further after a failure. [fuel] bounds the number of
    positions tried. *)
Fixpoint findall_from (fuel : nat) (s : list ascii)
  : list (list ascii * list ascii) :=
  match fuel with
  | O => []
  | S fuel' =>
      match s with
      | [] => []
      | _ :: s' =>
          match Tok_RE_match s with
          | Some (key, val, rest) => (key, val) :: findall_from fuel' rest
          | None => findall_from fuel' s'
          end
      end
  end.

Definition Tok_RE_findall (s : list ascii) : list (list ascii * list ascii) :=
  findall_from (length s) s.

(** A literal under [re.IGNORECASE] *)
Fixpoint literal_ci (lit s : list ascii) : option (list ascii) :=
  match lit with
  | [] => Some s
  | l :: lit' =>
      match s with
      | c :: s' => if Ascii.eqb (lower c) (lower l) then literal_ci lit' s' else None
      | [] => None
      end
  end.

(** [\s*Hz\s*$] *)
Definition header_tail (s : list ascii) : bool :=
  match literal_ci (list_ascii_of_string "Hz") (skip is_space s) with
  | Some s' => match skip is_space s' with [] => true | _ => false end
  | None => false
  end.

(** [HeaderFS_RE.match]: group 1 when the whole line is a header. *)
Definition HeaderFS_RE_match (s : list ascii) : option (list ascii) :=
  match literal_ci (list_ascii_of_string "Sample") (skip is_space s) with
  | None => None
  | Some s1 =>
      match span is_space s1 with
      | ([], _) => None
      | (_, s2) =>
          match literal_ci (list_ascii_of_string "Frequency") s2 with
          | None => None
          | Some s3 =>
              match skip is_space s3 with
              | "="%char :: s4 =>
                  let '(ds, s5) := span is_digit (skip is_space s4) in
                  match ds with
                  | [] => None
                  | _ =>
                      let whole := if header_tail s5 then Some ds else None in
                      match s5 with
                      | "."%char :: t =>
                          let '(fs, s6) := span is_digit t in
                          match fs with
                          | [] => whole
                          | _ => if header_tail s6
                                 then Some (ds ++ "."%char :: fs)
                                 else whole
                          end
                      | _ => whole
                      end
                  end
              | _ => None
              end
          end
      end
  end.

End Re.

(** ** Numerals *)

Definition digits_val (ds : list ascii) : Z :=
  fold_left (fun acc c => 10 * acc + (Z.of_N (Re.code c) - 48)) ds 0.

Definition all_digits (ds : list ascii) : bool :=
  match ds with
  | [] => false
  | _ => forallb Re.is_digit ds
  end.

Definition split_sign (v : list ascii) : bool * list ascii :=
  match v with
  | "-"%char :: t => (true, t)
  | _ => (false, v)
  end.

(** The most digits [int(str)] accepts: [sys.get_int_max_str_digits()],
    4300 unless the interpreter is configured otherwise. *)
Definition int_max_str_digits : nat := 4300.

(** [int(val)] on a captured numeral; [None] stands for [ValueError],
    which a numeral of more than [int_max_str_digits] digits also
    raises. *)
Definition int_of_str (v : list ascii) : option Z :=
  let '(neg, ds) := split_sign v in
  if all_digits ds && (length ds <=? int_max_str_digits)%nat
  then Some (cond_Zopp neg (digits_val ds)) else None.

(** [float(val)] on a captured numeral; [None] stands for [ValueError]. *)
Definition float_of_str (v : list ascii) : option float :=
  let '(neg, body) := split_sign v in
  let '(ds, rest) := Re.span Re.is_digit body in
  match ds, rest with
  | [], _ => None
  | _, [] => Some (Float.of_decimal neg (digits_val ds) 0)
  | _, "."%char :: fs =>
      if all_digits fs
      then Some (Float.of_decimal neg (digits_val (ds ++ fs)) (N.of_nat (length fs)))
      else None
  | _, _ => None
  end.

(** ** Tokenizer *)

Definition has_dot (v : list ascii) : bool :=
  existsb (Ascii.eqb "."%char) v.

(** [float(val) if '.' in val else int(val)] *)
Definition token_value (v : list ascii) : option pyval :=
  if has_dot v then PyFloat <$> float_of_str v else PyInt <$> int_of_str v.

Definition parse_line_tokens (line : string) : gmap string pyval :=
  fold_left
    (fun out '(key, val) =>
       let k := string_of_list_ascii (map Re.upper key) in
       match token_value val with
       | Some v => <[k := v]> out
       | None => out
       end)
    (Re.Tok_RE_findall (list_ascii_of_string line))
    ∅.

Definition maybe_extract_fs (line : string) : option float :=
  match Re.HeaderFS_RE_match (list_ascii_of_string line) with
  | Some g => float_of_str g
  | None => None
  end.

Definition strip (raw : string) : string :=
  string_of_list_ascii (Re.strip (list_ascii_of_string raw)).

(** ** Configuration: the namespace [parse_args] returns

    Only the options the computation reads; the source selector
    ([--serial], [--baud], [--file]) decides where the lines come from and
    the lines are an input of the model. *)

Inductive EmitMode : Type := Every | OnStep.
Inductive Mode : Type := Displacement | Angle.
Inductive Signal : Type := SigX | SigV.
Inductive OutFormat : Type := Jsonl | Csv.

Record Args : Type := {
  fs : float;
  emit : EmitMode;
  decimate : Z;
  stepnm : option float;
  lambda_nm : float;
  scale_div : Z;
  startnm : float;
  straight_mult : float;
  mode : Mode;
  angle_norm_nm : float;
  angle_corr : float;
  ema_alpha : float;
  ma_window : Z;
  env_temp : option float;
  env_temp0 : option float;
  env_ktemp : float;
  env_press : option float;
  env_press0 : option float;
  env_kpress : float;
  env_hum : option float;
  env_hum0 : option float;
  env_khum : float;
  fft_len : Z;
  fft_every : Z;
  fft_signal : Signal;
  enable_xy : bool;
  out : OutFormat;
  log : option string
}.

(** Float literals of the source *)
Definition f0 : float := Float.zero.
Definition f1 : float := Float.of_decimal false 1 0.
Definition fm1 : float := Float.of_decimal true 1 0.
Definition f1000 : float := Float.of_decimal false 1000 0.
Definition f57_296 : float := Float.of_decimal false 57296 3.
Definition f0_001 : float := Float.of_decimal false 1 3.

(** ** Pure helpers of the source *)

Definition clamp (val lo hi : float) : float :=
  if Float.ltb val lo then lo else if Float.gtb val hi then hi else val.

Definition compute_step_nm (a : Args) : result float :=
  match stepnm a with
  | Some s => Ok s
  | None =>
      let div := Z.max 1 (scale_div a) in
      do d <- Float.of_int div;
      Float.truediv (lambda_nm a) d
  end.

(** One factor of [apply_env]: [scale *= 1.0 + k * (cur - ref)] when the
    triple is active. *)
Definition env_factor (cur ref : option float) (k : float) (scale : float) : float :=
  match cur, ref with
  | Some c, Some r =>
      if negb (Float.eqb k f0)
      then Float.mul scale (Float.add f1 (Float.mul k (Float.sub c r)))
      else scale
  | _, _ => scale
  end.

Definition apply_env (x_nm : float) (a : Args) : float :=
  let scale := f1 in
  let scale := env_factor (env_temp a) (env_temp0 a) (env_ktemp a) scale in
  let scale := env_factor (env_press a) (env_press0 a) (env_kpress a) scale in
  let scale := env_factor (env_hum a) (env_hum0 a) (env_khum a) scale in
  Float.mul x_nm scale.

(** ** The moving-average buffer: [collections.deque] with a [maxlen] *)

Record deque : Type := { items : list float; maxlen : Z }.

(** [d.append(x)]: append on the right, then drop the leftmost item when
    the bound is exceeded. *)
Definition deque_append (d : deque) (x : float) : deque :=
  let l := items d ++ [x] in
  {| items := if Z.of_nat (length l) >? maxlen d then tl l else l;
     maxlen := maxlen d |}.

(** The largest C [ssize_t]: [sys.maxsize]. *)
Definition PY_SSIZE_T_MAX : Z := 2 ^ 63 - 1.

(** [deque(maxlen=m)]: the bound is converted to a C [ssize_t]
    ([OverflowError] when it does not fit) and must not be negative
    ([ValueError]). *)
Definition deque_new (m : Z) : result deque :=
  if (m >? PY_SSIZE_T_MAX) || (m <? - PY_SSIZE_T_MAX - 1) then Raise OverflowError
  else if m <? 0 then Raise ValueError
  else Ok {| items := []; maxlen := m |}.

(** [deque(it, maxlen=m)] *)
Definition deque_of (it : list float) (m : Z) : result deque :=
  do d <- deque_new m;
  Ok (fold_left deque_append it d).

(** [sum(buf)]: float additions from left to right, starting from the
    integer [0] (interpreters from 3.12 on also carry a compensation
    term, which is not modelled). *)
Definition py_sum (buf : list float) : float :=
  fold_left Float.add buf f0.

(** [float(len(buf))]; a length is below 2^63, the conversion is exact or
    correctly rounded and never overflows. *)
Definition float_of_len (buf : list float) : float :=
  binary_normalize Float.prec Float.emax (Z.of_nat (length buf)) 0 false.

(** [sum(buf) / len(buf)]: the division raises [ZeroDivisionError]
    exactly when the length is 0. *)
Definition mean (buf : list float) : result float :=
  match buf with
  | [] => Raise ZeroDivisionError
  | _ => Ok (Float.div (py_sum buf) (float_of_len buf))
  end.

(** ** Stream state: the locals of [main] that outlive an iteration *)

Record State : Type := {
  fs_hz : float;
  x_nm : float;
  prevD : option Z;
  ema_x : option float;
  ma_buf : deque;
  fft_buf : list float;
  emitted : Z
}.

(** The dictionary [rec] of one sample *)
Record Rec : Type := {
  rec_seq : Z;
  rec_fs_hz : float;
  rec_D : Z;
  rec_deltaD : Z;
  rec_step_nm : float;
  rec_x_nm : float;
  rec_v_nm_s : float;
  rec_x_nm_ema : option float;
  rec_x_nm_ma : option float;
  rec_x_nm_env : float;
  rec_angle_deg : option float;
  rec_x2 : option float;
  rec_y2 : option float
}.

(** A spectral snapshot, given by what numpy is handed: the signal
    selector, the sampling frequency and the newest [fft_len] buffered
    values. The bins [freq] and [mag] are numpy's functions of these. *)
Record Snapshot : Type := {
  snap_signal : Signal;
  snap_fs_hz : float;
  snap_buf : list float
}.

(** The path one iteration of the loop over the lines takes. *)
Inductive Iteration : Type :=
| Blank                                   (* [if not line: continue] *)
| Header                                  (* header seen, [continue] *)
| NoCount                                 (* no DIFF and no D, [continue] *)
| Dropped (r : Rec)                       (* [if not keep: continue] *)
| Forwarded (r : Rec) (fft : option Snapshot).

(** [l[-n:]] for a positive [n] *)
Definition last_n (n : Z) (l : list float) : list float :=
  drop (length l - Z.to_nat n) l.

(** [toks["DIFF"]] if present, else [toks["D"]] *)
Definition primary_token (toks : gmap string pyval) : option pyval :=
  match toks !! "DIFF" with
  | Some v => Some v
  | None => toks !! "D"
  end.

(** [float(toks[k]) if (k in toks and args.enable_xy) else None] *)
Definition second_channel (a : Args) (toks : gmap string pyval) (k : string)
  : result (option float) :=
  match toks !! k with
  | Some v => if enable_xy a then do x <- py_float v; Ok (Some x) else Ok None
  | None => Ok None
  end.

(** [if fs_hz <= 0.0: fs_hz = 1000.0] *)
Definition effective_fs (fs_hz : float) : float :=
  if Float.leb fs_hz f0 then f1000 else fs_hz.

(** [dD]: [D - prevD], or [0] on the first sample *)
Definition count_delta (prev : option Z) (D : Z) : Z :=
  match prev with
  | None => 0
  | Some p => D - p
  end.

(** The assignment [fs_hz = fs_found] *)
Definition with_fs_hz (s : State) (fs_found : float) : State :=
  {| fs_hz := fs_found; x_nm := x_nm s; prevD := prevD s; ema_x := ema_x s;
     ma_buf := ma_buf s; fft_buf := fft_buf s; emitted := emitted s |}.

(** The state with the spectral buffer [buf] *)
Definition with_fft_buf (s : State) (buf : list float) : State :=
  {| fs_hz := fs_hz s; x_nm := x_nm s; prevD := prevD s; ema_x := ema_x s;
     ma_buf := ma_buf s; fft_buf := buf; emitted := emitted s |}.

(** The value the FFT block buffers for a record:
    [x_nm if args.fft_signal == "x" else v_nm_s]. *)
Definition signal_of (a : Args) (r : Rec) : float :=
  match fft_signal a with
  | SigX => rec_x_nm r
  | SigV => rec_v_nm_s r
  end.

(** The sample spacing handed to [np.fft.rfftfreq]:
    [1.0/fs_hz if fs_hz>0 else 0.001]. *)
Definition sample_spacing (fs_now : float) : result float :=
  if Float.gtb fs_now f0 then Float.truediv f1 fs_now else Ok f0_001.

(** [np.fft.rfftfreq(n, d)] computes the bin spacing [val = 1.0/(n*d)] on
    Python numbers before it builds the array of bins: it raises
    [ZeroDivisionError] when [n*d] is 0.0. [n] is the length of the
    window, converted to a float by the product. *)
Definition rfftfreq_val (n d : float) : result float :=
  Float.truediv f1 (Float.mul n d).

Section Pipeline.

(** What the interpreter's environment supplies: the value of libm's
    arcsine on [[-1, 1]], and whether [import numpy] succeeds. *)
Variable asin : float -> float.
Variable numpy_available : bool.

(** [math.asin]: [ValueError] outside [[-1, 1]], NaN for NaN. *)
Definition math_asin (x : float) : result float :=
  if Float.ltb x fm1 || Float.gtb x f1 then Raise ValueError else Ok (asin x).

Definition angle_from_displacement (x : float) (a : Args) : result float :=
  if Float.eqb (angle_norm_nm a) f0 then Ok f0
  else
    do q <- Float.truediv x (angle_norm_nm a);
    let norm := clamp q fm1 f1 in
    do r <- math_asin norm;
    Ok (Float.mul (Float.mul r (angle_corr a)) f57_296).

(** The smoothing block: the new [ema_x] and the reported [x_nm_ema]. *)
Definition ema_update (a : Args) (ema : option float) (x : float)
  : option float * option float :=
  if Float.gtb (ema_alpha a) f0 then
    let e := match ema with
             | None => x
             | Some e0 =>
                 Float.add (Float.mul (ema_alpha a) x)
                           (Float.mul (Float.sub f1 (ema_alpha a)) e0)
             end in
    (Some e, Some e)
  else (ema, None).

(** The moving-average block: the new [ma_buf] and the reported [x_nm_ma]. *)
Definition ma_update (a : Args) (buf : deque) (x : float)
  : result (deque * option float) :=
  if ma_window a >? 0 then
    do buf1 <- (if negb (maxlen buf =? ma_window a)
                then deque_of (items buf) (ma_window a) else Ok buf);
    let buf2 := deque_append buf1 x in
    do m <- mean (items buf2);
    Ok (buf2, Some m)
  else Ok (buf, None).

(** Emission filtering: the new counter and the final [keep]. *)
Definition emission (a : Args) (dD : Z) (count : Z) : Z * bool :=
  let keep := match emit a with
              | OnStep => negb (dD =? 0)
              | Every => true
              end in
  if keep then
    let count' := count + 1 in
    if (decimate a >? 1) && negb (count' mod decimate a =? 0)
    then (count', false) else (count', true)
  else (count, false).

(** The FFT block (lines 334-358), run for a forwarded sample after its
    record is written: the new buffer and the snapshot written, if any.
    Of numpy's computations only the bin spacing of [rfftfreq] can raise;
    it does after the value is buffered and before the snapshot is
    written. *)
Definition fft_update (a : Args) (buf : list float) (count : Z)
           (fs_now x v : float) : result (list float * option Snapshot) :=
  if (fft_len a >? 0) && (fft_every a >? 0) then
    if numpy_available && (count mod fft_every a =? 0) then
      let sigval := match fft_signal a with SigX => x | SigV => v end in
      let buf' := buf ++ [sigval] in
      if Z.of_nat (length buf') >=? fft_len a then
        let window := last_n (fft_len a) buf' in
        do d <- sample_spacing fs_now;
        do _ <- rfftfreq_val (float_of_len window) d;
        Ok (buf', Some {| snap_signal := fft_signal a;
                          snap_fs_hz := fs_now;
                          snap_buf := window |})
      else Ok (buf', None)
    else Ok (buf, None)
  else Ok (buf, None).

(** The loop body from the primary count [D] to the record (lines
    245-320): the conversions, the values of the sample, the smoothing
    state, the emission verdict [keep] and the record. The state returned
    has every local as the record's iteration leaves it but the spectral
    buffer, which only the FFT block touches. *)
Definition sample (a : Args) (step_nm_per_count : float) (s : State)
           (toks : gmap string pyval) (D : Z) : result (State * Rec * bool) :=
  do N <- py_int (default (PyInt 0) (toks !! "N"));
  do x2 <- second_channel a toks "X";
  do y2 <- second_channel a toks "Y";
  let fs_now := effective_fs (fs_hz s) in
  let dD := count_delta (prevD s) D in
  do fdD <- Float.of_int dD;
  let dx := Float.mul step_nm_per_count fdD in
  let x := Float.mul (Float.add (x_nm s) dx) (straight_mult a) in
  let v := Float.mul dx fs_now in
  let '(ema', x_ema) := ema_update a (ema_x s) x in
  do ma <- ma_update a (ma_buf s) x;
  let '(buf', x_ma) := ma in
  let x_env := apply_env x a in
  do angle <- match mode a with
              | Angle => do g <- angle_from_displacement x a; Ok (Some g)
              | Displacement => Ok None
              end;
  let '(count', keep) := emission a dD (emitted s) in
  let r := {| rec_seq := N; rec_fs_hz := fs_now; rec_D := D; rec_deltaD := dD;
              rec_step_nm := dx; rec_x_nm := x; rec_v_nm_s := v;
              rec_x_nm_ema := x_ema; rec_x_nm_ma := x_ma; rec_x_nm_env := x_env;
              rec_angle_deg := angle; rec_x2 := x2; rec_y2 := y2 |} in
  Ok ({| fs_hz := fs_now; x_nm := x; prevD := Some D; ema_x := ema';
         ma_buf := buf'; fft_buf := fft_buf s; emitted := count' |},
      r, keep).

(** The loop body from the primary count [D] on: the sample, and for a
    sample that is kept the FFT block. (The record of a kept sample is
    written between the two, see [write_iteration].) *)
Definition process (a : Args) (step_nm_per_count : float) (s : State)
           (toks : gmap string pyval) (D : Z) : result (State * Iteration) :=
  do sr <- sample a step_nm_per_count s toks D;
  let '(s1, r, keep) := sr in
  if keep then
    do f <- fft_update a (fft_buf s1) (emitted s1)
                       (rec_fs_hz r) (rec_x_nm r) (rec_v_nm_s r);
    Ok (with_fft_buf s1 (fst f), Forwarded r (snd f))
  else Ok (s1, Dropped r).

(** One iteration of [for raw in source]. *)
Definition step (a : Args) (step_nm_per_count : float) (s : State) (raw : string)
  : result (State * Iteration) :=
  let line := strip raw in
  if String.eqb line "" then Ok (s, Blank)
  else
    let data :=
      let toks := parse_line_tokens line in
      match primary_token toks with
      | Some v => do D <- py_int v; process a step_nm_per_count s toks D
      | None => Ok (s, NoCount)
      end in
    match maybe_extract_fs line with
    | Some fs_found =>
        if Float.truthy fs_found then Ok (with_fs_hz s fs_found, Header)
        else data
    | None => data
    end.

(** An iteration that raises has written nothing, with one exception: the
    FFT block runs after the record of its sample is written (line 324
    precedes line 351). [interrupted] is, for a line on which [step]
    raises, the record that is already written and the locals at the
    raise, the value buffered by line 343 included; [None] when the
    exception came before the record. *)
Definition interrupted (a : Args) (step_nm_per_count : float) (s : State)
           (raw : string) : option (State * Rec) :=
  let toks := parse_line_tokens (strip raw) in
  match primary_token toks with
  | Some v =>
      match (do D <- py_int v; sample a step_nm_per_count s toks D) with
      | Ok (s1, r, true) =>
          match fft_update a (fft_buf s1) (emitted s1)
                           (rec_fs_hz r) (rec_x_nm r) (rec_v_nm_s r) with
          | Raise _ => Some (with_fft_buf s1 (fft_buf s1 ++ [signal_of a r]), r)
          | Ok _ => None
          end
      | _ => None
      end
  | None => None
  end.

(** The loop: the state reached, the iterations done, and the exception
    that ended the run, if one did. An iteration interrupted after its
    record is listed as forwarded without a snapshot; any other
    iteration that raises is not listed and leaves the state of the line
    before. *)
Fixpoint run (a : Args) (step_nm_per_count : float) (s : State) (source : list string)
  : State * list Iteration * option exn :=
  match source with
  | [] => (s, [], None)
  | raw :: rest =>
      match step a step_nm_per_count s raw with
      | Ok (s', it) =>
          let '(s'', its, e) := run a step_nm_per_count s' rest in
          (s'', it :: its, e)
      | Raise e =>
          match interrupted a step_nm_per_count s raw with
          | Some (s1, r) => (s1, [Forwarded r None], Some e)
          | None => (s, [], Some e)
          end
      end
  end.

(** What an iteration did, whether it completed or was interrupted after
    its record. *)
Definition iteration_of (a : Args) (step_nm_per_count : float) (s : State)
           (raw : string) : option (State * Iteration) :=
  match step a step_nm_per_count s raw with
  | Ok si => Some si
  | Raise _ =>
      match interrupted a step_nm_per_count s raw with
      | Some (s1, r) => Some (s1, Forwarded r None)
      | None => None
      end
  end.

(** The locals before the first line, once the prologue has built them. *)
Definition init (a : Args) : State :=
  {| fs_hz := if Float.gtb (fs a) f0 then fs a else f0;
     x_nm := startnm a;
     prevD := None;
     ema_x := None;
     ma_buf := {| items := []; maxlen := if ma_window a >? 0 then ma_window a else 1 |};
     fft_buf := [];
     emitted := 0 |}.

(** Lines 195-206 of the prologue: the locals of [init], of which the
    constructor of the moving-average buffer can raise. *)
Definition start (a : Args) : result State :=
  do buf <- deque_new (if ma_window a >? 0 then ma_window a else 1);
  Ok {| fs_hz := if Float.gtb (fs a) f0 then fs a else f0;
        x_nm := startnm a;
        prevD := None;
        ema_x := None;
        ma_buf := buf;
        fft_buf := [];
        emitted := 0 |}.

End Pipeline.

(** ** The prologue of [main] and the two sinks *)

(** The names bound at module level: the imports and the definitions of
    [umd2.py]. *)
Definition module_names : list string :=
  [ "sys"; "re"; "argparse"; "json"; "csv"; "math"; "deque";
    "Optional"; "Tuple"; "Iterator"; "List";
    "HeaderFS_RE"; "Tok_RE"; "parse_args"; "iter_lines_serial";
    "iter_lines_file"; "iter_lines_stdin"; "parse_line_tokens";
    "maybe_extract_fs"; "clamp"; "compute_step_nm"; "apply_env";
    "angle_from_displacement"; "main" ].

(** Reading a global that is not a builtin. *)
Definition global (name : string) : result unit :=
  if bool_decide (name ∈ module_names) then Ok tt else Raise (NameError name).

Inductive Row : Type :=
| HeaderRow
| DataRow (r : Rec).

Inductive Line : Type :=
| CsvLine (row : Row)
| JsonRec (r : Rec)
| JsonFft (s : Snapshot).

(** The world outside the process: what was written to standard output,
    and the rows of each file that exists. *)
Record World : Type := {
  stdout : list Line;
  files : gmap string (list Row)
}.

Definition write_stdout (w : World) (l : Line) : World :=
  {| stdout := stdout w ++ [l]; files := files w |}.

Definition append_row (w : World) (path : string) (row : Row) : World :=
  {| stdout := stdout w;
     files := <[path := default [] (files w !! path) ++ [row]]> (files w) |}.

(** The logging block of the prologue: the path of the open log, if any. *)
Definition open_log (a : Args) (w : World) : result (World * option string) :=
  match log a with
  | Some path =>
      if String.eqb path "" then Ok (w, None)
      else
        do _ <- global "os";
        let log_exists := bool_decide (is_Some (files w !! path)) in
        let w1 := {| stdout := stdout w;
                     files := <[path := default [] (files w !! path)]> (files w) |} in
        let w2 := if log_exists then w1 else append_row w1 path HeaderRow in
        Ok (w2, Some path)
  | None => Ok (w, None)
  end.

(** What one iteration writes. *)
Definition write_iteration (a : Args) (log_path : option string)
           (w : World) (it : Iteration) : World :=
  match it with
  | Forwarded r snap =>
      let w1 := write_stdout w (match out a with
                                | Jsonl => JsonRec r
                                | Csv => CsvLine (DataRow r)
                                end) in
      let w2 := match log_path with
                | Some path => append_row w1 path (DataRow r)
                | None => w1
                end in
      match snap with
      | Some sn => write_stdout w2 (JsonFft sn)
      | None => w2
      end
  | _ => w
  end.

Definition main (asin : float -> float) (numpy_available : bool)
           (a : Args) (w : World) (source : list string) : World * option exn :=
  match compute_step_nm a with
  | Raise e => (w, Some e)
  | Ok step_nm_per_count =>
      match start a with
      | Raise e => (w, Some e)
      | Ok s0 =>
          match open_log a w with
          | Raise e => (w, Some e)
          | Ok (w1, log_path) =>
              let w2 := match out a with
                        | Csv => write_stdout w1 (CsvLine HeaderRow)
                        | Jsonl => w1
                        end in
              let '(_, its, e) :=
                run asin numpy_available a step_nm_per_count s0 source in
              (fold_left (write_iteration a log_path) its w2, e)
          end
      end
  end.

(** The default configuration of [parse_args]. *)
Definition default_args : Args :=
  {| fs := f0; emit := Every; decimate := 1;
     stepnm := None; lambda_nm := Float.of_decimal false 632991 3;
     scale_div := 8; startnm := f0; straight_mult := f1;
     mode := Displacement; angle_norm_nm := f1; angle_corr := f1;
     ema_alpha := f0; ma_window := 0;
     env_temp := None; env_temp0 := None; env_ktemp := f0;
     env_press := None; env_press0 := None; env_kpress := f0;
     env_hum := None; env_hum0 := None; env_khum := f0;
     fft_len := 0; fft_every := 0; fft_signal := SigX;
     enable_xy := false; out := Jsonl; log := None |}.

Definition empty_world : World := {| stdout := []; files := ∅ |}.

(** ** Observations on iterations *)

(** The values computed for the sample of an iteration, forwarded or not. *)
Definition sample_of (it : Iteration) : option Rec :=
  match it with
  | Dropped r | Forwarded r _ => Some r
  | _ => None
  end.

Definition is_forwarded (it : Iteration) : bool :=
  match it with
  | Forwarded _ _ => true
  | _ => false
  end.

(** Gate 1 of the emission policy, read off the computed sample. *)
Definition mode_gate (a : Args) (r : Rec) : bool :=
  match emit a with
  | Every => true
  | OnStep => negb (rec_deltaD r =? 0)
  end.

Definition samples (its : list Iteration) : list Rec := omap sample_of its.

(** The cumulative displacements of the samples of a run, in order. *)
Definition xs_of (its : list Iteration) : list float :=
  map rec_x_nm (samples its).

(** The number of samples that pass gate 1, and the number forwarded. *)
Definition counted (a : Args) (its : list Iteration) : Z :=
  Z.of_nat (length (List.filter (mode_gate a) (samples its))).

Definition forwarded_count (its : list Iteration) : Z :=
  Z.of_nat (length (List.filter is_forwarded its)).

(** The buffer holds the newest [ma_window] values of the history [h]. *)
Definition ma_holds (a : Args) (h : list float) (buf : deque) : Prop :=
  items buf = last_n (ma_window a) h /\ maxlen buf = ma_window a.

(** No character of [s] is a colon. *)
Definition no_colon (s : list ascii) : bool :=
  forallb (fun c => negb (Ascii.eqb c ":"%char)) s.

(** [int(x)] as a number: the quotient truncated toward zero of the
    float's integer significand by its power of two. *)
Definition truncate (x : float) : Z :=
  match x with
  | S754_finite s m (Zneg p) => Z.quot (cond_Zopp s (Zpos m)) (2 ^ Zpos p)
  | S754_finite s m e => cond_Zopp s (Zpos m) * 2 ^ e
  | _ => 0
  end.

(** ** The specification's clamp

    [clamped lo hi q c]: [c] is the number [q] limited to the interval
    from [lo] to [hi], that is the bound [q] lies beyond, and [q] itself
    when it lies between the bounds. *)
Inductive clamped (lo hi q : float) : float -> Prop :=
| clamped_lo : Float.ltb q lo = true -> clamped lo hi q lo
| clamped_hi : Float.ltb hi q = true -> clamped lo hi q hi
| clamped_id : Float.leb lo q = true -> Float.leb q hi = true -> clamped lo hi q q.

(** ** Inputs of the concrete runs *)

(** The runs below stay in displacement mode, where [math.asin] is never
    called; they pass this constant for it. *)
Definition no_asin (x : float) : float := S754_nan.

(** A stand-in for libm's arcsine that returns its argument, so that the
    value handed to the arcsine shows in the result. *)
Definition asin_probe (x : float) : float := x.

(** [--mode angle], [--angle-norm-nm], [--angle-corr] *)
Definition with_angle (a : Args) (norm corr : float) : Args :=
  {| fs := fs a; emit := emit a; decimate := decimate a; stepnm := stepnm a;
     lambda_nm := lambda_nm a; scale_div := scale_div a; startnm := startnm a;
     straight_mult := straight_mult a; mode := Angle;
     angle_norm_nm := norm; angle_corr := corr;
     ema_alpha := ema_alpha a; ma_window := ma_window a;
     env_temp := env_temp a; env_temp0 := env_temp0 a; env_ktemp := env_ktemp a;
     env_press := env_press a; env_press0 := env_press0 a; env_kpress := env_kpress a;
     env_hum := env_hum a; env_hum0 := env_hum0 a; env_khum := env_khum a;
     fft_len := fft_len a; fft_every := fft_every a; fft_signal := fft_signal a;
     enable_xy := enable_xy a; out := out a; log := log a |}.

Definition with_log (a : Args) (path : string) : Args :=
  {| fs := fs a; emit := emit a; decimate := decimate a; stepnm := stepnm a;
     lambda_nm := lambda_nm a; scale_div := scale_div a; startnm := startnm a;
     straight_mult := straight_mult a; mode := mode a;
     angle_norm_nm := angle_norm_nm a; angle_corr := angle_corr a;
     ema_alpha := ema_alpha a; ma_window := ma_window a;
     env_temp := env_temp a; env_temp0 := env_temp0 a; env_ktemp := env_ktemp a;
     env_press := env_press a; env_press0 := env_press0 a; env_kpress := env_kpress a;
     env_hum := env_hum a; env_hum0 := env_hum0 a; env_khum := env_khum a;
     fft_len := fft_len a; fft_every := fft_every a; fft_signal := fft_signal a;
     enable_xy := enable_xy a; out := out a; log := Some path |}.

Definition with_fft (a : Args) (len every : Z) : Args :=
  {| fs := fs a; emit := emit a; decimate := decimate a; stepnm := stepnm a;
     lambda_nm := lambda_nm a; scale_div := scale_div a; startnm := startnm a;
     straight_mult := straight_mult a; mode := mode a;
     angle_norm_nm := angle_norm_nm a; angle_corr := angle_corr a;
     ema_alpha := ema_alpha a; ma_window := ma_window a;
     env_temp := env_temp a; env_temp0 := env_temp0 a; env_ktemp := env_ktemp a;
     env_press := env_press a; env_press0 := env_press0 a; env_kpress := env_kpress a;
     env_hum := env_hum a; env_hum0 := env_hum0 a; env_khum := env_khum a;
     fft_len := len; fft_every := every; fft_signal := fft_signal a;
     enable_xy := enable_xy a; out := out a; log := log a |}.

(** [--stepnm], [--startnm], [--straight-mult] *)
Definition with_scaling (a : Args) (step start mult : float) : Args :=
  {| fs := fs a; emit := emit a; decimate := decimate a; stepnm := Some step;
     lambda_nm := lambda_nm a; scale_div := scale_div a; startnm := start;
     straight_mult := mult; mode := mode a;
     angle_norm_nm := angle_norm_nm a; angle_corr := angle_corr a;
     ema_alpha := ema_alpha a; ma_window := ma_window a;
     env_temp := env_temp a; env_temp0 := env_temp0 a; env_ktemp := env_ktemp a;
     env_press := env_press a; env_press0 := env_press0 a; env_kpress := env_kpress a;
     env_hum := env_hum a; env_hum0 := env_hum0 a; env_khum := env_khum a;
     fft_len := fft_len a; fft_every := fft_every a; fft_signal := fft_signal a;
     enable_xy := enable_xy a; out := out a; log := log a |}.

(** [--emit], [--decimate], [--ma-window] *)
Definition with_policy (a : Args) (e : EmitMode) (d w : Z) : Args :=
  {| fs := fs a; emit := e; decimate := d; stepnm := stepnm a;
     lambda_nm := lambda_nm a; scale_div := scale_div a; startnm := startnm a;
     straight_mult := straight_mult a; mode := mode a;
     angle_norm_nm := angle_norm_nm a; angle_corr := angle_corr a;
     ema_alpha := ema_alpha a; ma_window := w;
     env_temp := env_temp a; env_temp0 := env_temp0 a; env_ktemp := env_ktemp a;
     env_press := env_press a; env_press0 := env_press0 a; env_kpress := env_kpress a;
     env_hum := env_hum a; env_hum0 := env_hum0 a; env_khum := env_khum a;
     fft_len := fft_len a; fft_every := fft_every a; fft_signal := fft_signal a;
     enable_xy := enable_xy a; out := out a; log := log a |}.

Definition fl (n : Z) : float := binary_normalize Float.prec Float.emax n 0 false.

(** The step per count of the default configuration, 632.991 / 8. *)
Definition default_step : float :=
  Float.div (Float.of_decimal false 632991 3) (fl 8).

(** A decimal numeral too large for a finite float: 1 followed by 309
    zeros. *)
Definition huge_numeral : string :=
  String.append "1" (string_of_list_ascii (repeat "0"%char 309)).

(** ** Lines from a serial device: [iter_lines_serial]

    The device is read in chunks of bytes; a byte is an [ascii]. The
    chunks the reads return are an input of the model, and so is the
    decoder [bytes.decode(errors="ignore")]. *)

Definition newline : ascii := "010"%char.

(** [b"\n" in buf] *)
Definition has_newline (buf : list ascii) : bool :=
  existsb (Ascii.eqb newline) buf.

(** [buf.split(b"\n", 1)] on a buffer that holds a newline: the bytes
    before the first newline, and those after it. *)
Fixpoint split_first (buf : list ascii) : list ascii * list ascii :=
  match buf with
  | [] => ([], [])
  | c :: t =>
      if Ascii.eqb c newline then ([], t)
      else let '(line, rest) := split_first t in (c :: line, rest)
  end.

(** [while b"\n" in buf: line, buf = buf.split(b"\n", 1); yield line]:
    the lines yielded and the buffer left. [fuel] bounds the iterations;
    each one removes a byte, so the length of the buffer is enough. *)
Fixpoint drain (fuel : nat) (buf : list ascii) : list (list ascii) * list ascii :=
  match fuel with
  | O => ([], buf)
  | S fuel' =>
      if has_newline buf then
        let '(line, rest) := split_first buf in
        let '(lines, buf') := drain fuel' rest in
        (line :: lines, buf')
      else ([], buf)
  end.

(** One turn of [while True]: a read that returned [chunk]. *)
Definition on_read (buf chunk : list ascii) : list (list ascii) * list ascii :=
  match chunk with
  | [] => ([], buf)
  | _ => drain (length (buf ++ chunk)) (buf ++ chunk)
  end.

(** The raw lines yielded over a sequence of reads, and the buffer left. *)
Fixpoint serial_lines (buf : list ascii) (reads : list (list ascii))
  : list (list ascii) * list ascii :=
  match reads with
  | [] => ([], buf)
  | chunk :: reads' =>
      let '(lines, buf1) := on_read buf chunk in
      let '(lines', buf2) := serial_lines buf1 reads' in
      (lines ++ lines', buf2)
  end.

(** What the generator yields: each raw line decoded. *)
Definition iter_lines_serial (decode : list ascii -> string)
           (reads : list (list ascii)) : list string :=
  map decode (fst (serial_lines [] reads)).

(** The bytes a list of lines and a rest stand for: every line followed
    by a newline, then the rest. *)
Definition unsplit (lines : list (list ascii)) (rest : list ascii) : list ascii :=
  concat (map (fun l => l ++ [newline]) lines) ++ rest.

(** ** Predicates on floats and tokens used by the run invariants *)

Definition is_nan (x : float) : bool :=
  match x with
  | S754_nan => true
  | _ => false
  end.

(** [x] is a zero, a finite number or an infinity of sign [s]. *)
Definition has_sign (s : bool) (x : float) : bool :=
  match x with
  | S754_nan => false
  | S754_zero s' | S754_infinity s' | S754_finite s' _ _ => Bool.eqb s s'
  end.

(** A token value that is not NaN. *)
Definition not_nan_val (v : pyval) : bool :=
  match v with
  | PyInt _ => true
  | PyFloat x => negb (is_nan x)
  end.

(** A key as [key.upper()] leaves it: letters A..Z, at least one. *)
Definition upper_key (k : string) : bool :=
  match list_ascii_of_string k with
  | [] => false
  | cs => forallb (Re.between 65 90) cs
  end.

(** ** The exponential moving average of a series, by its recurrence *)

Fixpoint ema_from (alpha e : float) (xs : list float) : list float :=
  match xs with
  | [] => []
  | x :: rest =>
      let e' := Float.add (Float.mul alpha x) (Float.mul (Float.sub f1 alpha) e) in
      e' :: ema_from alpha e' rest
  end.

(** The series seeded with its first value. *)
Definition ema_series (alpha : float) (seed : option float) (xs : list float)
  : list float :=
  match seed, xs with
  | Some e, _ => ema_from alpha e xs
  | None, [] => []
  | None, x :: rest => x :: ema_from alpha x rest
  end.

(** [--ema-alpha] *)
Definition with_ema (a : Args) (alpha : float) : Args :=
  {| fs := fs a; emit := emit a; decimate := decimate a; stepnm := stepnm a;
     lambda_nm := lambda_nm a; scale_div := scale_div a; startnm := startnm a;
     straight_mult := straight_mult a; mode := mode a;
     angle_norm_nm := angle_norm_nm a; angle_corr := angle_corr a;
     ema_alpha := alpha; ma_window := ma_window a;
     env_temp := env_temp a; env_temp0 := env_temp0 a; env_ktemp := env_ktemp a;
     env_press := env_press a; env_press0 := env_press0 a; env_kpress := env_kpress a;
     env_hum := env_hum a; env_hum0 := env_hum0 a; env_khum := env_khum a;
     fft_len := fft_len a; fft_every := fft_every a; fft_signal := fft_signal a;
     enable_xy := enable_xy a; out := out a; log := log a |}.

(** ** Changing the environmental options only *)

(** [--env-temp], [--env-temp0], [--env-ktemp], and the same for pressure
    and humidity. *)
Definition with_env (a : Args) (t t0 : option float) (kt : float)
           (p p0 : option float) (kp : float)
           (h h0 : option float) (kh : float) : Args :=
  {| fs := fs a; emit := emit a; decimate := decimate a; stepnm := stepnm a;
     lambda_nm := lambda_nm a; scale_div := scale_div a; startnm := startnm a;
     straight_mult := straight_mult a; mode := mode a;
     angle_norm_nm := angle_norm_nm a; angle_corr := angle_corr a;
     ema_alpha := ema_alpha a; ma_window := ma_window a;
     env_temp := t; env_temp0 := t0; env_ktemp := kt;
     env_press := p; env_press0 := p0; env_kpress := kp;
     env_hum := h; env_hum0 := h0; env_khum := kh;
     fft_len := fft_len a; fft_every := fft_every a; fft_signal := fft_signal a;
     enable_xy := enable_xy a; out := out a; log := log a |}.

(** The record [r] with its compensated displacement recomputed under [a]. *)
Definition recompensate (a : Args) (r : Rec) : Rec :=
  {| rec_seq := rec_seq r; rec_fs_hz := rec_fs_hz r; rec_D := rec_D r;
     rec_deltaD := rec_deltaD r; rec_step_nm := rec_step_nm r;
     rec_x_nm := rec_x_nm r; rec_v_nm_s := rec_v_nm_s r;
     rec_x_nm_ema := rec_x_nm_ema r; rec_x_nm_ma := rec_x_nm_ma r;
     rec_x_nm_env := apply_env (rec_x_nm r) a;
     rec_angle_deg := rec_angle_deg r; rec_x2 := rec_x2 r; rec_y2 := rec_y2 r |}.

Definition recompensate_it (a : Args) (it : Iteration) : Iteration :=
  match it with
  | Dropped r => Dropped (recompensate a r)
  | Forwarded r fft => Forwarded (recompensate a r) fft
  | _ => it
  end.

(** The snapshot an iteration wrote, if any. *)
Definition snapshot_of (it : Iteration) : option Snapshot :=
  match it with
  | Forwarded _ fft => fft
  | _ => None
  end.

(** Spectral analysis can run: both lengths positive and numpy there. *)
Definition spectral_on (numpy_available : bool) (a : Args) : bool :=
  (fft_len a >? 0) && (fft_every a >? 0) && numpy_available.

(** What an iteration writes to standard output. *)
Definition lines_of (a : Args) (it : Iteration) : list Line :=
  match it with
  | Forwarded r snap =>
      (match out a with
       | Jsonl => JsonRec r
       | Csv => CsvLine (DataRow r)
       end)
      :: match snap with
         | Some sn => [JsonFft sn]
         | None => []
         end
  | _ => []
  end.

(** ** The viewer's rolling buffers: [MainWindow._trim] of gui.py

    The three lists [ts], [xs], [vs] of the window, with the time stamps
    as floats. *)

Definition ROLLING_SECONDS : float := Float.of_decimal false 300 1.

Record Rolling : Type := {
  roll_ts : list float;
  roll_xs : list float;
  roll_vs : list float
}.

(** The index at which [while i < len(ts) and ts[i] < cutoff: i += 1]
    stops. *)
Fixpoint stale_count (cutoff : float) (ts : list float) : nat :=
  match ts with
  | t :: rest => if Float.ltb t cutoff then S (stale_count cutoff rest) else O
  | [] => O
  end.

Definition trim (b : Rolling) : Rolling :=
  match last (roll_ts b) with
  | None => b
  | Some newest =>
      let cutoff := Float.sub newest ROLLING_SECONDS in
      let i := stale_count cutoff (roll_ts b) in
      if (0 <? i)%nat
      then {| roll_ts := drop i (roll_ts b);
              roll_xs := drop i (roll_xs b);
              roll_vs := drop i (roll_vs b) |}
      else b
  end.

(** [_on_line] for a sample record, as far as the buffers go: the three
    appends, then [_trim]. [relt] is the time stamp the caller read from
    the clock. *)
Definition on_sample (b : Rolling) (sample : float * float * float) : Rolling :=
  let '(relt, x, v) := sample in
  trim {| roll_ts := roll_ts b ++ [relt];
          roll_xs := roll_xs b ++ [x];
          roll_vs := roll_vs b ++ [v] |}.

(** The buffers of a fresh window (and after [_clear_plots]). *)
Definition empty_rolling : Rolling :=
  {| roll_ts := []; roll_xs := []; roll_vs := [] |}.

(** * Properties *)

Ltac invert_result H :=
  repeat match type of H with
    | bind ?m _ = Ok _ =>
        let E := fresh "E" in
        destruct m eqn:E; cbn [bind] in H; [|discriminate H]
    | (let '(_, _) := ?p in _) = Ok _ =>
        let E := fresh "E" in destruct p eqn:E
    | (if ?b then _ else _) = Ok _ =>
        let E := fresh "E" in destruct b eqn:E
    end.

Lemma bind_Ok {A B : Type} (m : result A) (k : A -> result B) (b : B) :
  bind m k = Ok b -> exists a, m = Ok a /\ k a = Ok b.
Proof. destruct m as [a|e]; simpl; intros H; [eauto | discriminate]. Qed.

(** ** Facts about binary64 used below *)

Lemma of_int_0 : Float.of_int 0 = Ok f0.
Proof. reflexivity. Qed.

Lemma mul_zero_r (x : float) (s : bool) :
  Float.is_finite x = true -> exists s', Float.mul x (S754_zero s) = S754_zero s'.
Proof. destruct x; simpl; intros H; try discriminate; eauto. Qed.

Lemma mul_zero_l (x : float) (s : bool) :
  Float.is_finite x = true -> exists s', Float.mul (S754_zero s) x = S754_zero s'.
Proof. destruct x; simpl; intros H; try discriminate; eauto. Qed.

Lemma eqb_zero (s : bool) : Float.eqb (S754_zero s) f0 = true.
Proof. reflexivity. Qed.

(** The clamp to [[-1, 1]] lands in the domain of [math.asin]. *)
Lemma clamp_in_domain (q : float) :
  Float.ltb (clamp q fm1 f1) fm1 || Float.gtb (clamp q fm1 f1) f1 = false.
Proof.
  unfold clamp.
  destruct (Float.ltb q fm1) eqn:Hlo; [reflexivity|].
  destruct (Float.gtb q f1) eqn:Hhi; [reflexivity|].
  rewrite Hlo, Hhi. reflexivity.
Qed.

(** ** Order on floats *)

Lemma SFcompare_antisym (x y : float) (c : comparison) :
  SFcompare x y = Some c -> SFcompare y x = Some (CompOpp c).
Proof.
  destruct x as [sx|sx| |sx mx ex], y as [sy|sy| |sy my ey]; cbn;
    intros H; try discriminate H; injection H as <-;
    try (destruct sx; reflexivity); try (destruct sy; reflexivity);
    try (destruct sx, sy; reflexivity).
  change (Pos.compare_cont Eq my mx) with (Pos.compare my mx).
  change (Pos.compare_cont Eq mx my) with (Pos.compare mx my).
  rewrite (Z.compare_antisym ex ey), (Pos.compare_antisym mx my).
  destruct sx, sy; try reflexivity;
    destruct (ex ?= ey); cbn [CompOpp]; try reflexivity;
    destruct (mx ?= my)%positive; reflexivity.
Qed.

Lemma SFcompare_refl (x : float) : is_nan x = false -> SFcompare x x = Some Eq.
Proof.
  destruct x as [s|s| |s m e]; cbn; intros H; try discriminate H;
    try (destruct s; reflexivity).
  rewrite Z.compare_refl, Pos.compare_cont_refl. destruct s; reflexivity.
Qed.

Lemma SFcompare_total (x y : float) :
  is_nan x = false -> is_nan y = false -> exists c, SFcompare x y = Some c.
Proof.
  destruct x, y; cbn; intros Hx Hy; try discriminate; eauto.
Qed.

Lemma SFcompare_nan (x y : float) (c : comparison) :
  SFcompare x y = Some c -> is_nan x = false /\ is_nan y = false.
Proof. destruct x, y; cbn; intros H; try discriminate; auto. Qed.

(** [not (x < y)] for numbers is [y <= x]. *)
Lemma not_ltb_leb (x y : float) :
  is_nan x = false -> is_nan y = false ->
  Float.ltb x y = false -> Float.leb y x = true.
Proof.
  intros Hx Hy. unfold Float.ltb, Float.leb, SFltb, SFleb.
  destruct (SFcompare_total x y Hx Hy) as (c & Hc).
  rewrite Hc, (SFcompare_antisym _ _ _ Hc).
  destruct c; cbn; congruence.
Qed.

Lemma leb_not_ltb (x y : float) :
  Float.leb x y = true -> Float.ltb y x = false.
Proof.
  unfold Float.ltb, Float.leb, SFltb, SFleb.
  destruct (SFcompare x y) as [c|] eqn:Hc; [|discriminate].
  rewrite (SFcompare_antisym _ _ _ Hc). destruct c; cbn; congruence.
Qed.

Lemma leb_refl (x : float) : is_nan x = false -> Float.leb x x = true.
Proof.
  intros H. unfold Float.leb, SFleb. rewrite (SFcompare_refl _ H). reflexivity.
Qed.

(** A product with a factor that is not finite, the other being a zero:
    NaN. *)
Lemma mul_zero_not_finite (x y : float) :
  Float.is_finite x = false \/ Float.is_finite y = false ->
  is_nan (Float.mul (Float.mul x f0) y) = true.
Proof.
  intros [Hx|Hy].
  - destruct x; try discriminate Hx; destruct y; reflexivity.
  - destruct y; try discriminate Hy; destruct x as [sx|sx| |sx mx ex]; try reflexivity.
Qed.

(** The number of binary digits of a number below 2^k is at most k. *)
Lemma digits2_pos_le (p : positive) :
  forall k, 0 <= k -> Zpos p < 2 ^ k -> Zpos (digits2_pos p) <= k.
Proof.
  induction p as [p IH|p IH|]; intros k Hk Hp; cbn [digits2_pos].
  - assert (Hk1 : 0 < k).
    { destruct (Z.eq_dec k 0) as [->|]; [cbn in Hp; lia | lia]. }
    replace k with (Z.succ (k - 1)) in Hp by lia.
    rewrite Z.pow_succ_r in Hp by lia.
    specialize (IH (k - 1) ltac:(lia) ltac:(lia)). lia.
  - assert (Hk1 : 0 < k).
    { destruct (Z.eq_dec k 0) as [->|]; [cbn in Hp; lia | lia]. }
    replace k with (Z.succ (k - 1)) in Hp by lia.
    rewrite Z.pow_succ_r in Hp by lia.
    specialize (IH (k - 1) ltac:(lia) ltac:(lia)). lia.
  - destruct (Z.eq_dec k 0) as [->|]; [cbn in Hp; lia | lia].
Qed.

Lemma digits2_iter_xO (d m : positive) :
  digits2_pos (Pos.iter xO m d) = (digits2_pos m + d)%positive.
Proof.
  induction d as [|d IH] using Pos.peano_ind.
  - cbn. rewrite Pos.add_1_r. reflexivity.
  - rewrite Pos.iter_succ. cbn [digits2_pos]. rewrite IH, Pos.add_succ_r. reflexivity.
Qed.

(** A significand that needs no rounding is kept as it is. *)
Lemma binary_round_aux_exact (s : bool) (m : positive) (e : Z) :
  Z.max (Zpos (digits2_pos m) + e - 53) (-1074) <= e -> e <= 971 ->
  binary_round_aux Float.prec Float.emax s (Zpos m) e loc_Exact = S754_finite s m e.
Proof.
  intros Hf He.
  assert (Hshift : shr_fexp Float.prec Float.emax (Zpos m) e loc_Exact
                   = ({| shr_m := Zpos m; shr_r := false; shr_s := false |}, e)).
  { unfold shr_fexp, Zdigits2, fexp, Float.prec, Float.emax, emin, shr.
    cbn [shr_record_of_loc].
    change (3 - 1024 - 53) with (-1074).
    destruct (Z.max (Zpos (digits2_pos m) + e - 53) (-1074) - e) as [|q|q] eqn:Hm;
      [reflexivity | lia | reflexivity]. }
  unfold binary_round_aux. rewrite Hshift.
  cbn [shr_m loc_of_shr_record shr_r shr_s round_nearest_even].
  rewrite Hshift. cbn [shr_m].
  destruct (Z.leb_spec e (Float.emax - Float.prec)) as [_|Hgt]; [reflexivity|].
  unfold Float.emax, Float.prec in Hgt. lia.
Qed.

(** [float(n)] is finite for an [int] below 2^53 in magnitude. *)
Lemma binary_normalize_finite (n : Z) :
  Z.abs n < 2 ^ 53 ->
  Float.is_finite (binary_normalize Float.prec Float.emax n 0 false) = true.
Proof.
  intros Hn.
  assert (Hround : forall s p, Zpos p < 2 ^ 53 ->
             Float.is_finite (binary_round Float.prec Float.emax s p 0) = true).
  { intros s p Hp.
    pose proof (digits2_pos_le p 53 ltac:(lia) Hp) as Hd.
    unfold binary_round, shl_align, fexp, Float.prec, Float.emax, emin.
    change (3 - 1024 - 53) with (-1074).
    change (binary_round_aux 53 1024)
      with (binary_round_aux Float.prec Float.emax).
    destruct (Z.max (Zpos (digits2_pos p) + 0 - 53) (-1074) - 0) as [|q|q] eqn:Hm.
    - rewrite (binary_round_aux_exact s p 0); [reflexivity | lia | lia].
    - rewrite (binary_round_aux_exact s p 0); [reflexivity | lia | lia].
    - rewrite binary_round_aux_exact; [reflexivity | | lia].
      rewrite digits2_iter_xO. lia. }
  unfold binary_normalize. destruct n as [|p|p]; [reflexivity | |]; apply Hround; lia.
Qed.

Lemma float_of_len_finite (buf : list float) :
  Z.of_nat (length buf) < 2 ^ 53 -> Float.is_finite (float_of_len buf) = true.
Proof.
  intros H. unfold float_of_len. apply binary_normalize_finite. lia.
Qed.

(** ** Angle conversion *)

Section AngleFacts.

Variable asin : float -> float.

(** The value of the conversion; no branch of it raises. *)
Lemma angle_from_displacement_value (x : float) (a : Args) :
  angle_from_displacement asin x a =
  Ok (if Float.eqb (angle_norm_nm a) f0 then f0
      else Float.mul
             (Float.mul (asin (clamp (Float.div x (angle_norm_nm a)) fm1 f1))
                        (angle_corr a))
             f57_296).
Proof.
  unfold angle_from_displacement, Float.truediv. fold f0.
  destruct (Float.eqb (angle_norm_nm a) f0) eqn:Hz; [reflexivity|].
  cbn [bind]; cbv zeta. unfold math_asin. rewrite clamp_in_domain. reflexivity.
Qed.

(** The code's clamp to [[-1, 1]] is the specification's on every number,
    and passes NaN on. *)
Lemma clamp_clamped (q : float) :
  (is_nan q = false -> clamped fm1 f1 q (clamp q fm1 f1))
  /\ (is_nan q = true -> clamp q fm1 f1 = q).
Proof.
  unfold clamp, Float.gtb. fold (Float.ltb f1 q). split.
  - intros Hq. destruct (Float.ltb q fm1) eqn:Hlo; [apply clamped_lo, Hlo|].
    destruct (Float.ltb f1 q) eqn:Hhi; [apply clamped_hi, Hhi|].
    apply clamped_id; apply not_ltb_leb; first [assumption | reflexivity].
  - intros Hq. destruct q; try discriminate Hq. reflexivity.
Qed.

End AngleFacts.

(** ** A header line carries no token

    Every character a header consists of is white space, a letter, a
    digit, [=] or [.]; a token needs a colon. *)


Lemma no_colon_cons (c : ascii) (s : list ascii) :
  no_colon (c :: s) = negb (Ascii.eqb c ":"%char) && no_colon s.
Proof. reflexivity. Qed.

Lemma no_colon_span (p : ascii -> bool) (s a b : list ascii) :
  p ":"%char = false -> Re.span p s = (a, b) -> no_colon s = no_colon b.
Proof.
  intros Hp. revert a b. induction s as [|c s IH]; intros a b H; cbn in H.
  - injection H as <- <-. reflexivity.
  - destruct (p c) eqn:Hc.
    + destruct (Re.span p s) as [a' b'] eqn:Hs. injection H as <- <-.
      rewrite no_colon_cons, (IH _ _ eq_refl).
      destruct (Ascii.eqb_spec c ":"%char) as [->|_]; [congruence | reflexivity].
    + injection H as <- <-. reflexivity.
Qed.

Lemma no_colon_skip (p : ascii -> bool) (s : list ascii) :
  p ":"%char = false -> no_colon s = no_colon (Re.skip p s).
Proof.
  intros Hp. unfold Re.skip. destruct (Re.span p s) as [a b] eqn:Hs.
  apply (no_colon_span p s a b Hp Hs).
Qed.

Lemma no_colon_literal (lit s s' : list ascii) :
  no_colon (map Re.lower lit) = true ->
  Re.literal_ci lit s = Some s' -> no_colon s = no_colon s'.
Proof.
  revert s. induction lit as [|l lit IH]; intros s Hl H; cbn in H.
  - injection H as <-. reflexivity.
  - destruct s as [|c s]; [discriminate|].
    cbn [map] in Hl. rewrite no_colon_cons in Hl. apply andb_prop in Hl as [Hl1 Hl2].
    destruct (Ascii.eqb_spec (Re.lower c) (Re.lower l)) as [Heq|_]; [|discriminate].
    rewrite no_colon_cons, (IH _ Hl2 H).
    destruct (Ascii.eqb_spec c ":"%char) as [->|_]; [|reflexivity].
    rewrite <- Heq in Hl1. discriminate Hl1.
Qed.

Lemma header_tail_no_colon (s : list ascii) :
  Re.header_tail s = true -> no_colon s = true.
Proof.
  unfold Re.header_tail. intros H.
  rewrite (no_colon_skip Re.is_space s eq_refl).
  destruct (Re.literal_ci _ _) as [s'|] eqn:Hl; [|discriminate].
  rewrite (no_colon_literal (list_ascii_of_string "Hz") _ _ eq_refl Hl).
  rewrite (no_colon_skip Re.is_space s' eq_refl).
  destruct (Re.skip Re.is_space s'); [reflexivity | discriminate].
Qed.

Lemma header_no_colon (s g : list ascii) :
  Re.HeaderFS_RE_match s = Some g -> no_colon s = true.
Proof.
  unfold Re.HeaderFS_RE_match. intros H.
  rewrite (no_colon_skip Re.is_space s eq_refl).
  destruct (Re.literal_ci _ _) as [s1|] eqn:H1; [|discriminate].
  rewrite (no_colon_literal (list_ascii_of_string "Sample") _ _ eq_refl H1).
  destruct (Re.span Re.is_space s1) as [sp s2] eqn:H2.
  rewrite (no_colon_span _ _ _ _ eq_refl H2).
  destruct sp as [|c0 sp]; [discriminate|].
  destruct (Re.literal_ci _ s2) as [s3|] eqn:H3; [|discriminate].
  rewrite (no_colon_literal (list_ascii_of_string "Frequency") _ _ eq_refl H3).
  rewrite (no_colon_skip Re.is_space s3 eq_refl).
  destruct (Re.skip Re.is_space s3) as [|c4 s4]; [discriminate|].
  destruct (Ascii.eqb_spec c4 "="%char) as [->|Hne].
  2:{ exfalso. revert H. clear -Hne.
      destruct c4 as [[] [] [] [] [] [] [] []]; try discriminate.
      congruence. }
  rewrite no_colon_cons. cbn [Ascii.eqb Bool.eqb negb andb].
  rewrite (no_colon_skip Re.is_space s4 eq_refl).
  destruct (Re.span Re.is_digit _) as [ds s5] eqn:H5.
  rewrite (no_colon_span _ _ _ _ eq_refl H5).
  destruct ds as [|d0 ds]; [discriminate|].
  assert (Hwhole : forall r, (if Re.header_tail s5 then Some (d0 :: ds) else None) = Some r ->
                             no_colon s5 = true).
  { intros r Hr. destruct (Re.header_tail s5) eqn:Ht; [|discriminate].
    apply header_tail_no_colon, Ht. }
  destruct s5 as [|c5 t]; [reflexivity|].
  destruct (Ascii.eqb_spec c5 "."%char) as [->|Hne].
  2:{ apply (Hwhole g). revert H. clear -Hne.
      destruct c5 as [[] [] [] [] [] [] [] []]; try (intros H; exact H).
      congruence. }
  destruct (Re.span Re.is_digit t) as [fs s6] eqn:H6.
  destruct fs as [|f0 fs]; [apply (Hwhole g), H|].
  destruct (Re.header_tail s6) eqn:Ht6; [|apply (Hwhole g), H].
  rewrite no_colon_cons. cbn [Ascii.eqb Bool.eqb negb andb].
  rewrite (no_colon_span _ _ _ _ eq_refl H6).
  apply header_tail_no_colon, Ht6.
Qed.

Lemma Tok_RE_match_colon (s key val rest : list ascii) :
  Re.Tok_RE_match s = Some (key, val, rest) -> no_colon s = false.
Proof.
  unfold Re.Tok_RE_match. intros H.
  destruct (Re.span Re.is_alpha s) as [k s1] eqn:H1.
  rewrite (no_colon_span _ _ _ _ eq_refl H1).
  destruct k as [|k0 k]; [discriminate|].
  rewrite (no_colon_skip Re.is_space s1 eq_refl).
  destruct (Re.skip Re.is_space s1) as [|c s2]; [discriminate|].
  destruct (Ascii.eqb_spec c ":"%char) as [->|Hne]; [reflexivity|].
  exfalso. revert H. clear -Hne.
  destruct c as [[] [] [] [] [] [] [] []]; try discriminate.
  congruence.
Qed.

Lemma findall_no_colon (fuel : nat) (s : list ascii) :
  no_colon s = true -> Re.findall_from fuel s = [].
Proof.
  revert s. induction fuel as [|fuel IH]; intros s Hs; [reflexivity|].
  destruct s as [|c s]; [reflexivity|]. cbn [Re.findall_from].
  destruct (Re.Tok_RE_match (c :: s)) as [[[k v] rest]|] eqn:Hm.
  - apply Tok_RE_match_colon in Hm. congruence.
  - apply IH. rewrite no_colon_cons in Hs. apply andb_prop in Hs as [_ Hs]. exact Hs.
Qed.

(** A line the header pattern matches yields the empty dictionary. *)
Lemma header_no_tokens (line : string) (f : float) :
  maybe_extract_fs line = Some f -> parse_line_tokens line = ∅.
Proof.
  unfold maybe_extract_fs, parse_line_tokens. intros H.
  destruct (Re.HeaderFS_RE_match _) as [g|] eqn:Hg; [|discriminate].
  unfold Re.Tok_RE_findall.
  rewrite (findall_no_colon _ _ (header_no_colon _ _ Hg)). reflexivity.
Qed.

(** ** What one processed sample computes *)


Section SampleFacts.

Variable asin : float -> float.
Variable numpy_available : bool.
Variable a : Args.
Variable step_nm_per_count : float.

Local Abbreviation sample_ := (sample asin a step_nm_per_count).
Local Abbreviation process_ := (process asin numpy_available a step_nm_per_count).
Local Abbreviation step_ := (step asin numpy_available a step_nm_per_count).
Local Abbreviation interrupted_ := (interrupted asin numpy_available a step_nm_per_count).
Local Abbreviation iteration_of_ := (iteration_of asin numpy_available a step_nm_per_count).
Local Abbreviation run_ := (run asin numpy_available a step_nm_per_count).

(** Everything a computed sample determines. *)
Lemma sample_spec (s s1 : State) (toks : gmap string pyval) (D : Z) (r : Rec)
      (keep : bool) :
  sample_ s toks D = Ok (s1, r, keep) ->
  exists fdD,
    rec_D r = D
    /\ rec_deltaD r = count_delta (prevD s) D
    /\ Float.of_int (rec_deltaD r) = Ok fdD
    /\ rec_fs_hz r = effective_fs (fs_hz s)
    /\ rec_step_nm r = Float.mul step_nm_per_count fdD
    /\ rec_x_nm r = Float.mul (Float.add (x_nm s) (rec_step_nm r)) (straight_mult a)
    /\ rec_v_nm_s r = Float.mul (rec_step_nm r) (rec_fs_hz r)
    /\ ema_update a (ema_x s) (rec_x_nm r) = (ema_x s1, rec_x_nm_ema r)
    /\ ma_update a (ma_buf s) (rec_x_nm r) = Ok (ma_buf s1, rec_x_nm_ma r)
    /\ emission a (rec_deltaD r) (emitted s) = (emitted s1, keep)
    /\ fs_hz s1 = rec_fs_hz r
    /\ x_nm s1 = rec_x_nm r
    /\ prevD s1 = Some D
    /\ fft_buf s1 = fft_buf s.
Proof.
  intros H. unfold sample in H. invert_result H.
  injection H as <- <- <-. eexists. cbn. repeat split; eauto.
Qed.

(** The fields of the record that are not part of the recurrences. *)
Lemma sample_fields (s s1 : State) (toks : gmap string pyval) (D : Z) (r : Rec)
      (keep : bool) :
  sample_ s toks D = Ok (s1, r, keep) ->
  py_int (default (PyInt 0) (toks !! "N")) = Ok (rec_seq r)
  /\ second_channel a toks "X" = Ok (rec_x2 r)
  /\ second_channel a toks "Y" = Ok (rec_y2 r)
  /\ rec_x_nm_env r = apply_env (rec_x_nm r) a
  /\ match mode a with
     | Angle => exists g, angle_from_displacement asin (rec_x_nm r) a = Ok g
                          /\ rec_angle_deg r = Some g
     | Displacement => rec_angle_deg r = None
     end.
Proof.
  intros H. unfold sample in H. invert_result H.
  injection H as <- <- <-. cbn. repeat split; try assumption.
  match goal with
  | E : match mode a with _ => _ end = Ok _ |- _ =>
      destruct (mode a); [injection E as <-; reflexivity|];
      apply bind_Ok in E as (g & Hg & Hsome); injection Hsome as <-; eauto
  end.
Qed.

(** [process] is the sample followed, when it is kept, by the FFT block. *)
Lemma process_sample (s s' : State) (toks : gmap string pyval) (D : Z)
      (it : Iteration) :
  process_ s toks D = Ok (s', it) ->
  exists s1 r,
    sample_ s toks D = Ok (s1, r, is_forwarded it)
    /\ sample_of it = Some r
    /\ s' = with_fft_buf s1 (fft_buf s')
    /\ (if is_forwarded it
        then fft_update numpy_available a (fft_buf s) (emitted s')
                        (rec_fs_hz r) (rec_x_nm r) (rec_v_nm_s r)
             = Ok (fft_buf s', snapshot_of it)
        else fft_buf s' = fft_buf s).
Proof.
  intros H. unfold process in H.
  destruct (sample_ s toks D) as [[[s1 r] keep]|e] eqn:Hs; cbn [bind] in H;
    [|discriminate H].
  destruct (sample_spec _ _ _ _ _ _ Hs)
    as (fdD & _ & _ & _ & _ & _ & _ & _ & _ & _ & _ & _ & _ & _ & Hbuf).
  destruct keep.
  - destruct (fft_update _ _ _ _ _ _ _) as [[fbuf snap]|e] eqn:Hf; cbn [bind] in H;
      [|discriminate H].
    injection H as <- <-. exists s1, r. cbn [is_forwarded sample_of snapshot_of].
    split; [reflexivity|]. split; [reflexivity|]. split; [reflexivity|].
    cbn [with_fft_buf fft_buf emitted fst snd]. rewrite <- Hbuf. exact Hf.
  - injection H as <- <-. exists s1, r. cbn [is_forwarded sample_of].
    split; [reflexivity|]. split; [reflexivity|]. split; [destruct s1; reflexivity|].
    exact Hbuf.
Qed.

(** Everything a successful [process] determines. *)
Lemma process_spec (s s' : State) (toks : gmap string pyval) (D : Z) (it : Iteration) :
  process_ s toks D = Ok (s', it) ->
  exists r fdD,
    sample_of it = Some r
    /\ rec_D r = D
    /\ rec_deltaD r = count_delta (prevD s) D
    /\ Float.of_int (rec_deltaD r) = Ok fdD
    /\ rec_fs_hz r = effective_fs (fs_hz s)
    /\ rec_step_nm r = Float.mul step_nm_per_count fdD
    /\ rec_x_nm r = Float.mul (Float.add (x_nm s) (rec_step_nm r)) (straight_mult a)
    /\ rec_v_nm_s r = Float.mul (rec_step_nm r) (rec_fs_hz r)
    /\ ema_update a (ema_x s) (rec_x_nm r) = (ema_x s', rec_x_nm_ema r)
    /\ ma_update a (ma_buf s) (rec_x_nm r) = Ok (ma_buf s', rec_x_nm_ma r)
    /\ emission a (rec_deltaD r) (emitted s) = (emitted s', is_forwarded it)
    /\ fs_hz s' = rec_fs_hz r
    /\ x_nm s' = rec_x_nm r
    /\ prevD s' = Some D
    /\ (if is_forwarded it
        then fft_update numpy_available a (fft_buf s) (emitted s')
                        (rec_fs_hz r) (rec_x_nm r) (rec_v_nm_s r)
             = Ok (fft_buf s', snapshot_of it)
        else fft_buf s' = fft_buf s).
Proof.
  intros H. destruct (process_sample _ _ _ _ _ H) as (s1 & r & Hs & Hr & Hs' & Hb).
  destruct (sample_spec _ _ _ _ _ _ Hs)
    as (fdD & HD & HdD & Hf & Hfs & Hdx & Hx & Hv & Hema & Hma & Hem & Hfs1 & Hx1 & Hp1 & _).
  exists r, fdD. rewrite Hs'. cbn [with_fft_buf fs_hz x_nm prevD ema_x ma_buf emitted].
  rewrite Hs' in Hb. cbn [with_fft_buf fft_buf emitted] in Hb.
  repeat split; assumption.
Qed.


(** The paths of one iteration. *)
Lemma step_cases (s s' : State) (raw : string) (it : Iteration) :
  step_ s raw = Ok (s', it) ->
  (it = Blank /\ s' = s)
  \/ (it = Header /\ exists f, maybe_extract_fs (strip raw) = Some f
                              /\ Float.truthy f = true /\ s' = with_fs_hz s f)
  \/ (it = NoCount /\ s' = s
      /\ primary_token (parse_line_tokens (strip raw)) = None)
  \/ (exists v D, primary_token (parse_line_tokens (strip raw)) = Some v
                  /\ py_int v = Ok D
                  /\ process_ s (parse_line_tokens (strip raw)) D = Ok (s', it)).
Proof.
  unfold step. intros H.
  destruct (String.eqb (strip raw) "") eqn:Hb.
  { injection H as <- <-. auto. }
  assert (Hdata :
    match primary_token (parse_line_tokens (strip raw)) with
    | Some v => do D <- py_int v; process_ s (parse_line_tokens (strip raw)) D
    | None => Ok (s, NoCount)
    end = Ok (s', it) ->
    (it = NoCount /\ s' = s
      /\ primary_token (parse_line_tokens (strip raw)) = None)
    \/ (exists v D, primary_token (parse_line_tokens (strip raw)) = Some v
                  /\ py_int v = Ok D
                  /\ process_ s (parse_line_tokens (strip raw)) D = Ok (s', it))).
  { destruct (primary_token _) as [v|] eqn:Hp; intros Hd.
    - apply bind_Ok in Hd as (D & HD & Hpr). right. eauto.
    - injection Hd as <- <-. auto. }
  destruct (maybe_extract_fs (strip raw)) as [f|] eqn:Hf.
  - destruct (Float.truthy f) eqn:Ht.
    + injection H as <- <-. right. left. eauto.
    + right. right. auto.
  - right. right. auto.
Qed.

(** An iteration without a sample changes nothing but, on a header, the
    sampling frequency. *)
Lemma step_no_sample (s s' : State) (raw : string) (it : Iteration) :
  step_ s raw = Ok (s', it) -> sample_of it = None ->
  x_nm s' = x_nm s /\ prevD s' = prevD s /\ ema_x s' = ema_x s
  /\ ma_buf s' = ma_buf s /\ fft_buf s' = fft_buf s /\ emitted s' = emitted s.
Proof.
  intros H Hn.
  destruct (step_cases _ _ _ _ H)
    as [[-> ->]|[[-> (f & _ & _ & ->)]|[[-> [-> _]]|(v & D & _ & _ & Hp)]]];
    try (repeat split; reflexivity).
  apply process_spec in Hp as (r & fdD & Hs & _). congruence.
Qed.

Lemma step_sample (s s' : State) (raw : string) (it : Iteration) (r : Rec) :
  step_ s raw = Ok (s', it) -> sample_of it = Some r ->
  exists toks, process_ s toks (rec_D r) = Ok (s', it).
Proof.
  intros H Hr.
  destruct (step_cases _ _ _ _ H)
    as [[-> ->]|[[-> _]|[[-> _]|(v & D & _ & _ & Hp)]]];
    try discriminate Hr.
  destruct (process_spec _ _ _ _ _ Hp) as (r' & fdD & Hs & HD & _).
  assert (r' = r) by congruence. subst r'. rewrite HD. eauto.
Qed.

(** *** Interrupted iterations *)

(** The FFT block raises nothing but [ZeroDivisionError], and only where
    a snapshot is due. *)
Lemma fft_update_raises (buf : list float) (count : Z) (fs_now x v : float) (e : exn) :
  fft_update numpy_available a buf count fs_now x v = Raise e ->
  e = ZeroDivisionError
  /\ spectral_on numpy_available a = true
  /\ count mod fft_every a = 0
  /\ fft_len a <= Z.of_nat (length buf) + 1.
Proof.
  unfold fft_update, spectral_on.
  destruct ((fft_len a >? 0) && (fft_every a >? 0)); cbn [andb]; [|discriminate].
  destruct numpy_available; cbn [andb]; [|discriminate].
  destruct (Z.eqb_spec (count mod fft_every a) 0) as [Hm|]; [|discriminate].
  cbv zeta. rewrite length_app. cbn [length].
  destruct (Z.geb_spec (Z.of_nat (length buf + 1)) (fft_len a)) as [Hge|]; [|discriminate].
  intros H. split; [|split; [reflexivity | split; [exact Hm | lia]]].
  unfold sample_spacing, rfftfreq_val, Float.truediv in H.
  destruct (Float.gtb fs_now f0).
  - destruct (Float.eqb fs_now Float.zero); cbn [bind] in H; [congruence|].
    destruct (Float.eqb _ Float.zero); cbn [bind] in H; [congruence | discriminate].
  - cbn [bind] in H.
    destruct (Float.eqb _ Float.zero); cbn [bind] in H; [congruence | discriminate].
Qed.

(** On a line where [step] raises after the record: the sample was
    computed and kept, the exception is the snapshot's
    [ZeroDivisionError], and the locals are those of the sample with the
    value buffered. *)
Lemma interrupted_spec (s s' : State) (raw : string) (r : Rec) :
  interrupted_ s raw = Some (s', r) ->
  exists v D s1,
    primary_token (parse_line_tokens (strip raw)) = Some v
    /\ py_int v = Ok D
    /\ sample_ s (parse_line_tokens (strip raw)) D = Ok (s1, r, true)
    /\ process_ s (parse_line_tokens (strip raw)) D = Raise ZeroDivisionError
    /\ s' = with_fft_buf s1 (fft_buf s ++ [signal_of a r])
    /\ spectral_on numpy_available a = true
    /\ emitted s' mod fft_every a = 0
    /\ fft_len a <= Z.of_nat (length (fft_buf s)) + 1.
Proof.
  unfold interrupted. intros H.
  destruct (primary_token _) as [v|] eqn:Hp; [|discriminate H].
  destruct (py_int v) as [D|e0] eqn:HD; cbn [bind] in H; [|discriminate H].
  destruct (sample_ s _ D) as [[[s1 r1] keep]|e0] eqn:Hs; [|discriminate H].
  destruct keep; [|discriminate H].
  destruct (fft_update _ _ _ _ _ _ _) as [f|e0] eqn:Hf; [discriminate H|].
  injection H as <- <-.
  destruct (sample_spec _ _ _ _ _ _ Hs)
    as (fdD & _ & _ & _ & _ & _ & _ & _ & _ & _ & _ & _ & _ & _ & Hbuf).
  destruct (fft_update_raises _ _ _ _ _ _ Hf) as (-> & Hon & Hm & Hl).
  exists v, D, s1. rewrite Hbuf in *.
  split; [reflexivity|]. split; [exact HD|]. split; [exact Hs|].
  split; [unfold process; rewrite Hs; cbn [bind]; rewrite Hbuf, Hf; reflexivity|].
  split; [reflexivity|]. split; [exact Hon|]. split; [exact Hm | exact Hl].
Qed.

Lemma interrupted_raises (s s' : State) (raw : string) (r : Rec) :
  interrupted_ s raw = Some (s', r) -> step_ s raw = Raise ZeroDivisionError.
Proof.
  intros H.
  destruct (interrupted_spec _ _ _ _ H) as (v & D & s1 & Hp & HD & _ & Hpr & _).
  unfold step.
  destruct (String.eqb_spec (strip raw) "") as [He|_].
  { rewrite He in Hp. discriminate Hp. }
  destruct (maybe_extract_fs (strip raw)) as [f|] eqn:Hf.
  { rewrite (header_no_tokens _ _ Hf) in Hp. discriminate Hp. }
  rewrite Hp, HD. cbn [bind]. exact Hpr.
Qed.

(** *** Iterations, completed or interrupted *)

Lemma iteration_of_step (s s' : State) (raw : string) (it : Iteration) :
  step_ s raw = Ok (s', it) -> iteration_of_ s raw = Some (s', it).
Proof. intros H. unfold iteration_of. rewrite H. reflexivity. Qed.

Lemma iteration_no_sample (s s' : State) (raw : string) (it : Iteration) :
  iteration_of_ s raw = Some (s', it) -> sample_of it = None ->
  step_ s raw = Ok (s', it)
  /\ x_nm s' = x_nm s /\ prevD s' = prevD s /\ ema_x s' = ema_x s
  /\ ma_buf s' = ma_buf s /\ fft_buf s' = fft_buf s /\ emitted s' = emitted s.
Proof.
  unfold iteration_of. intros H Hn.
  destruct (step_ s raw) as [[s1 it1]|e] eqn:Hstep.
  - injection H as <- <-. split; [reflexivity|]. apply (step_no_sample _ _ _ _ Hstep Hn).
  - destruct (interrupted_ s raw) as [[s1 r]|]; [|discriminate H].
    injection H as <- <-. discriminate Hn.
Qed.

(** The sample of an iteration, whether the FFT block then completed or
    raised. *)
Lemma iteration_sample (s s' : State) (raw : string) (it : Iteration) (r : Rec) :
  iteration_of_ s raw = Some (s', it) -> sample_of it = Some r ->
  exists toks s1,
    sample_ s toks (rec_D r) = Ok (s1, r, is_forwarded it)
    /\ s' = with_fft_buf s1 (fft_buf s').
Proof.
  unfold iteration_of. intros H Hr.
  destruct (step_ s raw) as [[s1 it1]|e] eqn:Hstep.
  - injection H as <- <-.
    destruct (step_sample _ _ _ _ _ Hstep Hr) as (toks & Hp).
    destruct (process_sample _ _ _ _ _ Hp) as (s0 & r' & Hs & Hr' & Hs' & _).
    assert (r' = r) by congruence. subst r'. eauto.
  - destruct (interrupted_ s raw) as [[s1 r1]|] eqn:Hi; [|discriminate H].
    injection H as <- <-. cbn in Hr. injection Hr as <-.
    destruct (interrupted_spec _ _ _ _ Hi) as (v & D & s0 & _ & _ & Hs & _ & Hs' & _).
    destruct (sample_spec _ _ _ _ _ _ Hs) as (fdD & HD & _).
    exists (parse_line_tokens (strip raw)), s0. rewrite HD.
    split; [exact Hs|]. rewrite Hs'. reflexivity.
Qed.

(** Everything an iteration with a sample determines. *)
Lemma iteration_spec (s s' : State) (raw : string) (it : Iteration) (r : Rec) :
  iteration_of_ s raw = Some (s', it) -> sample_of it = Some r ->
  exists fdD,
    rec_deltaD r = count_delta (prevD s) (rec_D r)
    /\ Float.of_int (rec_deltaD r) = Ok fdD
    /\ rec_fs_hz r = effective_fs (fs_hz s)
    /\ rec_step_nm r = Float.mul step_nm_per_count fdD
    /\ rec_x_nm r = Float.mul (Float.add (x_nm s) (rec_step_nm r)) (straight_mult a)
    /\ rec_v_nm_s r = Float.mul (rec_step_nm r) (rec_fs_hz r)
    /\ ema_update a (ema_x s) (rec_x_nm r) = (ema_x s', rec_x_nm_ema r)
    /\ ma_update a (ma_buf s) (rec_x_nm r) = Ok (ma_buf s', rec_x_nm_ma r)
    /\ emission a (rec_deltaD r) (emitted s) = (emitted s', is_forwarded it)
    /\ fs_hz s' = rec_fs_hz r
    /\ x_nm s' = rec_x_nm r
    /\ prevD s' = Some (rec_D r).
Proof.
  intros H Hr.
  destruct (iteration_sample _ _ _ _ _ H Hr) as (toks & s1 & Hs & Hs').
  destruct (sample_spec _ _ _ _ _ _ Hs)
    as (fdD & HD & HdD & Hf & Hfs & Hdx & Hx & Hv & Hema & Hma & Hem & Hfs1 & Hx1 & Hp1 & _).
  exists fdD. rewrite Hs'. cbn [with_fft_buf fs_hz x_nm prevD ema_x ma_buf emitted].
  repeat split; assumption.
Qed.

(** *** Runs *)

Lemma run_nil (s : State) : run_ s [] = (s, [], None).
Proof. reflexivity. Qed.

(** Unfolding [run] on a line that was processed. *)
Lemma run_cons_Ok (s s1 : State) (raw : string) (rest : list string) (it : Iteration) :
  step_ s raw = Ok (s1, it) ->
  run_ s (raw :: rest) =
  (fst (fst (run_ s1 rest)), it :: snd (fst (run_ s1 rest)), snd (run_ s1 rest)).
Proof.
  intros H. cbn [run]. rewrite H.
  destruct (run_ s1 rest) as [[s2 its] e]. reflexivity.
Qed.

(** Unfolding [run] on a line that raised. *)
Lemma run_cons_Raise (s : State) (raw : string) (rest : list string) (e : exn) :
  step_ s raw = Raise e ->
  run_ s (raw :: rest) =
  match interrupted_ s raw with
  | Some (s1, r) => (s1, [Forwarded r None], Some e)
  | None => (s, [], Some e)
  end.
Proof. intros H. cbn [run]. rewrite H. reflexivity. Qed.

(** Induction over the iterations of a run, the interrupted one
    included. *)
Lemma run_ind (P : State -> list Iteration -> State -> Prop) :
  (forall s, P s [] s) ->
  (forall s raw s1 it its s',
      iteration_of_ s raw = Some (s1, it) -> P s1 its s' -> P s (it :: its) s') ->
  forall source s s' its e, run_ s source = (s', its, e) -> P s its s'.
Proof.
  intros Hnil Hcons. induction source as [|raw rest IH]; intros s s' its e Hrun.
  - rewrite run_nil in Hrun. injection Hrun as <- <- <-. apply Hnil.
  - destruct (step_ s raw) as [[s1 it]|ex] eqn:Hstep.
    + rewrite (run_cons_Ok _ _ _ _ _ Hstep) in Hrun.
      destruct (run_ s1 rest) as [[s2 its2] e2] eqn:Hrest. cbn in Hrun.
      injection Hrun as <- <- <-.
      apply (Hcons s raw s1); [apply iteration_of_step, Hstep | apply (IH _ _ _ _ Hrest)].
    + rewrite (run_cons_Raise _ _ _ _ Hstep) in Hrun.
      destruct (interrupted_ s raw) as [[s1 r]|] eqn:Hi.
      * injection Hrun as <- <- <-.
        apply (Hcons s raw s1); [|apply Hnil].
        unfold iteration_of. rewrite Hstep, Hi. reflexivity.
      * injection Hrun as <- <- <-. apply Hnil.
Qed.

Lemma samples_cons (it : Iteration) (its : list Iteration) :
  samples (it :: its) =
  match sample_of it with
  | Some r => r :: samples its
  | None => samples its
  end.
Proof. reflexivity. Qed.

(** ** Displacement integration *)

(** C4. The baseline is the configured offset; a line without a sample
    leaves the cumulative displacement alone; and every processed primary
    count updates it by
    cumulative' = (cumulative + step * deltaD) * straightnessMultiplier,
    the multiplier scaling the whole accumulated value. *)
Theorem cumulative_recurrence :
  x_nm (init a) = startnm a
  /\ (forall s s' raw it,
         step_ s raw = Ok (s', it) -> sample_of it = None -> x_nm s' = x_nm s)
  /\ (forall s s' raw it r,
         step_ s raw = Ok (s', it) -> sample_of it = Some r ->
         exists fdD,
           rec_deltaD r = count_delta (prevD s) (rec_D r)
           /\ Float.of_int (rec_deltaD r) = Ok fdD
           /\ x_nm s' =
                Float.mul (Float.add (x_nm s) (Float.mul step_nm_per_count fdD))
                          (straight_mult a)
           /\ rec_x_nm r = x_nm s').
Proof.
  split; [reflexivity|]. split.
  - intros s s' raw it H Hn. apply (step_no_sample _ _ _ _ H Hn).
  - intros s s' raw it r H Hr.
    destruct (step_sample _ _ _ _ _ H Hr) as (toks & Hp).
    destruct (process_spec _ _ _ _ _ Hp)
      as (r' & fdD & Hs & HD & HdD & Hf & _ & Hdx & Hx & _ & _ & _ & _ & _ & Hx' & _).
    assert (r' = r) by congruence. subst r'.
    exists fdD. rewrite Hx', Hx, Hdx. auto.
Qed.

(** ** The first sample *)

Lemma first_sample_from (source : list string) :
  forall s s' its e,
    run_ s source = (s', its, e) ->
    prevD s = None ->
    forall r,
      head (samples its) = Some r ->
      rec_deltaD r = 0
      /\ rec_v_nm_s r = Float.mul (Float.mul step_nm_per_count f0) (rec_fs_hz r).
Proof.
  apply (run_ind (fun s its s' =>
    prevD s = None ->
    forall r, head (samples its) = Some r ->
              rec_deltaD r = 0
              /\ rec_v_nm_s r = Float.mul (Float.mul step_nm_per_count f0) (rec_fs_hz r))).
  - intros s _ r Hhd. discriminate Hhd.
  - intros s raw s1 it its s' Hit IH Hprev r Hhd.
    rewrite samples_cons in Hhd.
    destruct (sample_of it) as [r0|] eqn:Hs.
    + cbn in Hhd. injection Hhd as ->.
      destruct (iteration_spec _ _ _ _ _ Hit Hs)
        as (fdD & HdD & Hf & _ & Hdx & _ & Hv & _).
      rewrite Hprev in HdD. cbn in HdD. rewrite HdD in Hf.
      rewrite of_int_0 in Hf. injection Hf as <-.
      split; [exact HdD|]. rewrite Hv, Hdx. reflexivity.
    + destruct (iteration_no_sample _ _ _ _ Hit Hs) as (_ & _ & Hp1 & _).
      apply IH; [congruence | exact Hhd].
Qed.

(** C5 (amended). Whatever the lines, the first sample of a run has count
    delta 0; its velocity is a zero whenever the step per count and the
    sampling frequency in force are finite, and NaN whenever one of them
    is not. *)
Theorem first_sample_zero (source : list string) (s' : State)
        (its : list Iteration) (e : option exn) (r : Rec) :
  run_ (init a) source = (s', its, e) ->
  head (samples its) = Some r ->
  rec_deltaD r = 0
  /\ (Float.is_finite step_nm_per_count = true ->
      Float.is_finite (rec_fs_hz r) = true ->
      Float.eqb (rec_v_nm_s r) f0 = true)
  /\ (Float.is_finite step_nm_per_count = false
      \/ Float.is_finite (rec_fs_hz r) = false ->
      is_nan (rec_v_nm_s r) = true).
Proof.
  intros Hrun Hhd.
  destruct (first_sample_from source _ _ _ _ Hrun eq_refl r Hhd) as (Hd & Hv).
  split; [exact Hd|]. rewrite Hv. split.
  - intros Hfin Hfs. unfold f0 at 1, Float.zero.
    destruct (mul_zero_r _ false Hfin) as (s0 & ->).
    destruct (mul_zero_l _ s0 Hfs) as (s3 & ->). apply eqb_zero.
  - apply mul_zero_not_finite.
Qed.

(** ** Emission policy *)


Lemma emission_spec (dD count : Z) :
  let gate := match emit a with
              | Every => true
              | OnStep => negb (dD =? 0)
              end in
  emission a dD count =
  (count + (if gate then 1 else 0),
   gate && (if decimate a >? 1 then (count + 1) mod decimate a =? 0 else true)).
Proof.
  unfold emission. cbv zeta.
  destruct (match emit a with Every => true | OnStep => negb (dD =? 0) end).
  - destruct (decimate a >? 1); cbn [andb].
    + destruct ((count + 1) mod decimate a =? 0); reflexivity.
    + reflexivity.
  - cbn [andb]. f_equal. lia.
Qed.

(** Counter and verdict of one sample. *)
Lemma iteration_emission (s s' : State) (raw : string) (it : Iteration) (r : Rec) :
  iteration_of_ s raw = Some (s', it) -> sample_of it = Some r ->
  emitted s' = emitted s + (if mode_gate a r then 1 else 0)
  /\ is_forwarded it =
       mode_gate a r
       && (if decimate a >? 1 then emitted s' mod decimate a =? 0 else true).
Proof.
  intros H Hr.
  destruct (iteration_spec _ _ _ _ _ H Hr)
    as (fdD & _ & _ & _ & _ & _ & _ & _ & _ & Hem & _).
  rewrite emission_spec in Hem. cbv zeta in Hem. fold (mode_gate a r) in Hem.
  injection Hem as He Hf. rewrite <- He, <- Hf.
  split; [reflexivity|].
  destruct (mode_gate a r); [|reflexivity].
  reflexivity.
Qed.

Lemma step_emission (s s' : State) (raw : string) (it : Iteration) (r : Rec) :
  step_ s raw = Ok (s', it) -> sample_of it = Some r ->
  emitted s' = emitted s + (if mode_gate a r then 1 else 0)
  /\ is_forwarded it =
       mode_gate a r
       && (if decimate a >? 1 then emitted s' mod decimate a =? 0 else true).
Proof.
  intros H. apply (iteration_emission s s' raw it r), iteration_of_step, H.
Qed.

Lemma div_succ (c d : Z) :
  1 < d -> (c + 1) / d - c / d = if (c + 1) mod d =? 0 then 1 else 0.
Proof.
  intros Hd.
  pose proof (Z.div_mod c d ltac:(lia)) as Hc.
  pose proof (Z.mod_pos_bound c d ltac:(lia)) as Hr.
  destruct (Z.eq_dec (c mod d + 1) d) as [Heq|Hne].
  - assert (Hq : (c + 1) / d = c / d + 1).
    { symmetry. apply (Z.div_unique (c + 1) d (c / d + 1) 0); lia. }
    assert (Hm : (c + 1) mod d = 0).
    { symmetry. apply (Z.mod_unique (c + 1) d (c / d + 1) 0); lia. }
    rewrite Hq, Hm. cbn. lia.
  - assert (Hq : (c + 1) / d = c / d).
    { symmetry. apply (Z.div_unique (c + 1) d (c / d) (c mod d + 1)); lia. }
    assert (Hm : (c + 1) mod d = c mod d + 1).
    { symmetry. apply (Z.mod_unique (c + 1) d (c / d) (c mod d + 1)); lia. }
    rewrite Hq, Hm.
    destruct (Z.eqb_spec (c mod d + 1) 0); lia.
Qed.

Lemma run_counts (source : list string) :
  forall s s' its e,
    run_ s source = (s', its, e) ->
    emitted s' = emitted s + counted a its
    /\ forwarded_count its =
         (if decimate a >? 1
          then emitted s' / decimate a - emitted s / decimate a
          else counted a its).
Proof.
  unfold counted, forwarded_count.
  apply (run_ind (fun s its s' =>
    emitted s' = emitted s + Z.of_nat (length (List.filter (mode_gate a) (samples its)))
    /\ Z.of_nat (length (List.filter is_forwarded its)) =
         (if decimate a >? 1
          then emitted s' / decimate a - emitted s / decimate a
          else Z.of_nat (length (List.filter (mode_gate a) (samples its)))))).
  - intros s. cbn. destruct (decimate a >? 1); lia.
  - intros s raw s1 it its s' Hit (IHe & IHf).
    rewrite samples_cons. cbn [List.filter].
    destruct (sample_of it) as [r|] eqn:Hs.
    + destruct (iteration_emission _ _ _ _ _ Hit Hs) as (He & Hf).
      cbn [List.filter]. rewrite Hf.
      destruct (mode_gate a r); cbn [andb length].
      * destruct (decimate a >? 1) eqn:Hd.
        -- pose proof (div_succ (emitted s) (decimate a) ltac:(lia)) as Hds.
           replace (emitted s + 1) with (emitted s1) in Hds by lia.
           destruct (emitted s1 mod decimate a =? 0); cbn [length]; lia.
        -- cbn [length]. lia.
      * assert (Heq : emitted s1 = emitted s) by lia.
        rewrite Heq in IHe, IHf. destruct (decimate a >? 1); lia.
    + destruct (iteration_no_sample _ _ _ _ Hit Hs) as (_ & _ & _ & _ & _ & _ & He).
      assert (Hnf : is_forwarded it = false) by (destruct it; try reflexivity; discriminate Hs).
      rewrite Hnf. rewrite He in *. destruct (decimate a >? 1); lia.
Qed.

(** C6. The counter goes up exactly for the samples that pass the mode
    gate, before decimation is looked at; a sample is forwarded iff it
    passed the mode gate and, for a factor d > 1, the counter is then a
    multiple of d; a whole run forwards floor(n / d) of its n counted
    samples for d > 1 and all of them for d <= 1, so 7 counted samples with
    d = 3 give 2 records. *)
Theorem emission_policy :
  (forall s s' raw it r,
      step_ s raw = Ok (s', it) -> sample_of it = Some r ->
      emitted s' = emitted s + (if mode_gate a r then 1 else 0)
      /\ is_forwarded it =
           mode_gate a r
           && (if decimate a >? 1 then emitted s' mod decimate a =? 0 else true))
  /\ (forall source s' its e,
         run_ (init a) source = (s', its, e) ->
         emitted s' = counted a its
         /\ forwarded_count its =
              (if decimate a >? 1 then counted a its / decimate a else counted a its)
         /\ (decimate a = 3 -> counted a its = 7 -> forwarded_count its = 2)).
Proof.
  split; [exact step_emission|].
  intros source s' its e Hrun.
  destruct (run_counts _ _ _ _ _ Hrun) as (He & Hf).
  change (emitted (init a)) with 0 in He, Hf.
  rewrite Z.add_0_l in He. rewrite He, Zdiv_0_l, Z.sub_0_r in Hf.
  split; [exact He|]. split; [exact Hf|].
  intros Hd Hn. rewrite Hf, Hd, Hn. reflexivity.
Qed.

(** ** Moving average *)

Lemma last_n_length (w : Z) (l : list float) :
  length (last_n w l) = Nat.min (length l) (Z.to_nat w).
Proof. unfold last_n. rewrite length_drop. lia. Qed.

Lemma last_n_short (w : Z) (l : list float) :
  (length l <= Z.to_nat w)%nat -> last_n w l = l.
Proof.
  intros H. unfold last_n.
  replace (length l - Z.to_nat w)%nat with 0%nat by lia. reflexivity.
Qed.

(** Appending to a bounded deque that holds the newest [w] values of a
    history yields the newest [w] values of the extended history. *)
Lemma deque_append_last_n (w : Z) (h : list float) (x : float) :
  0 < w ->
  items (deque_append {| items := last_n w h; maxlen := w |} x)
  = last_n w (h ++ [x]).
Proof.
  intros Hw. unfold deque_append. cbn [items maxlen].
  rewrite length_app, last_n_length. cbn [length].
  destruct (Z.gtb_spec (Z.of_nat (Nat.min (length h) (Z.to_nat w) + 1)) w) as [Hgt|Hle].
  - assert (Hlen : (Z.to_nat w <= length h)%nat) by lia.
    unfold last_n. rewrite length_app. cbn [length].
    replace (length h + 1 - Z.to_nat w)%nat with (S (length h - Z.to_nat w)) by lia.
    rewrite drop_app_le by lia.
    destruct (drop (length h - Z.to_nat w) h) as [|y t] eqn:Hd.
    + apply (f_equal length) in Hd. rewrite length_drop in Hd. cbn in Hd. lia.
    + cbn [app tl]. f_equal.
      change t with (drop 1 (y :: t)). rewrite <- Hd, drop_drop.
      f_equal. lia.
  - assert (Hlen : (length h < Z.to_nat w)%nat) by lia.
    rewrite !last_n_short; [reflexivity | rewrite length_app; cbn; lia | lia].
Qed.


Lemma mean_nonempty (l : list float) :
  l <> [] -> mean l = Ok (Float.div (py_sum l) (float_of_len l)).
Proof. destruct l; [congruence | reflexivity]. Qed.

Lemma ma_update_holds (h : list float) (buf buf' : deque) (x : float)
      (m : option float) :
  0 < ma_window a ->
  ma_holds a h buf ->
  ma_update a buf x = Ok (buf', m) ->
  ma_holds a (h ++ [x]) buf'
  /\ m = Some (Float.div (py_sum (items buf')) (float_of_len (items buf')))
  /\ mean (items buf') = Ok (Float.div (py_sum (items buf')) (float_of_len (items buf'))).
Proof.
  intros Hw [Hi Hm] Hu. unfold ma_update in Hu.
  destruct (Z.gtb_spec (ma_window a) 0) as [_|]; [|lia].
  rewrite Hm, Z.eqb_refl in Hu. cbn [negb bind] in Hu.
  assert (Hitems : items (deque_append buf x) = last_n (ma_window a) (h ++ [x])).
  { rewrite <- (deque_append_last_n _ _ _ Hw).
    destruct buf as [bi bm]. cbn in Hi, Hm. subst. reflexivity. }
  assert (Hne : items (deque_append buf x) <> []).
  { rewrite Hitems. intros Hnil. apply (f_equal length) in Hnil.
    rewrite last_n_length, length_app in Hnil. cbn in Hnil. lia. }
  rewrite (mean_nonempty _ Hne) in Hu. cbn [bind] in Hu.
  injection Hu as <- <-.
  split; [split; [exact Hitems | exact Hm]|].
  split; [reflexivity | apply mean_nonempty, Hne].
Qed.


Lemma xs_of_cons (it : Iteration) (its : list Iteration) :
  xs_of (it :: its) =
  match sample_of it with
  | Some r => rec_x_nm r :: xs_of its
  | None => xs_of its
  end.
Proof. unfold xs_of. rewrite samples_cons. destruct (sample_of it); reflexivity. Qed.

Lemma run_ma_holds (source : list string) :
  0 < ma_window a ->
  forall h s s' its e,
    ma_holds a h (ma_buf s) ->
    run_ s source = (s', its, e) ->
    ma_holds a (h ++ xs_of its) (ma_buf s')
    /\ forall k r,
         samples its !! k = Some r ->
         exists m,
           mean (last_n (ma_window a) (h ++ take (S k) (xs_of its))) = Ok m
           /\ rec_x_nm_ma r = Some m.
Proof.
  intros Hw h s s' its e Hh Hrun. revert h Hh.
  apply (run_ind (fun s its s' =>
    forall h, ma_holds a h (ma_buf s) ->
    ma_holds a (h ++ xs_of its) (ma_buf s')
    /\ forall k r,
         samples its !! k = Some r ->
         exists m,
           mean (last_n (ma_window a) (h ++ take (S k) (xs_of its))) = Ok m
           /\ rec_x_nm_ma r = Some m)) with (source := source) (e := e);
    [| |exact Hrun].
  - intros s0 h Hh. cbn. rewrite app_nil_r. split; [exact Hh|].
    intros k r Hk. discriminate Hk.
  - intros s0 raw s1 it its0 s2 Hit IH h Hh.
    rewrite xs_of_cons, samples_cons.
    destruct (sample_of it) as [r0|] eqn:Hs.
    + destruct (iteration_spec _ _ _ _ _ Hit Hs)
        as (fdD & _ & _ & _ & _ & _ & _ & _ & Hma & _).
      destruct (ma_update_holds _ _ _ _ _ Hw Hh Hma) as (Hh1 & Hm1 & Hmean).
      destruct (IH _ Hh1) as (Hfin & Hall).
      rewrite <- app_assoc in Hfin. cbn [app] in Hfin.
      split; [exact Hfin|].
      intros [|k] r Hk.
      * cbn in Hk. injection Hk as <-. cbn [take].
        rewrite take_0. destruct Hh1 as [Hi1 _]. rewrite <- Hi1.
        eexists. split; [exact Hmean | exact Hm1].
      * cbn in Hk. destruct (Hall _ _ Hk) as (m & Hm & Hr).
        exists m. rewrite <- app_assoc in Hm. cbn [app] in Hm.
        split; [exact Hm | exact Hr].
    + destruct (iteration_no_sample _ _ _ _ Hit Hs) as (_ & _ & _ & _ & Hb & _).
      rewrite <- Hb in Hh. apply (IH _ Hh).
Qed.

(** C7. With the moving average enabled, after any run the history holds
    exactly the newest min(n, window) cumulative displacements of the n
    samples processed, never more than the window; and the MA value
    reported for the k-th sample is sum / len of the history as it stood
    after that sample. *)
Theorem moving_average_history (source : list string) (s' : State)
        (its : list Iteration) (e : option exn) :
  0 < ma_window a ->
  run_ (init a) source = (s', its, e) ->
  items (ma_buf s') = last_n (ma_window a) (xs_of its)
  /\ length (items (ma_buf s'))
     = Nat.min (length (samples its)) (Z.to_nat (ma_window a))
  /\ Z.of_nat (length (items (ma_buf s'))) <= ma_window a
  /\ forall k r,
       samples its !! k = Some r ->
       let hist := last_n (ma_window a) (take (S k) (xs_of its)) in
       length hist = Nat.min (S k) (Z.to_nat (ma_window a))
       /\ rec_x_nm_ma r = Some (Float.div (py_sum hist) (float_of_len hist))
       /\ mean hist = Ok (Float.div (py_sum hist) (float_of_len hist)).
Proof.
  intros Hw Hrun.
  assert (Hinit : ma_holds a [] (ma_buf (init a))).
  { split; cbn.
    - reflexivity.
    - destruct (Z.gtb_spec (ma_window a) 0); [reflexivity | lia]. }
  destruct (run_ma_holds _ Hw _ _ _ _ _ Hinit Hrun) as ([Hi _] & Hall).
  cbn [app] in Hi, Hall.
  assert (Hlen : length (items (ma_buf s'))
                 = Nat.min (length (samples its)) (Z.to_nat (ma_window a))).
  { rewrite Hi, last_n_length. unfold xs_of. rewrite length_map. reflexivity. }
  split; [exact Hi|]. split; [exact Hlen|]. split; [lia|].
  intros k r Hk. cbv zeta.
  destruct (Hall _ _ Hk) as (m & Hm & Hr).
  assert (Hk' : (k < length (xs_of its))%nat).
  { unfold xs_of. rewrite length_map. apply lookup_lt_Some in Hk. exact Hk. }
  assert (Hhl : length (last_n (ma_window a) (take (S k) (xs_of its)))
                = Nat.min (S k) (Z.to_nat (ma_window a))).
  { rewrite last_n_length, length_take. lia. }
  assert (Hne : last_n (ma_window a) (take (S k) (xs_of its)) <> []).
  { intros Hnil. rewrite Hnil in Hhl. cbn [length] in Hhl. lia. }
  rewrite (mean_nonempty _ Hne) in Hm. injection Hm as <-.
  split; [exact Hhl|]. split; [exact Hr|]. apply mean_nonempty, Hne.
Qed.

(** ** Lines without a primary count *)

(** C8. A line that is not a header and has neither a DIFF nor a D token
    is passed over: no exception, no sample, nothing written, and the
    state (frequency, previous count, cumulative displacement, EMA,
    moving-average history, counter, spectral buffer) is the one before. *)
Theorem no_primary_count_skipped (s : State) (raw : string) :
  maybe_extract_fs (strip raw) = None ->
  parse_line_tokens (strip raw) !! "DIFF" = None ->
  parse_line_tokens (strip raw) !! "D" = None ->
  exists it,
    step_ s raw = Ok (s, it)
    /\ sample_of it = None
    /\ forall log_path w, write_iteration a log_path w it = w.
Proof.
  intros Hh Hdiff Hd. unfold step.
  destruct (String.eqb (strip raw) "").
  - exists Blank. auto.
  - rewrite Hh. unfold primary_token. rewrite Hdiff, Hd.
    exists NoCount. auto.
Qed.

(** ** Spectral buffer *)

(** What the FFT block does to the buffer: the signal value is appended
    only under the trigger test on the counter. *)
Lemma fft_update_buffer (buf buf' : list float) (count : Z) (fs_now x v : float)
      (snap : option Snapshot) :
  fft_update numpy_available a buf count fs_now x v = Ok (buf', snap) ->
  buf' =
  if (fft_len a >? 0) && (fft_every a >? 0) && numpy_available
     && (count mod fft_every a =? 0)
  then buf ++ [match fft_signal a with SigX => x | SigV => v end]
  else buf.
Proof.
  unfold fft_update.
  destruct ((fft_len a >? 0) && (fft_every a >? 0)); cbn [andb];
    [|intros H; injection H as <- _; reflexivity].
  destruct (numpy_available && (count mod fft_every a =? 0));
    [|intros H; injection H as <- _; reflexivity].
  cbv zeta. destruct (_ >=? _); [|intros H; injection H as <- _; reflexivity].
  intros H. invert_result H. injection H as <- _. reflexivity.
Qed.

(** The buffer after a forwarded sample. *)
Lemma forwarded_buffer (s s' : State) (raw : string) (r : Rec) (fft : option Snapshot) :
  step_ s raw = Ok (s', Forwarded r fft) ->
  fft_buf s' =
  if (fft_len a >? 0) && (fft_every a >? 0) && numpy_available
     && (emitted s' mod fft_every a =? 0)
  then fft_buf s ++ [match fft_signal a with SigX => rec_x_nm r | SigV => rec_v_nm_s r end]
  else fft_buf s.
Proof.
  intros H.
  destruct (step_sample _ _ _ _ r H eq_refl) as (toks & Hp).
  destruct (process_spec _ _ _ _ _ Hp)
    as (r' & fdD & Hs & _ & _ & _ & _ & _ & _ & _ & _ & _ & _ & _ & _ & _ & Hb).
  cbn in Hs. injection Hs as <-. cbn [is_forwarded] in Hb.
  apply (fft_update_buffer _ _ _ _ _ _ _ Hb).
Qed.

End SampleFacts.

(** ** Angle mode *)

Section AngleMode.

Variable asin : float -> float.

(** C9. With a normalization length equal to zero the conversion returns
    exactly 0.0, and the division, which would raise, is not performed.
    With any other length the division succeeds, its quotient q is
    limited to [-1, 1] (the bound it lies beyond, or q itself; NaN passes
    through), the arcsine accepts the limited value c, and the angle is
    asin(c) * corr * 57.296. In angle mode this is the angle reported
    for every sample, computed from the sample's own cumulative
    displacement. *)
Theorem angle_from_displacement_total (x : float) (a : Args) :
  (Float.eqb (angle_norm_nm a) f0 = true ->
   angle_from_displacement asin x a = Ok f0
   /\ Float.truediv x (angle_norm_nm a) = Raise ZeroDivisionError)
  /\ (Float.eqb (angle_norm_nm a) f0 = false ->
      exists q c,
        Float.truediv x (angle_norm_nm a) = Ok q
        /\ q = Float.div x (angle_norm_nm a)
        /\ c = clamp q fm1 f1
        /\ (is_nan q = false -> clamped fm1 f1 q c)
        /\ (is_nan q = true -> c = q)
        /\ math_asin asin c = Ok (asin c)
        /\ angle_from_displacement asin x a
           = Ok (Float.mul (Float.mul (asin c) (angle_corr a)) f57_296))
  /\ f57_296 = Float.of_decimal false 57296 3
  /\ (forall np st s s' raw it r,
         mode a = Angle ->
         step asin np a st s raw = Ok (s', it) -> sample_of it = Some r ->
         exists g, angle_from_displacement asin (rec_x_nm r) a = Ok g
                   /\ rec_angle_deg r = Some g).
Proof.
  split; [|split; [|split; [reflexivity|]]].
  - intros Hz. unfold angle_from_displacement, Float.truediv. fold f0.
    rewrite Hz. auto.
  - intros Hz. exists (Float.div x (angle_norm_nm a)),
                      (clamp (Float.div x (angle_norm_nm a)) fm1 f1).
    destruct (clamp_clamped (Float.div x (angle_norm_nm a))) as [Hnum Hnan].
    split; [unfold Float.truediv; fold f0; rewrite Hz; reflexivity|].
    split; [reflexivity|]. split; [reflexivity|].
    split; [exact Hnum|]. split; [exact Hnan|].
    split; [unfold math_asin; rewrite clamp_in_domain; reflexivity|].
    rewrite angle_from_displacement_value, Hz. reflexivity.
  - intros np st s s' raw it r Hmode Hstep Hr.
    destruct (step_sample _ _ _ _ _ _ _ _ _ Hstep Hr) as (toks & Hp).
    destruct (process_sample _ _ _ _ _ _ _ _ _ Hp) as (s1 & r' & Hs & Hr' & _).
    assert (r' = r) by congruence. subst r'.
    destruct (sample_fields _ _ _ _ _ _ _ _ _ Hs) as (_ & _ & _ & _ & Hang).
    rewrite Hmode in Hang. exact Hang.
Qed.

End AngleMode.

(** Normalization length 2, correction 1, the stand-in arcsine: the
    displacement 5 gives the quotient 2.5, limited to 1, hence 57.296;
    -5 gives -57.296; 1 gives the quotient 0.5 itself, hence 28.648; and
    with the length 0 the angle is 0.0. *)
Lemma angle_from_displacement_total_witness :
  let a := with_angle default_args (fl 2) f1 in
  angle_from_displacement asin_probe (fl 5) a = Ok f57_296
  /\ angle_from_displacement asin_probe (fl (-5)) a
     = Ok (Float.of_decimal true 57296 3)
  /\ angle_from_displacement asin_probe (fl 1) a
     = Ok (Float.of_decimal false 28648 3)
  /\ angle_from_displacement asin_probe (fl 5) (with_angle default_args f0 f1) = Ok f0
  /\ exists c, clamped fm1 f1 (Float.div (fl 5) (fl 2)) c /\ c = f1.
Proof.
  cbv zeta.
  pose proof (angle_from_displacement_total asin_probe (fl 5)
                (with_angle default_args (fl 2) f1)) as (_ & H5 & _).
  destruct (H5 eq_refl) as (q & c & _ & -> & Hc & Hcl & _ & _ & Hv).
  pose proof (angle_from_displacement_total asin_probe (fl (-5))
                (with_angle default_args (fl 2) f1)) as (_ & Hm5 & _).
  destruct (Hm5 eq_refl) as (q' & c' & _ & -> & Hc' & _ & _ & _ & Hv').
  pose proof (angle_from_displacement_total asin_probe (fl 1)
                (with_angle default_args (fl 2) f1)) as (_ & H1 & _).
  destruct (H1 eq_refl) as (q1 & c1 & _ & -> & Hc1 & _ & _ & _ & Hv1).
  pose proof (angle_from_displacement_total asin_probe (fl 5)
                (with_angle default_args f0 f1)) as (H0 & _).
  destruct (H0 eq_refl) as (Hz & _).
  split; [rewrite Hv, Hc; vm_compute; reflexivity|].
  split; [rewrite Hv', Hc'; vm_compute; reflexivity|].
  split; [rewrite Hv1, Hc1; vm_compute; reflexivity|].
  split; [exact Hz|].
  exists c. split; [apply Hcl; reflexivity | rewrite Hc; vm_compute; reflexivity].
Defined.

(** ** Headers and primary counts, line by line *)


Lemma to_int_truncate (x : float) :
  Float.is_finite x = true -> Float.to_int x = Ok (truncate x).
Proof.
  destruct x as [s| |  |s m e]; cbn [Float.is_finite]; intros H; try discriminate.
  - reflexivity.
  - cbn [Float.to_int truncate]. f_equal.
    destruct e as [|p|p].
    + rewrite Z.shiftl_0_r. cbn. destruct s; cbn; lia.
    + rewrite Z.shiftl_mul_pow2 by lia. destruct s; cbn [cond_Zopp]; lia.
    + change (Z.shiftl (Zpos m) (Zneg p)) with (Z.shiftr (Zpos m) (Zpos p)).
      rewrite Z.shiftr_div_pow2 by lia.
      rewrite <- Z.quot_div_nonneg by lia.
      destruct s; cbn [cond_Zopp]; [|reflexivity].
      change (Z.neg m) with (- Zpos m). rewrite Z.quot_opp_l; [reflexivity|].
      apply Z.pow_nonzero; lia.
Qed.

Section LineFacts.

Variable asin : float -> float.
Variable numpy_available : bool.
Variable a : Args.
Variable step_nm_per_count : float.

Local Abbreviation process_ := (process asin numpy_available a step_nm_per_count).
Local Abbreviation step_ := (step asin numpy_available a step_nm_per_count).

(** A header line: the frequency is replaced when the value is truthy, and
    the line is passed over otherwise. *)
Lemma header_step (s : State) (raw : string) (f : float) :
  maybe_extract_fs (strip raw) = Some f ->
  step_ s raw = Ok (if Float.truthy f then (with_fs_hz s f, Header) else (s, NoCount)).
Proof.
  intros H. unfold step.
  destruct (String.eqb_spec (strip raw) "") as [He|_].
  { rewrite He in H. discriminate H. }
  rewrite H, (header_no_tokens _ _ H).
  destruct (Float.truthy f); reflexivity.
Qed.

(** A line with a primary token goes on to [process] with [int] of it. *)
Lemma primary_step (s : State) (raw : string) (v : pyval) :
  primary_token (parse_line_tokens (strip raw)) = Some v ->
  step_ s raw =
  (do D <- py_int v; process_ s (parse_line_tokens (strip raw)) D).
Proof.
  intros H. unfold step.
  destruct (String.eqb_spec (strip raw) "") as [He|_].
  { rewrite He in H. discriminate H. }
  destruct (maybe_extract_fs (strip raw)) as [f|] eqn:Hf.
  { rewrite (header_no_tokens _ _ Hf) in H. discriminate H. }
  rewrite H. reflexivity.
Qed.

End LineFacts.

(** ** The prologue: opening the log *)

(** With a log configured, [os.path.exists] is reached and [os] is not
    bound: the run ends there, before the log is opened or a line read. *)
Lemma open_log_raises (a : Args) (w : World) (path : string) :
  log a = Some path -> path <> "" ->
  open_log a w = Raise (NameError "os").
Proof.
  intros Hl Hp. unfold open_log. rewrite Hl.
  destruct (String.eqb_spec path "") as [->|_]; [congruence|]. reflexivity.
Qed.

(** The prologue builds the locals of [init], unless the bound of the
    moving-average buffer does not fit a C [ssize_t]. *)
Lemma start_spec (a : Args) :
  start a = if ma_window a >? PY_SSIZE_T_MAX then Raise OverflowError else Ok (init a).
Proof.
  unfold start, init, deque_new, PY_SSIZE_T_MAX.
  destruct (Z.gtb_spec (ma_window a) 0) as [Hw|Hw].
  - destruct (Z.gtb_spec (ma_window a) (2 ^ 63 - 1)) as [Hb|Hb]; cbn [orb bind];
      [reflexivity|].
    destruct (Z.ltb_spec (ma_window a) (- (2 ^ 63 - 1) - 1)); [lia|]. cbn [bind].
    destruct (Z.ltb_spec (ma_window a) 0); [lia|]. reflexivity.
  - destruct (Z.gtb_spec (ma_window a) (2 ^ 63 - 1)) as [Hb|Hb]; [lia|]. reflexivity.
Qed.

Lemma main_log_raises (asin : float -> float) (np : bool) (a : Args) (w : World)
      (source : list string) (path : string) (st : float) :
  log a = Some path -> path <> "" -> compute_step_nm a = Ok st ->
  ma_window a <= PY_SSIZE_T_MAX ->
  main asin np a w source = (w, Some (NameError "os")).
Proof.
  intros Hl Hp Hs Hw. unfold main.
  rewrite Hs, start_spec.
  destruct (Z.gtb_spec (ma_window a) PY_SSIZE_T_MAX); [lia|].
  rewrite (open_log_raises _ _ _ Hl Hp). reflexivity.
Qed.

(** ** Concrete runs *)


Lemma default_step_ok : compute_step_nm default_args = Ok default_step.
Proof. vm_compute. reflexivity. Qed.

(** C1. Spectral analysis on with window 4 and interval 2, numpy present:
    the first sample is forwarded, and the buffer stays empty; the value
    is appended only for a counter that is a multiple of the interval. *)
Theorem spectral_buffer_misses_sample :
  let a := with_fft default_args 4 2 in
  exists s' r,
    step no_asin true a default_step (init a) "D:1" = Ok (s', Forwarded r None)
    /\ emitted s' = 1
    /\ fft_buf s' = []
    /\ fft_buf s' <> fft_buf (init a) ++ [rec_x_nm r].
Proof.
  cbv zeta. eexists _, _. split; [vm_compute; reflexivity|].
  split; [reflexivity|]. split; [reflexivity|]. discriminate.
Qed.

(** C2. With [--log run.csv] the run ends in [NameError: name 'os' is not
    defined] before anything is opened or written, whether or not the
    file exists. *)
Theorem log_configured_raises_name_error :
  let a := with_log default_args "run.csv" in
  main no_asin true a empty_world ["D:1"] = (empty_world, Some (NameError "os"))
  /\ (let w := {| stdout := []; files := {["run.csv" := [HeaderRow]]} |} in
      main no_asin true a w ["D:1"] = (w, Some (NameError "os"))).
Proof.
  cbv zeta. split.
  - apply (main_log_raises _ _ _ _ _ "run.csv" default_step);
      [reflexivity | discriminate | vm_compute; reflexivity | discriminate].
  - apply (main_log_raises _ _ _ _ _ "run.csv" default_step);
      [reflexivity | discriminate | vm_compute; reflexivity | discriminate].
Qed.

(** C3. A header whose number is 0 is not applied: with the frequency at
    500 Hz, the line "Sample Frequency = 0 Hz" leaves it at 500 and the
    next sample reports 500, not the 1000 an overwrite with 0 would lead
    to. *)
Theorem zero_header_not_applied :
  let a := default_args in
  let s := with_fs_hz (init a) (fl 500) in
  maybe_extract_fs "Sample Frequency = 0 Hz" = Some f0
  /\ step no_asin true a default_step s "Sample Frequency = 0 Hz" = Ok (s, NoCount)
  /\ exists s' r,
       run no_asin true a default_step (init a)
           ["Sample Frequency = 500 Hz"; "Sample Frequency = 0 Hz"; "D:1"]
       = (s', [Header; NoCount; Forwarded r None], None)
       /\ rec_fs_hz r = fl 500.
Proof.
  cbv zeta. split; [vm_compute; reflexivity|]. split.
  - rewrite (header_step _ _ _ _ _ _ f0); [reflexivity | vm_compute; reflexivity].
  - eexists _, _. split; [vm_compute; reflexivity | vm_compute; reflexivity].
Qed.


(** C5, as stated, fails where the arithmetic leaves the finite floats:
    with [--stepnm inf] the first sample has step 0.0 * inf, so its
    velocity is NaN; and after a header whose number overflows to inf the
    first velocity is 0.0 * inf = NaN as well. The count delta is 0 in
    both runs. *)
Lemma first_sample_velocity_nan :
  (let a := with_scaling default_args (S754_infinity false) f0 f1 in
   compute_step_nm a = Ok (S754_infinity false)
   /\ exists s' r,
        run no_asin true a (S754_infinity false) (init a) ["D:5"]
        = (s', [Forwarded r None], None)
        /\ rec_deltaD r = 0
        /\ rec_v_nm_s r = S754_nan
        /\ Float.eqb (rec_v_nm_s r) f0 = false)
  /\ (let header :=
        String.append "Sample Frequency = " (String.append huge_numeral " Hz") in
      exists s' r,
        run no_asin true default_args default_step (init default_args)
            [header; "D:5"]
        = (s', [Header; Forwarded r None], None)
        /\ rec_deltaD r = 0
        /\ rec_fs_hz r = S754_infinity false
        /\ rec_v_nm_s r = S754_nan
        /\ Float.eqb (rec_v_nm_s r) f0 = false).
Proof.
  cbv zeta. split.
  - split; [reflexivity|]. eexists _, _.
    split; [vm_compute; reflexivity|]. repeat split; reflexivity.
  - eexists _, _.
    split; [vm_compute; reflexivity|]. repeat split; reflexivity.
Qed.

(** C10, as stated, fails for a numeral beyond the finite floats: the
    token of "D:1000...0.0" (310 digits before the point) is parsed as a
    float, which is inf, and [int] of it raises [OverflowError]; the line
    is neither a sample nor skipped. *)
Lemma huge_decimal_raises :
  let line := String.append "D:" (String.append huge_numeral ".0") in
  primary_token (parse_line_tokens line) = Some (PyFloat (S754_infinity false))
  /\ step no_asin true default_args default_step (init default_args) line
     = Raise OverflowError
  /\ run no_asin true default_args default_step (init default_args) [line; "D:1"]
     = (init default_args, [], Some OverflowError).
Proof.
  cbv zeta. split; [vm_compute; reflexivity|].
  split; vm_compute; reflexivity.
Qed.

(** ** The theorems at concrete inputs *)

(** Baseline 100, step 1, multiplier 2: after D:0 the displacement is
    (100 + 0) * 2 = 200, and D:1 makes it (200 + 1) * 2 = 402; the
    multiplier has scaled the baseline twice. *)
Lemma cumulative_recurrence_witness :
  let a := with_scaling default_args (fl 1) (fl 100) (fl 2) in
  exists s1 s2 it1 it2 r,
    step no_asin true a (fl 1) (init a) "D:0" = Ok (s1, it1)
    /\ step no_asin true a (fl 1) s1 "D:1" = Ok (s2, it2)
    /\ sample_of it2 = Some r
    /\ x_nm s1 = fl 200
    /\ x_nm s2 = fl 402
    /\ exists fdD,
         rec_deltaD r = count_delta (prevD s1) (rec_D r)
         /\ Float.of_int (rec_deltaD r) = Ok fdD
         /\ x_nm s2 = Float.mul (Float.add (x_nm s1) (Float.mul (fl 1) fdD))
                                (straight_mult a)
         /\ rec_x_nm r = x_nm s2.
Proof.
  cbv zeta. eexists _, _, _, _, _.
  split; [vm_compute; reflexivity|].
  match goal with
  | |- ?A /\ ?B /\ _ =>
      assert (H1 : A) by (vm_compute; reflexivity);
      assert (H2 : B) by reflexivity
  end.
  split; [exact H1|]. split; [exact H2|].
  split; [reflexivity|]. split; [reflexivity|].
  exact (proj2 (proj2 (cumulative_recurrence no_asin true _ (fl 1))) _ _ _ _ _ H1 H2).
Defined.

(** A comment line, then D:7 and D:9 under the default configuration: the
    sample of D:7 has count delta 0 and velocity 0.0. With [--stepnm nan]
    and with [--stepnm -inf] the first velocity is NaN. *)
Lemma first_sample_zero_witness :
  (exists s' its e r,
      run no_asin true default_args default_step (init default_args)
          ["# start"; "D:7 N:1"; "D:9 N:2"] = (s', its, e)
      /\ head (samples its) = Some r
      /\ rec_D r = 7
      /\ rec_deltaD r = 0
      /\ Float.eqb (rec_v_nm_s r) f0 = true)
  /\ (exists s' its e r,
         run no_asin true (with_scaling default_args S754_nan f0 f1) S754_nan
             (init (with_scaling default_args S754_nan f0 f1)) ["D:7"] = (s', its, e)
         /\ head (samples its) = Some r
         /\ rec_deltaD r = 0
         /\ is_nan (rec_v_nm_s r) = true)
  /\ (exists s' its e r,
         run no_asin true (with_scaling default_args (S754_infinity true) f0 f1)
             (S754_infinity true)
             (init (with_scaling default_args (S754_infinity true) f0 f1)) ["D:7"]
         = (s', its, e)
         /\ head (samples its) = Some r
         /\ rec_deltaD r = 0
         /\ is_nan (rec_v_nm_s r) = true).
Proof.
  split; [|split].
  - eexists _, _, _, _.
    match goal with
    | |- ?A /\ ?B /\ _ =>
        assert (H1 : A) by (vm_compute; reflexivity);
        assert (H2 : B) by reflexivity
    end.
    split; [exact H1|]. split; [exact H2|]. split; [reflexivity|].
    destruct (first_sample_zero no_asin true _ _ _ _ _ _ _ H1 H2) as (Hd & Hv & _).
    split; [exact Hd | apply Hv; reflexivity].
  - eexists _, _, _, _.
    match goal with
    | |- ?A /\ ?B /\ _ =>
        assert (H1 : A) by (vm_compute; reflexivity);
        assert (H2 : B) by reflexivity
    end.
    split; [exact H1|]. split; [exact H2|].
    destruct (first_sample_zero no_asin true _ _ _ _ _ _ _ H1 H2) as (Hd & _ & Hn).
    split; [exact Hd | apply Hn; left; reflexivity].
  - eexists _, _, _, _.
    match goal with
    | |- ?A /\ ?B /\ _ =>
        assert (H1 : A) by (vm_compute; reflexivity);
        assert (H2 : B) by reflexivity
    end.
    split; [exact H1|]. split; [exact H2|].
    destruct (first_sample_zero no_asin true _ _ _ _ _ _ _ H1 H2) as (Hd & _ & Hn).
    split; [exact Hd | apply Hn; left; reflexivity].
Defined.

(** On-step mode with factor 3: the counts 0..7 give 7 nonzero deltas and
    2 forwarded records. *)
Lemma emission_policy_witness :
  let a := with_policy default_args OnStep 3 0 in
  exists s' its e,
    run no_asin true a default_step (init a)
        ["D:0"; "D:1"; "D:2"; "D:3"; "D:4"; "D:5"; "D:6"; "D:7"] = (s', its, e)
    /\ length (samples its) = 8%nat
    /\ counted a its = 7
    /\ emitted s' = 7
    /\ forwarded_count its = 2.
Proof.
  cbv zeta. eexists _, _, _.
  match goal with
  | |- ?A /\ _ => assert (H1 : A) by (vm_compute; reflexivity)
  end.
  split; [exact H1|]. split; [reflexivity|]. split; [reflexivity|].
  destruct (proj2 (emission_policy no_asin true _ default_step) _ _ _ _ H1)
    as (He & _ & H37).
  split; [exact He | apply H37; reflexivity].
Defined.

(** Window 3 over the displacements 2, 4, 6, 8: the history ends as
    4, 6, 8 and the fourth sample reports their mean, 6. *)
Lemma moving_average_history_witness :
  let a := with_policy (with_scaling default_args (fl 2) (fl 2) (fl 1)) Every 1 3 in
  exists s' its e r,
    run no_asin true a (fl 2) (init a) ["D:0"; "D:1"; "D:2"; "D:3"] = (s', its, e)
    /\ samples its !! 3%nat = Some r
    /\ xs_of its = [fl 2; fl 4; fl 6; fl 8]
    /\ items (ma_buf s') = [fl 4; fl 6; fl 8]
    /\ rec_x_nm_ma r = Some (fl 6)
    /\ items (ma_buf s') = last_n (ma_window a) (xs_of its)
    /\ Z.of_nat (length (items (ma_buf s'))) <= ma_window a.
Proof.
  cbv zeta. eexists _, _, _, _.
  match goal with
  | |- ?A /\ ?B /\ _ =>
      assert (H1 : A) by (vm_compute; reflexivity);
      assert (H2 : B) by reflexivity
  end.
  split; [exact H1|]. split; [exact H2|].
  split; [reflexivity|]. split; [reflexivity|]. split; [reflexivity|].
  assert (Hw : 0 < ma_window
                    (with_policy (with_scaling default_args (fl 2) (fl 2) (fl 1))
                                 Every 1 3)) by reflexivity.
  destruct (moving_average_history no_asin true _ (fl 2) _ _ _ _ Hw H1)
    as (Hi & _ & Hle & _).
  split; [exact Hi | exact Hle].
Defined.

(** A line with REF and MEAS tokens only, met at 500 Hz: the state stays
    as it was. *)
Lemma no_primary_count_skipped_witness :
  let s := with_fs_hz (init default_args) (fl 500) in
  maybe_extract_fs (strip " REF:5 MEAS:7 ") = None
  /\ parse_line_tokens (strip " REF:5 MEAS:7 ") !! "REF" = Some (PyInt 5)
  /\ exists it,
       step no_asin true default_args default_step s " REF:5 MEAS:7 " = Ok (s, it)
       /\ sample_of it = None
       /\ forall log_path w, write_iteration default_args log_path w it = w.
Proof.
  cbv zeta. split; [reflexivity|]. split; [vm_compute; reflexivity|].
  apply no_primary_count_skipped; vm_compute; reflexivity.
Defined.

(** ** A sample is computed whenever its conversions succeed *)

Lemma deque_append_maxlen (d : deque) (x : float) :
  maxlen (deque_append d x) = maxlen d.
Proof. reflexivity. Qed.

Lemma fold_append_maxlen (l : list float) :
  forall d, maxlen (fold_left deque_append l d) = maxlen d.
Proof.
  induction l as [|x l IH]; intros d; [reflexivity|].
  cbn [fold_left]. rewrite IH. apply deque_append_maxlen.
Qed.

(** The constructor accepts the bounds from 0 to [PY_SSIZE_T_MAX]; a
    positive bound beyond raises [OverflowError]. *)
Lemma deque_new_ok (m : Z) :
  0 <= m <= PY_SSIZE_T_MAX -> deque_new m = Ok {| items := []; maxlen := m |}.
Proof.
  intros Hm. unfold deque_new, PY_SSIZE_T_MAX in *.
  destruct (Z.gtb_spec m (2 ^ 63 - 1)); [lia|].
  destruct (Z.ltb_spec m (- (2 ^ 63 - 1) - 1)); [lia|]. cbn [orb].
  destruct (Z.ltb_spec m 0); [lia | reflexivity].
Qed.

Lemma deque_new_raises (m : Z) (e : exn) :
  0 <= m -> deque_new m = Raise e -> e = OverflowError /\ PY_SSIZE_T_MAX < m.
Proof.
  intros Hm. unfold deque_new.
  destruct (Z.gtb_spec m PY_SSIZE_T_MAX) as [Hb|Hb]; cbn [orb].
  - intros H. injection H as <-. auto.
  - destruct (Z.ltb_spec m (- PY_SSIZE_T_MAX - 1)) as [Hl|_];
      [unfold PY_SSIZE_T_MAX in Hl; lia|].
    destruct (Z.ltb_spec m 0); [lia | discriminate].
Qed.

Lemma deque_of_ok (l : list float) (m : Z) :
  0 <= m <= PY_SSIZE_T_MAX ->
  deque_of l m = Ok (fold_left deque_append l {| items := []; maxlen := m |}).
Proof. intros Hm. unfold deque_of. rewrite (deque_new_ok _ Hm). reflexivity. Qed.

Lemma deque_of_maxlen (l : list float) (m : Z) (d : deque) :
  deque_of l m = Ok d -> maxlen d = m.
Proof.
  unfold deque_of, deque_new.
  destruct (_ || _); [discriminate|]. destruct (m <? 0); [discriminate|].
  cbn [bind]. intros H. injection H as <-. apply fold_append_maxlen.
Qed.

Lemma deque_append_nonempty (d : deque) (x : float) :
  0 < maxlen d -> items (deque_append d x) <> [].
Proof.
  intros Hm. unfold deque_append. cbn [items].
  destruct (Z.gtb_spec (Z.of_nat (length (items d ++ [x]))) (maxlen d)) as [Hgt|_].
  - destruct (items d) as [|y [|z t]]; cbn in *; [lia | discriminate | discriminate].
  - destruct (items d); discriminate.
Qed.

(** The moving-average block raises only when it has to re-bound the
    buffer to a window beyond [PY_SSIZE_T_MAX]; the buffer it divides by
    is never empty. *)
Lemma ma_update_cases (a : Args) (buf : deque) (x : float) :
  (exists r, ma_update a buf x = Ok r)
  \/ (ma_update a buf x = Raise OverflowError
      /\ PY_SSIZE_T_MAX < ma_window a /\ maxlen buf <> ma_window a).
Proof.
  unfold ma_update.
  destruct (Z.gtb_spec (ma_window a) 0) as [Hw|_]; [|eauto].
  assert (Hmean : forall buf1, maxlen buf1 = ma_window a ->
            exists r, (do m <- mean (items (deque_append buf1 x));
                       Ok (deque_append buf1 x, Some m)) = Ok r).
  { intros buf1 Hm. rewrite (mean_nonempty (items (deque_append buf1 x))).
    - cbn [bind]. eauto.
    - apply deque_append_nonempty. lia. }
  destruct (Z.eqb_spec (maxlen buf) (ma_window a)) as [He|Hne]; cbn [negb bind].
  - left. apply (Hmean buf He).
  - destruct (deque_of (items buf) (ma_window a)) as [buf1|e] eqn:Hd; cbn [bind].
    + left. apply (Hmean buf1 (deque_of_maxlen _ _ _ Hd)).
    + right. unfold deque_of in Hd.
      destruct (deque_new (ma_window a)) as [d|e0] eqn:Hn; cbn [bind] in Hd;
        [discriminate Hd|].
      injection Hd as <-.
      destruct (deque_new_raises (ma_window a) e0 ltac:(lia) Hn) as [-> Hb]. auto.
Qed.

Lemma ma_update_total (a : Args) (buf : deque) (x : float) :
  maxlen buf = ma_window a \/ ma_window a <= PY_SSIZE_T_MAX ->
  exists r, ma_update a buf x = Ok r.
Proof.
  intros H. destruct (ma_update_cases a buf x) as [Hok|(_ & Hb & Hne)]; [exact Hok|].
  destruct H; [contradiction | lia].
Qed.

Lemma sample_total (asin : float -> float) (a : Args) (st : float)
      (s : State) (toks : gmap string pyval) (D N : Z) (x2 y2 : option float)
      (fdD : float) :
  py_int (default (PyInt 0) (toks !! "N")) = Ok N ->
  second_channel a toks "X" = Ok x2 ->
  second_channel a toks "Y" = Ok y2 ->
  Float.of_int (count_delta (prevD s) D) = Ok fdD ->
  maxlen (ma_buf s) = ma_window a \/ ma_window a <= PY_SSIZE_T_MAX ->
  exists s1 r keep, sample asin a st s toks D = Ok (s1, r, keep).
Proof.
  intros HN HX HY HD Hma. unfold sample.
  rewrite HN, HX, HY, HD. cbn [bind].
  destruct (ema_update _ _ _) as [ema' x_ema].
  destruct (ma_update_total a (ma_buf s)
              (Float.mul (Float.add (x_nm s) (Float.mul st fdD)) (straight_mult a)) Hma)
    as ([buf' x_ma] & ->).
  cbn [bind].
  assert (Hang : exists g,
             match mode a with
             | Angle =>
                 do g <- angle_from_displacement asin
                           (Float.mul (Float.add (x_nm s) (Float.mul st fdD))
                                      (straight_mult a)) a;
                 Ok (Some g)
             | Displacement => Ok None
             end = Ok g).
  { destruct (mode a); [eauto|].
    rewrite angle_from_displacement_value. cbn [bind]. eauto. }
  destruct Hang as (g & ->). cbn [bind].
  destruct (emission _ _ _) as [count' keep]. eauto.
Qed.

(** ** Reading from a serial device *)

Lemma has_newline_cons (c : ascii) (t : list ascii) :
  has_newline (c :: t) = Ascii.eqb newline c || has_newline t.
Proof. reflexivity. Qed.

Lemma split_first_spec (buf : list ascii) :
  has_newline buf = true ->
  buf = fst (split_first buf) ++ newline :: snd (split_first buf)
  /\ has_newline (fst (split_first buf)) = false.
Proof.
  induction buf as [|c t IH]; cbn [has_newline existsb split_first]; [discriminate|].
  rewrite Ascii.eqb_sym.
  destruct (Ascii.eqb_spec c newline) as [->|Hne]; cbn [orb fst snd].
  - intros _. split; reflexivity.
  - intros Ht. destruct (IH Ht) as [Heq Hno].
    destruct (split_first t) as [line rest]. cbn [fst snd] in *.
    split; [cbn; f_equal; exact Heq|].
    cbn [has_newline existsb]. rewrite Ascii.eqb_sym.
    destruct (Ascii.eqb_spec c newline); [contradiction|]. exact Hno.
Qed.

Lemma drain_spec (fuel : nat) (buf : list ascii) :
  (length buf <= fuel)%nat ->
  unsplit (fst (drain fuel buf)) (snd (drain fuel buf)) = buf
  /\ Forall (fun l => has_newline l = false) (fst (drain fuel buf))
  /\ has_newline (snd (drain fuel buf)) = false.
Proof.
  revert buf. induction fuel as [|fuel IH]; intros buf Hlen.
  - destruct buf; [|cbn in Hlen; lia]. cbn. auto.
  - cbn [drain]. destruct (has_newline buf) eqn:Hn.
    + destruct (split_first_spec buf Hn) as [Heq Hno].
      destruct (split_first buf) as [line rest]. cbn [fst snd] in *.
      assert (Hrest : (length rest <= fuel)%nat).
      { apply (f_equal length) in Heq. rewrite length_app in Heq. cbn in Heq. lia. }
      destruct (IH rest Hrest) as (Hu & Hall & Hb).
      destruct (drain fuel rest) as [lines buf']. cbn [fst snd] in *.
      split; [|split; [constructor; assumption | exact Hb]].
      unfold unsplit in *. cbn [map concat].
      rewrite <- !app_assoc. cbn [app]. rewrite Hu. symmetry. exact Heq.
    + cbn. unfold unsplit. cbn. auto.
Qed.

Lemma serial_lines_spec (reads : list (list ascii)) :
  forall buf,
    has_newline buf = false ->
    unsplit (fst (serial_lines buf reads)) (snd (serial_lines buf reads))
    = buf ++ concat reads
    /\ Forall (fun l => has_newline l = false) (fst (serial_lines buf reads))
    /\ has_newline (snd (serial_lines buf reads)) = false.
Proof.
  induction reads as [|chunk reads IH]; intros buf Hbuf.
  - cbn. unfold unsplit. cbn. rewrite app_nil_r. auto.
  - cbn [serial_lines concat].
    assert (Hread : unsplit (fst (on_read buf chunk)) (snd (on_read buf chunk))
                    = buf ++ chunk
                    /\ Forall (fun l => has_newline l = false) (fst (on_read buf chunk))
                    /\ has_newline (snd (on_read buf chunk)) = false).
    { unfold on_read. destruct chunk as [|c chunk].
      - cbn. unfold unsplit. cbn. rewrite app_nil_r. auto.
      - apply drain_spec. lia. }
    destruct Hread as (Hu1 & Hall1 & Hb1).
    destruct (on_read buf chunk) as [lines buf1]. cbn [fst snd] in *.
    destruct (IH buf1 Hb1) as (Hu2 & Hall2 & Hb2).
    destruct (serial_lines buf1 reads) as [lines' buf2]. cbn [fst snd] in *.
    split; [|split; [apply Forall_app; auto | exact Hb2]].
    unfold unsplit in *. rewrite map_app, concat_app, <- app_assoc, Hu2.
    rewrite app_assoc, Hu1, <- app_assoc. reflexivity.
Qed.

(** A byte string splits in one way only into newline-free lines, each
    followed by a newline, and a newline-free rest. *)
Lemma unsplit_inj (l1 : list (list ascii)) :
  forall l2 r1 r2,
    Forall (fun l => has_newline l = false) l1 ->
    Forall (fun l => has_newline l = false) l2 ->
    has_newline r1 = false -> has_newline r2 = false ->
    unsplit l1 r1 = unsplit l2 r2 -> l1 = l2 /\ r1 = r2.
Proof.
  assert (Hhead : forall (a b : list ascii) (x y : list ascii),
             has_newline a = false -> has_newline b = false ->
             a ++ newline :: x = b ++ newline :: y -> a = b /\ x = y).
  { induction a as [|c a IHa]; intros [|d b] x y Ha Hb H; cbn [app] in H.
    - injection H as <-. auto.
    - injection H as Hd _. subst d. rewrite has_newline_cons, Ascii.eqb_refl in Hb.
      discriminate.
    - injection H as Hc _. subst c. rewrite has_newline_cons, Ascii.eqb_refl in Ha.
      discriminate.
    - injection H as -> H. rewrite has_newline_cons in Ha, Hb.
      apply orb_false_elim in Ha as [_ Ha]. apply orb_false_elim in Hb as [_ Hb].
      destruct (IHa _ _ _ Ha Hb H) as [-> ->]. auto. }
  assert (Hmix : forall (a r x : list ascii),
             has_newline r = false -> a ++ newline :: x <> r).
  { intros a r x Hr H. subst r. unfold has_newline in Hr.
    rewrite existsb_app in Hr. cbn [existsb] in Hr. rewrite Ascii.eqb_refl in Hr.
    cbn [orb] in Hr. rewrite orb_true_r in Hr. discriminate. }
  unfold unsplit.
  induction l1 as [|a l1 IH]; intros [|b l2] r1 r2 H1 H2 Hr1 Hr2 H; cbn [map concat app] in H.
  - auto.
  - exfalso. rewrite <- !app_assoc in H. cbn [app] in H. symmetry in H.
    exact (Hmix _ _ _ Hr1 H).
  - exfalso. rewrite <- !app_assoc in H. cbn [app] in H. exact (Hmix _ _ _ Hr2 H).
  - rewrite <- !app_assoc in H. cbn [app] in H.
    inversion H1 as [|? ? Ha H1']; inversion H2 as [|? ? Hb H2']; subst.
    destruct (Hhead _ _ _ _ Ha Hb H) as [-> Hrest].
    destruct (IH _ _ _ H1' H2' Hr1 Hr2 Hrest) as [-> ->]. auto.
Qed.

(** The newlines of a byte string cut as lines and a rest: one per line. *)
Lemma newlines_unsplit (lines : list (list ascii)) (rest : list ascii) :
  Forall (fun l => has_newline l = false) lines ->
  has_newline rest = false ->
  length (List.filter (Ascii.eqb newline) (unsplit lines rest)) = length lines.
Proof.
  assert (Hfree : forall l, has_newline l = false ->
                            List.filter (Ascii.eqb newline) l = []).
  { induction l as [|c l IH]; [reflexivity|].
    rewrite has_newline_cons. intros H. apply orb_false_elim in H as [Hc Hl].
    cbn [List.filter]. rewrite Hc. apply IH, Hl. }
  intros Hl Hr. unfold unsplit. rewrite List.filter_app, (Hfree _ Hr), app_nil_r.
  induction Hl as [|l lines Hn _ IH]; [reflexivity|].
  cbn [map concat]. rewrite !List.filter_app, (Hfree _ Hn). cbn [List.filter app].
  rewrite Ascii.eqb_refl. cbn [length app]. rewrite IH. reflexivity.
Qed.

(** X1. Over any sequence of reads, the byte lines the generator splits
    off, as they are before decoding, each with its newline put back and
    followed by the bytes still buffered, are exactly the bytes read:
    nothing is lost, duplicated or reordered, and no byte line and no
    buffered rest holds a newline. The generator yields one string per
    newline read, the decoding of the byte line that ends there, and the
    strings yielded do not depend on where the reads cut the stream. *)
Theorem serial_lines_reassemble :
  (forall reads,
      unsplit (fst (serial_lines [] reads)) (snd (serial_lines [] reads))
      = concat reads
      /\ Forall (fun l => has_newline l = false) (fst (serial_lines [] reads))
      /\ has_newline (snd (serial_lines [] reads)) = false)
  /\ (forall decode reads,
         length (iter_lines_serial decode reads)
         = length (List.filter (Ascii.eqb newline) (concat reads)))
  /\ (forall decode reads1 reads2,
         concat reads1 = concat reads2 ->
         iter_lines_serial decode reads1 = iter_lines_serial decode reads2
         /\ snd (serial_lines [] reads1) = snd (serial_lines [] reads2)).
Proof.
  split; [|split].
  - intros reads. apply (serial_lines_spec reads []). reflexivity.
  - intros decode reads.
    destruct (serial_lines_spec reads [] eq_refl) as (Hu & Ha & Hb).
    cbn [app] in Hu. unfold iter_lines_serial.
    rewrite length_map, <- Hu. symmetry. apply (newlines_unsplit _ _ Ha Hb).
  - intros decode reads1 reads2 Hc.
    destruct (serial_lines_spec reads1 [] eq_refl) as (Hu1 & Ha1 & Hb1).
    destruct (serial_lines_spec reads2 [] eq_refl) as (Hu2 & Ha2 & Hb2).
    cbn [app] in Hu1, Hu2.
    destruct (unsplit_inj _ _ _ _ Ha1 Ha2 Hb1 Hb2) as [Hl Hr].
    { rewrite Hu1, Hu2. exact Hc. }
    unfold iter_lines_serial. rewrite Hl. auto.
Qed.

(** ** Rounding keeps the sign and never produces NaN *)

Lemma iter_pos_invariant {A : Type} (P : A -> Prop) (f : A -> A) :
  (forall x, P x -> P (f x)) ->
  forall (p : positive) (x : A), P x -> P (SpecFloat.iter_pos f p x).
Proof.
  intros Hf. induction p as [p IH|p IH|]; intros x Hx; cbn [SpecFloat.iter_pos]; auto.
Qed.

Lemma shr_1_nonneg (r : shr_record) : 0 <= shr_m r -> 0 <= shr_m (shr_1 r).
Proof.
  destruct r as [m b s]. cbn [shr_m]. intros Hm.
  destruct m as [|[p|p|]|p]; cbn; lia.
Qed.

Lemma shr_nonneg (r : shr_record) (e n : Z) :
  0 <= shr_m r -> 0 <= shr_m (fst (shr r e n)).
Proof.
  intros Hr. unfold shr. destruct n as [|p|p]; cbn [fst]; try assumption.
  apply (iter_pos_invariant (fun r => 0 <= shr_m r)); [exact shr_1_nonneg | exact Hr].
Qed.

Lemma shr_fexp_nonneg (m e : Z) (l : location) :
  0 <= m -> 0 <= shr_m (fst (shr_fexp Float.prec Float.emax m e l)).
Proof.
  intros Hm. unfold shr_fexp. apply shr_nonneg.
  destruct l as [|[]]; exact Hm.
Qed.

Lemma binary_round_aux_sign (s : bool) (m e : Z) (l : location) :
  0 <= m -> has_sign s (binary_round_aux Float.prec Float.emax s m e l) = true.
Proof.
  intros Hm. unfold binary_round_aux.
  pose proof (shr_fexp_nonneg m e l Hm) as H1.
  destruct (shr_fexp Float.prec Float.emax m e l) as [mrs' e'].
  cbn [fst] in H1.
  assert (H2 : 0 <= round_nearest_even (shr_m mrs') (loc_of_shr_record mrs')).
  { unfold round_nearest_even.
    destruct (loc_of_shr_record mrs') as [|[]]; try lia.
    destruct (Z.even (shr_m mrs')); lia. }
  pose proof (shr_fexp_nonneg _ e' loc_Exact H2) as H3.
  destruct (shr_fexp Float.prec Float.emax _ e' loc_Exact) as [mrs'' e''].
  cbn [fst] in H3.
  destruct (shr_m mrs'') as [|p|p]; [| |lia].
  - cbn. apply Bool.eqb_reflx.
  - destruct (e'' <=? Float.emax - Float.prec); cbn; apply Bool.eqb_reflx.
Qed.

Lemma of_decimal_sign (neg : bool) (n : Z) (k : N) :
  has_sign neg (Float.of_decimal neg n k) = true.
Proof.
  unfold Float.of_decimal. destruct n as [|m|m]; try apply Bool.eqb_reflx.
  unfold SFdiv.
  destruct (SFdiv_core_binary Float.prec Float.emax (Z.pos m) 0
              (Z.pos (Float.pow10 k)) 0) as [[mz ez] lz] eqn:Hd.
  rewrite xorb_false_r. apply binary_round_aux_sign.
  unfold SFdiv_core_binary in Hd.
  match type of Hd with
  | (let '(q, r) := Z.div_eucl ?a ?b in _) = _ =>
      pose proof (Z_div_mod a b ltac:(lia)) as Hq;
      assert (Ha : 0 <= a); [|destruct (Z.div_eucl a b) as [q r]]
  end.
  { match goal with |- 0 <= match ?sh with _ => _ end =>
      destruct sh; try lia end.
    apply Z.shiftl_nonneg. lia. }
  injection Hd as <- _ _. nia.
Qed.

Lemma has_sign_not_nan (s : bool) (x : float) :
  has_sign s x = true -> is_nan x = false.
Proof. destruct x; cbn; congruence. Qed.

Lemma float_of_str_sign (v : list ascii) (x : float) :
  float_of_str v = Some x -> has_sign (fst (split_sign v)) x = true.
Proof.
  unfold float_of_str. destruct (split_sign v) as [neg body]. cbn [fst].
  destruct (Re.span Re.is_digit body) as [ds rest].
  destruct ds as [|d ds]; [discriminate|].
  destruct rest as [|c fs].
  - intros H. injection H as <-. apply of_decimal_sign.
  - destruct (Ascii.eqb_spec c "."%char) as [->|Hne].
    + destruct (all_digits fs); [|discriminate].
      intros H. injection H as <-. apply of_decimal_sign.
    + intros H. exfalso. revert H. clear -Hne.
      destruct c as [[] [] [] [] [] [] [] []]; try discriminate. congruence.
Qed.

Lemma token_value_not_nan (val : list ascii) (v : pyval) :
  token_value val = Some v -> not_nan_val v = true.
Proof.
  unfold token_value. destruct (has_dot val).
  - destruct (float_of_str val) as [x|] eqn:Hx; [|discriminate].
    intros H. injection H as <-. cbn.
    rewrite (has_sign_not_nan _ _ (float_of_str_sign _ _ Hx)). reflexivity.
  - destruct (int_of_str val); [|discriminate].
    intros H. injection H as <-. reflexivity.
Qed.

(** ** What the tokenizer puts in the dictionary *)

Lemma span_forallb (p : ascii -> bool) (s a b : list ascii) :
  Re.span p s = (a, b) -> forallb p a = true.
Proof.
  revert a b. induction s as [|c s IH]; intros a b H; cbn in H.
  - injection H as <- <-. reflexivity.
  - destruct (p c) eqn:Hc.
    + destruct (Re.span p s) as [a' b'] eqn:Hs. injection H as <- <-.
      cbn. rewrite Hc. apply (IH _ _ eq_refl).
    + injection H as <- <-. reflexivity.
Qed.

Lemma Tok_RE_match_key (s key val rest : list ascii) :
  Re.Tok_RE_match s = Some (key, val, rest) ->
  key <> [] /\ forallb Re.is_alpha key = true.
Proof.
  unfold Re.Tok_RE_match. intros H.
  destruct (Re.span Re.is_alpha s) as [k s1] eqn:H1.
  pose proof (span_forallb _ _ _ _ H1) as Hk.
  destruct k as [|k0 k]; [discriminate|].
  destruct (Re.skip Re.is_space s1) as [|c s2]; [discriminate|].
  destruct (Ascii.eqb_spec c ":"%char) as [->|Hne].
  - destruct (Re.match_value _) as [[v r]|]; [|discriminate].
    injection H as <- _ _. split; [discriminate | exact Hk].
  - exfalso. revert H. clear -Hne.
    destruct c as [[] [] [] [] [] [] [] []]; try discriminate. congruence.
Qed.

Lemma findall_keys (fuel : nat) :
  forall s,
    Forall (fun kv => fst kv <> [] /\ forallb Re.is_alpha (fst kv) = true)
           (Re.findall_from fuel s).
Proof.
  induction fuel as [|fuel IH]; intros s; [constructor|].
  destruct s as [|c s]; [constructor|]. cbn [Re.findall_from].
  destruct (Re.Tok_RE_match (c :: s)) as [[[k v] rest]|] eqn:Hm.
  - constructor; [exact (Tok_RE_match_key _ _ _ _ Hm) | apply IH].
  - apply IH.
Qed.

Lemma upper_alpha (c : ascii) :
  Re.is_alpha c = true -> Re.between 65 90 (Re.upper c) = true.
Proof.
  destruct c as [[] [] [] [] [] [] [] []]; vm_compute; congruence.
Qed.

Lemma upper_key_of (key : list ascii) :
  key <> [] -> forallb Re.is_alpha key = true ->
  upper_key (string_of_list_ascii (map Re.upper key)) = true.
Proof.
  intros Hne Hal. unfold upper_key.
  rewrite list_ascii_of_string_of_list_ascii.
  destruct key as [|c key]; [congruence|].
  cbn [map]. rewrite forallb_forall. intros x Hx.
  change (Re.upper c :: map Re.upper key) with (map Re.upper (c :: key)) in Hx.
  apply in_map_iff in Hx as (y & <- & Hy).
  rewrite forallb_forall in Hal. apply upper_alpha, Hal, Hy.
Qed.

(** Every entry of the dictionary was put there by a match of the token
    pattern whose numeral converted. *)
Lemma parse_line_tokens_entries (P : string -> pyval -> Prop) (line : string) :
  (forall key val v,
      key <> [] -> forallb Re.is_alpha key = true ->
      token_value val = Some v ->
      P (string_of_list_ascii (map Re.upper key)) v) ->
  map_Forall P (parse_line_tokens line).
Proof.
  intros HP. unfold parse_line_tokens, Re.Tok_RE_findall.
  generalize (findall_keys (length (list_ascii_of_string line))
                           (list_ascii_of_string line)).
  generalize (Re.findall_from (length (list_ascii_of_string line))
                              (list_ascii_of_string line)).
  intros l Hl.
  assert (Hacc : map_Forall P (∅ : gmap string pyval)) by apply map_Forall_empty.
  revert Hacc. generalize (∅ : gmap string pyval).
  induction Hl as [|[key val] l [Hne Hal] Hl IH]; intros acc Hacc; cbn [fold_left].
  - exact Hacc.
  - apply IH. cbn [fst] in Hne, Hal.
    destruct (token_value val) as [v|] eqn:Hv; [|exact Hacc].
    apply map_Forall_insert_2; [apply (HP key val v); assumption | exact Hacc].
Qed.

(** X2. Whatever the line, every key of the token dictionary is a
    non-empty run of the capital letters A..Z (keys are matched without
    regard to case and stored in upper case), and no value is NaN. *)
Theorem parse_line_tokens_keys (line k : string) (v : pyval) :
  parse_line_tokens line !! k = Some v ->
  upper_key k = true /\ not_nan_val v = true.
Proof.
  apply (parse_line_tokens_entries
           (fun k v => upper_key k = true /\ not_nan_val v = true)).
  intros key val v' Hne Hal Hv.
  split; [apply upper_key_of; assumption | apply (token_value_not_nan _ _ Hv)].
Qed.

(** The line "d:1 Diff : -2.5 n:7" gives the keys D, DIFF and N. *)
Lemma parse_line_tokens_keys_witness :
  parse_line_tokens "d:1 Diff : -2.5 n:7" !! "DIFF"
  = Some (PyFloat (Float.of_decimal true 25 1))
  /\ parse_line_tokens "d:1 Diff : -2.5 n:7" !! "Diff" = None
  /\ upper_key "DIFF" = true
  /\ not_nan_val (PyFloat (Float.of_decimal true 25 1)) = true.
Proof.
  assert (H : parse_line_tokens "d:1 Diff : -2.5 n:7" !! "DIFF"
              = Some (PyFloat (Float.of_decimal true 25 1)))
    by (vm_compute; reflexivity).
  split; [exact H|]. split; [vm_compute; reflexivity|].
  exact (parse_line_tokens_keys _ _ _ H).
Defined.

(** ** The clamp *)

(** X3. For bounds lo <= hi, [clamp] returns a value between the bounds
    for every number, returns a value already between them unchanged, and
    lets NaN through. *)
Theorem clamp_bounds (val lo hi : float) :
  Float.leb lo hi = true ->
  (is_nan val = false ->
   Float.leb lo (clamp val lo hi) = true /\ Float.leb (clamp val lo hi) hi = true)
  /\ (Float.leb lo val = true -> Float.leb val hi = true -> clamp val lo hi = val)
  /\ (is_nan val = true -> clamp val lo hi = val).
Proof.
  intros Hlh.
  assert (Hn : is_nan lo = false /\ is_nan hi = false).
  { unfold Float.leb, SFleb in Hlh.
    destruct (SFcompare lo hi) as [c|] eqn:Hc; [|discriminate].
    apply (SFcompare_nan _ _ _ Hc). }
  destruct Hn as [Hlo Hhi]. unfold clamp, Float.gtb. fold (Float.ltb hi val).
  split; [|split].
  - intros Hv. destruct (Float.ltb val lo) eqn:H1.
    + split; [apply leb_refl, Hlo | exact Hlh].
    + destruct (Float.ltb hi val) eqn:H2.
      * split; [exact Hlh | apply leb_refl, Hhi].
      * split; [apply not_ltb_leb | apply not_ltb_leb]; assumption.
  - intros H1 H2. rewrite (leb_not_ltb _ _ H1), (leb_not_ltb _ _ H2). reflexivity.
  - intros Hv. destruct val; try discriminate Hv.
    destruct lo, hi; reflexivity.
Qed.

(** The clamp of the angle conversion applied to 2.5 gives 1.0. *)
Lemma clamp_bounds_witness :
  Float.leb fm1 f1 = true
  /\ clamp (Float.of_decimal false 25 1) fm1 f1 = f1
  /\ Float.leb fm1 (clamp (Float.of_decimal false 25 1) fm1 f1) = true
  /\ Float.leb (clamp (Float.of_decimal false 25 1) fm1 f1) f1 = true.
Proof.
  split; [reflexivity|]. split; [reflexivity|].
  exact (proj1 (clamp_bounds (Float.of_decimal false 25 1) fm1 f1 eq_refl) eq_refl).
Defined.

(** ** Invariants of a run: frequency and exceptions *)

Section RunInvariants.

Variable asin : float -> float.
Variable numpy_available : bool.
Variable a : Args.
Variable step_nm_per_count : float.

Local Abbreviation sample_ := (sample asin a step_nm_per_count).
Local Abbreviation process_ := (process asin numpy_available a step_nm_per_count).
Local Abbreviation step_ := (step asin numpy_available a step_nm_per_count).
Local Abbreviation interrupted_ := (interrupted asin numpy_available a step_nm_per_count).
Local Abbreviation iteration_of_ := (iteration_of asin numpy_available a step_nm_per_count).
Local Abbreviation run_ := (run asin numpy_available a step_nm_per_count).

Lemma gtb_not_nan (x y : float) : Float.gtb x y = true -> is_nan x = false.
Proof.
  unfold Float.gtb, SFltb. destruct (SFcompare y x) as [c|] eqn:Hc; [|discriminate].
  intros _. apply (SFcompare_nan _ _ _ Hc).
Qed.

Lemma effective_fs_positive (f : float) :
  is_nan f = false -> Float.gtb (effective_fs f) f0 = true.
Proof.
  intros Hf. unfold effective_fs. destruct (Float.leb f f0) eqn:Hle; [reflexivity|].
  unfold Float.gtb. fold (Float.ltb f0 f).
  destruct (Float.ltb f0 f) eqn:Hlt; [reflexivity|].
  rewrite (not_ltb_leb f0 f eq_refl Hf Hlt) in Hle. discriminate.
Qed.

Lemma maybe_extract_fs_not_nan (line : string) (f : float) :
  maybe_extract_fs line = Some f -> is_nan f = false.
Proof.
  unfold maybe_extract_fs. destruct (Re.HeaderFS_RE_match _) as [g|]; [|discriminate].
  intros H. apply (has_sign_not_nan _ _ (float_of_str_sign _ _ H)).
Qed.

Lemma iteration_fs (s s' : State) (raw : string) (it : Iteration) :
  is_nan (fs_hz s) = false ->
  iteration_of_ s raw = Some (s', it) ->
  is_nan (fs_hz s') = false
  /\ forall r, sample_of it = Some r -> Float.gtb (rec_fs_hz r) f0 = true.
Proof.
  intros Hs H. destruct (sample_of it) as [r|] eqn:Hr.
  - destruct (iteration_spec _ _ _ _ _ _ _ _ _ H Hr)
      as (fdD & _ & _ & Hfs & _ & _ & _ & _ & _ & _ & Hfs' & _).
    pose proof (effective_fs_positive _ Hs) as Hpos. rewrite <- Hfs in Hpos.
    split.
    + rewrite Hfs'. apply (gtb_not_nan _ _ Hpos).
    + intros r' Hr'. injection Hr' as <-. exact Hpos.
  - destruct (iteration_no_sample _ _ _ _ _ _ _ _ H Hr) as (Hstep & _).
    split; [|discriminate].
    destruct (step_cases _ _ _ _ _ _ _ _ Hstep)
      as [[-> ->]|[[-> (f & Hf & _ & ->)]|[[-> [-> _]]|(v & D & _ & _ & Hp)]]].
    + exact Hs.
    + exact (maybe_extract_fs_not_nan _ _ Hf).
    + exact Hs.
    + apply process_spec in Hp as (r & fdD & Hsm & _). congruence.
Qed.

Lemma run_fs (source : list string) :
  forall s s' its e,
    run_ s source = (s', its, e) ->
    is_nan (fs_hz s) = false ->
    Forall (fun r => Float.gtb (rec_fs_hz r) f0 = true) (samples its).
Proof.
  apply (run_ind asin numpy_available a step_nm_per_count (fun s its s' =>
    is_nan (fs_hz s) = false ->
    Forall (fun r => Float.gtb (rec_fs_hz r) f0 = true) (samples its))).
  - intros s _. constructor.
  - intros s raw s1 it its s' Hit IH Hs.
    destruct (iteration_fs _ _ _ _ Hs Hit) as [Hs1 Hr].
    rewrite samples_cons. specialize (IH Hs1).
    destruct (sample_of it) as [r|]; [constructor; auto | exact IH].
Qed.

Lemma run_fs_default (source : list string) :
  forall s s' its e,
    run_ s source = (s', its, e) ->
    effective_fs (fs_hz s) = f1000 ->
    Forall (fun it => it <> Header) its ->
    Forall (fun r => rec_fs_hz r = f1000) (samples its).
Proof.
  apply (run_ind asin numpy_available a step_nm_per_count (fun s its s' =>
    effective_fs (fs_hz s) = f1000 ->
    Forall (fun it => it <> Header) its ->
    Forall (fun r => rec_fs_hz r = f1000) (samples its))).
  - intros s _ _. constructor.
  - intros s raw s1 it its s' Hit IH Hs Hno.
    inversion Hno as [|? ? Hnh Hno']; subst.
    rewrite samples_cons. destruct (sample_of it) as [r|] eqn:Hr.
    + destruct (iteration_spec _ _ _ _ _ _ _ _ _ Hit Hr)
        as (fdD & _ & _ & Hfs & _ & _ & _ & _ & _ & _ & Hfs' & _).
      rewrite Hs in Hfs. constructor; [exact Hfs|].
      apply IH; [|exact Hno']. rewrite Hfs', Hfs. reflexivity.
    + destruct (iteration_no_sample _ _ _ _ _ _ _ _ Hit Hr) as (Hstep & _).
      apply IH; [|exact Hno'].
      destruct (step_cases _ _ _ _ _ _ _ _ Hstep)
        as [[-> ->]|[[-> _]|[[-> [-> _]]|(v & D & _ & _ & Hp)]]].
      * exact Hs.
      * congruence.
      * exact Hs.
      * apply process_spec in Hp as (r & fdD & Hsm & _). congruence.
Qed.

(** X4. In a run from the initial state every sample carries a sampling
    frequency greater than zero, whatever [--fs] and the headers were; and
    when [--fs] is not positive and no header was applied, every sample
    carries 1000 Hz. *)
Theorem sampling_frequency_positive (source : list string) (s' : State)
        (its : list Iteration) (e : option exn) :
  run_ (init a) source = (s', its, e) ->
  Forall (fun r => Float.gtb (rec_fs_hz r) f0 = true) (samples its)
  /\ (Float.gtb (fs a) f0 = false ->
      Forall (fun it => it <> Header) its ->
      Forall (fun r => rec_fs_hz r = f1000) (samples its)).
Proof.
  intros Hrun. split.
  - apply (run_fs source (init a) s' its e Hrun).
    cbn. destruct (Float.gtb (fs a) f0) eqn:Hg; [|reflexivity].
    apply (gtb_not_nan _ _ Hg).
  - intros Hfs Hno. apply (run_fs_default source (init a) s' its e Hrun); [|exact Hno].
    cbn. rewrite Hfs. reflexivity.
Qed.

(** *** Exceptions *)

Lemma py_int_raises (v : pyval) (e : exn) :
  not_nan_val v = true -> py_int v = Raise e -> e = OverflowError.
Proof.
  destruct v as [n|x]; cbn; [discriminate|].
  destruct x; cbn; intros Hn H; try discriminate; congruence.
Qed.

Lemma of_int_raises (n : Z) (e : exn) :
  Float.of_int n = Raise e -> e = OverflowError.
Proof.
  unfold Float.of_int.
  destruct (binary_normalize _ _ _ _ _); intros H; try discriminate; congruence.
Qed.

Lemma second_channel_raises (toks : gmap string pyval) (k : string) (e : exn) :
  second_channel a toks k = Raise e -> e = OverflowError.
Proof.
  unfold second_channel. destruct (toks !! k) as [v|]; [|discriminate].
  destruct (enable_xy a); [|discriminate].
  destruct v as [n|x]; cbn [py_float bind]; [|discriminate].
  destruct (Float.of_int n) eqn:Hn; cbn [bind]; [discriminate|].
  intros H. injection H as <-. apply (of_int_raises _ _ Hn).
Qed.

(** Up to its record a sample raises nothing but [OverflowError]. *)
Lemma sample_raises (s : State) (toks : gmap string pyval) (D : Z) (e : exn) :
  map_Forall (fun _ v => not_nan_val v = true) toks ->
  sample_ s toks D = Raise e -> e = OverflowError.
Proof.
  intros Htoks. unfold sample.
  destruct (py_int (default (PyInt 0) (toks !! "N"))) as [N|e0] eqn:HN; cbn [bind].
  2:{ intros H. injection H as <-. apply (py_int_raises _ _) in HN; [exact HN|].
      destruct (toks !! "N") as [v|] eqn:Hv; [apply (Htoks _ _ Hv) | reflexivity]. }
  destruct (second_channel a toks "X") as [x2|e0] eqn:HX; cbn [bind].
  2:{ intros H. injection H as <-. apply (second_channel_raises _ _ _ HX). }
  destruct (second_channel a toks "Y") as [y2|e0] eqn:HY; cbn [bind].
  2:{ intros H. injection H as <-. apply (second_channel_raises _ _ _ HY). }
  destruct (Float.of_int (count_delta (prevD s) D)) as [fdD|e0] eqn:HdD; cbn [bind].
  2:{ intros H. injection H as <-. apply (of_int_raises _ _ HdD). }
  destruct (ema_update _ _ _) as [ema' x_ema].
  destruct (ma_update_cases a (ma_buf s)
              (Float.mul (Float.add (x_nm s) (Float.mul step_nm_per_count fdD))
                         (straight_mult a)))
    as [([buf' x_ma] & ->)|(-> & _)]; cbn [bind]; [|congruence].
  destruct (mode a); cbn [bind].
  - destruct (emission _ _ _) as [count' keep]. discriminate.
  - rewrite angle_from_displacement_value. cbn [bind].
    destruct (emission _ _ _) as [count' keep]. discriminate.
Qed.

Lemma tokens_not_nan (line : string) :
  map_Forall (fun _ v => not_nan_val v = true) (parse_line_tokens line).
Proof.
  apply parse_line_tokens_entries.
  intros key val v' _ _ Hv. apply (token_value_not_nan _ _ Hv).
Qed.

(** An iteration raises [OverflowError], or the snapshot's
    [ZeroDivisionError] after its record. *)
Lemma step_raises (s : State) (raw : string) (e : exn) :
  step_ s raw = Raise e ->
  (e = OverflowError /\ interrupted_ s raw = None)
  \/ (e = ZeroDivisionError /\ exists s1 r, interrupted_ s raw = Some (s1, r)).
Proof.
  intros H.
  destruct (interrupted_ s raw) as [[s1 r]|] eqn:Hi.
  { right. rewrite (interrupted_raises _ _ _ _ _ _ _ _ Hi) in H.
    injection H as <-. eauto. }
  left. split; [|reflexivity].
  unfold interrupted in Hi. unfold step in H.
  destruct (String.eqb (strip raw) ""); [discriminate H|].
  assert (Hdata :
    match primary_token (parse_line_tokens (strip raw)) with
    | Some v => do D <- py_int v; process_ s (parse_line_tokens (strip raw)) D
    | None => Ok (s, NoCount)
    end = Raise e -> e = OverflowError).
  { clear H. pose proof (tokens_not_nan (strip raw)) as Htoks.
    destruct (primary_token (parse_line_tokens (strip raw))) as [v|] eqn:Hp;
      [|discriminate].
    assert (Hv : not_nan_val v = true).
    { unfold primary_token in Hp.
      destruct (parse_line_tokens (strip raw) !! "DIFF") as [v0|] eqn:Hdiff.
      - injection Hp as <-. apply (Htoks _ _ Hdiff).
      - apply (Htoks _ _ Hp). }
    destruct (py_int v) as [D|e0] eqn:HD; cbn [bind] in *.
    2:{ intros H. injection H as <-. apply (py_int_raises _ _ Hv HD). }
    unfold process.
    destruct (sample_ s _ D) as [[[s1 r] keep]|e0] eqn:Hs; cbn [bind].
    2:{ intros H. injection H as <-. apply (sample_raises _ _ _ _ Htoks Hs). }
    destruct keep; [|discriminate].
    destruct (fft_update _ _ _ _ _ _ _) as [f|e0]; [discriminate | discriminate Hi]. }
  destruct (maybe_extract_fs (strip raw)) as [f|]; [|exact (Hdata H)].
  destruct (Float.truthy f); [discriminate H | exact (Hdata H)].
Qed.

(** X5. The loop over the lines ends normally, with [OverflowError], or
    with the [ZeroDivisionError] of the snapshot code. The latter comes
    only with spectral analysis on, from a sample whose record is already
    written and whose counter is a multiple of the interval, the buffer
    holding a full window; a value error or a name error never comes out
    of the loop. *)
Theorem run_exceptions (source : list string) (s s' : State)
        (its : list Iteration) (e : exn) :
  run_ s source = (s', its, Some e) ->
  e = OverflowError
  \/ (e = ZeroDivisionError
      /\ spectral_on numpy_available a = true
      /\ emitted s' mod fft_every a = 0
      /\ fft_len a <= Z.of_nat (length (fft_buf s'))
      /\ exists r, last its = Some (Forwarded r None)
                   /\ last (fft_buf s') = Some (signal_of a r)).
Proof.
  revert s s' its. induction source as [|raw rest IH]; intros s s' its Hrun.
  - discriminate Hrun.
  - destruct (step_ s raw) as [[s1 it]|ex] eqn:Hstep.
    + rewrite (run_cons_Ok _ _ _ _ _ _ _ _ _ Hstep) in Hrun.
      destruct (run_ s1 rest) as [[s2 its2] e2] eqn:Hrest. cbn in Hrun.
      injection Hrun as <- <- ->.
      destruct (IH _ _ _ Hrest) as [->|(-> & Hon & Hm & Hl & r & Hlast & Hb)];
        [left; reflexivity|].
      right. repeat (split; [first [reflexivity | assumption]|]).
      exists r. split; [|exact Hb].
      destruct its2 as [|it2 its2]; [discriminate Hlast | exact Hlast].
    + rewrite (run_cons_Raise _ _ _ _ _ _ _ _ Hstep) in Hrun.
      destruct (step_raises _ _ _ Hstep) as [[-> Hi]|(-> & s1 & r & Hi)];
        rewrite Hi in Hrun.
      * injection Hrun as <- <- <-. left. reflexivity.
      * injection Hrun as <- <- <-. right.
        destruct (interrupted_spec _ _ _ _ _ _ _ _ Hi)
          as (v & D & s0 & _ & _ & _ & _ & -> & Hon & Hm & Hl).
        cbn [with_fft_buf fft_buf emitted] in *.
        split; [reflexivity|]. split; [exact Hon|]. split; [exact Hm|].
        split; [rewrite length_app; cbn [length]; lia|].
        exists r. split; [reflexivity | apply last_snoc].
Qed.

End RunInvariants.

(** ** Primary counts written with a decimal point *)

(** Every entry of the dictionary was converted from a numeral the token
    pattern captured on the line, under the key of that match. *)
Lemma parse_line_tokens_origin (line k : string) (v : pyval) :
  parse_line_tokens line !! k = Some v ->
  exists key val,
    In (key, val) (Re.Tok_RE_findall (list_ascii_of_string line))
    /\ k = string_of_list_ascii (map Re.upper key)
    /\ token_value val = Some v.
Proof.
  unfold parse_line_tokens.
  set (all := Re.Tok_RE_findall (list_ascii_of_string line)).
  assert (H : forall l (acc : gmap string pyval),
             (forall kv, In kv l -> In kv all) ->
             (forall k v, acc !! k = Some v ->
                exists key val, In (key, val) all
                  /\ k = string_of_list_ascii (map Re.upper key)
                  /\ token_value val = Some v) ->
             forall k v,
               fold_left
                 (fun out '(key, val) =>
                    match token_value val with
                    | Some v => <[string_of_list_ascii (map Re.upper key) := v]> out
                    | None => out
                    end) l acc !! k = Some v ->
               exists key val, In (key, val) all
                 /\ k = string_of_list_ascii (map Re.upper key)
                 /\ token_value val = Some v).
  { induction l as [|[key val] l IH]; intros acc Hin Hacc k0 v0; cbn [fold_left].
    - apply Hacc.
    - apply IH; [intros kv Hkv; apply Hin; right; exact Hkv|].
      intros k1 v1. destruct (token_value val) as [v'|] eqn:Hv; [|apply Hacc].
      destruct (decide (string_of_list_ascii (map Re.upper key) = k1)) as [<-|Hne].
      + rewrite lookup_insert_eq. intros Heq. injection Heq as <-.
        exists key, val. split; [apply Hin; left; reflexivity | auto].
      + rewrite lookup_insert_ne by exact Hne. apply Hacc. }
  apply (H all ∅); [auto|]. intros k0 v0 H0. rewrite lookup_empty in H0. discriminate H0.
Qed.

Section DecimalCounts.

Variable asin : float -> float.
Variable numpy_available : bool.
Variable a : Args.
Variable step_nm_per_count : float.

Local Abbreviation sample_ := (sample asin a step_nm_per_count).
Local Abbreviation process_ := (process asin numpy_available a step_nm_per_count).
Local Abbreviation step_ := (step asin numpy_available a step_nm_per_count).
Local Abbreviation interrupted_ := (interrupted asin numpy_available a step_nm_per_count).
Local Abbreviation iteration_of_ := (iteration_of asin numpy_available a step_nm_per_count).

(** A line with a primary token is a sample with [int] of it, completed
    or interrupted, whenever it is anything. *)
Lemma primary_iteration (s s' : State) (raw : string) (v : pyval) (D : Z)
      (it : Iteration) :
  primary_token (parse_line_tokens (strip raw)) = Some v ->
  py_int v = Ok D ->
  iteration_of_ s raw = Some (s', it) ->
  exists r, sample_of it = Some r /\ rec_D r = D.
Proof.
  intros Hp HD H. unfold iteration_of in H.
  destruct (step_ s raw) as [[s1 it1]|e] eqn:Hstep.
  - injection H as -> ->. rewrite (primary_step _ _ _ _ _ _ _ Hp), HD in Hstep.
    cbn [bind] in Hstep.
    destruct (process_spec _ _ _ _ _ _ _ _ _ Hstep) as (r & fdD & Hr & HrD & _).
    eauto.
  - destruct (interrupted_ s raw) as [[s1 r]|] eqn:Hi; [|discriminate H].
    injection H as <- <-.
    destruct (interrupted_spec _ _ _ _ _ _ _ _ Hi)
      as (v' & D' & s0 & Hp' & HD' & Hs & _).
    destruct (sample_spec _ _ _ _ _ _ _ _ _ Hs) as (fdD & HrD & _).
    exists r. split; [reflexivity|]. congruence.
Qed.

(** C10 (amended). A value of the dictionary is a float exactly when the
    numeral it was converted from has a decimal point, and is then never
    NaN. For a line whose primary token is a float: when the float is an
    infinity the line raises [OverflowError]; when it is finite, [int] of
    it is its truncation toward zero, the line is never passed over, and
    it yields the sample with that count whenever its other conversions
    succeed; when one of them does not, the line raises [OverflowError],
    or the snapshot code raises [ZeroDivisionError] after the record of
    the sample is written. D:12.9 gives the count 12 and D:-12.9 the
    count -12. *)
Theorem decimal_count_truncated :
  (forall line k v,
      parse_line_tokens line !! k = Some v ->
      exists key val,
        In (key, val) (Re.Tok_RE_findall (list_ascii_of_string line))
        /\ k = string_of_list_ascii (map Re.upper key)
        /\ match v with
           | PyFloat x => has_dot val = true /\ float_of_str val = Some x
           | PyInt n => has_dot val = false /\ int_of_str val = Some n
           end)
  /\ (forall s raw x,
         primary_token (parse_line_tokens (strip raw)) = Some (PyFloat x) ->
         is_nan x = false
         /\ (Float.is_finite x = false -> step_ s raw = Raise OverflowError)
         /\ (Float.is_finite x = true ->
             Float.to_int x = Ok (truncate x)
             /\ (forall s' it,
                    iteration_of_ s raw = Some (s', it) ->
                    it <> NoCount
                    /\ exists r, sample_of it = Some r /\ rec_D r = truncate x)
             /\ (forall e,
                    step_ s raw = Raise e ->
                    (e = OverflowError /\ interrupted_ s raw = None)
                    \/ (e = ZeroDivisionError
                        /\ exists s1 r, interrupted_ s raw = Some (s1, r)
                                        /\ rec_D r = truncate x))
             /\ (forall N x2 y2 fdD,
                    py_int (default (PyInt 0) (parse_line_tokens (strip raw) !! "N"))
                    = Ok N ->
                    second_channel a (parse_line_tokens (strip raw)) "X" = Ok x2 ->
                    second_channel a (parse_line_tokens (strip raw)) "Y" = Ok y2 ->
                    Float.of_int (count_delta (prevD s) (truncate x)) = Ok fdD ->
                    maxlen (ma_buf s) = ma_window a
                    \/ ma_window a <= PY_SSIZE_T_MAX ->
                    exists s' it r,
                      iteration_of_ s raw = Some (s', it)
                      /\ sample_of it = Some r
                      /\ rec_D r = truncate x
                      /\ rec_seq r = N)))
  /\ (exists x, primary_token (parse_line_tokens "D:12.9") = Some (PyFloat x)
                /\ Float.is_finite x = true /\ truncate x = 12)
  /\ (exists x, primary_token (parse_line_tokens "D:-12.9") = Some (PyFloat x)
                /\ Float.is_finite x = true /\ truncate x = -12).
Proof.
  split; [|split; [|split]].
  - intros line k v Hk.
    destruct (parse_line_tokens_origin _ _ _ Hk) as (key & val & Hin & Hkey & Hv).
    exists key, val. split; [exact Hin|]. split; [exact Hkey|].
    unfold token_value in Hv. destruct (has_dot val).
    + destruct (float_of_str val) as [x|]; [|discriminate Hv].
      injection Hv as <-. auto.
    + destruct (int_of_str val) as [n|]; [|discriminate Hv].
      injection Hv as <-. auto.
  - intros s raw x Hp.
    assert (Hnan : is_nan x = false).
    { pose proof (tokens_not_nan (strip raw)) as Htoks.
      assert (Hv : not_nan_val (PyFloat x) = true).
      { unfold primary_token in Hp.
        destruct (parse_line_tokens (strip raw) !! "DIFF") as [v0|] eqn:Hdiff.
        - injection Hp as ->. apply (Htoks _ _ Hdiff).
        - apply (Htoks _ _ Hp). }
      cbn in Hv. destruct (is_nan x); [discriminate Hv | reflexivity]. }
    split; [exact Hnan|]. split.
    + intros Hinf. rewrite (primary_step _ _ _ _ _ _ _ Hp). cbn [py_int].
      destruct x; try discriminate Hinf; try discriminate Hnan. reflexivity.
    + intros Hfin. pose proof (to_int_truncate _ Hfin) as Hint.
      split; [exact Hint|]. split; [|split].
      * intros s' it Hit.
        destruct (primary_iteration _ _ _ _ _ _ Hp Hint Hit) as (r & Hr & HD).
        split; [intros ->; discriminate Hr | eauto].
      * intros e He.
        destruct (step_raises _ _ _ _ _ _ _ He) as [Hov|(-> & s1 & r & Hi)];
          [left; exact Hov|].
        right. split; [reflexivity|]. exists s1, r. split; [exact Hi|].
        assert (Hit : iteration_of_ s raw = Some (s1, Forwarded r None)).
        { unfold iteration_of. rewrite He, Hi. reflexivity. }
        destruct (primary_iteration _ _ _ _ _ _ Hp Hint Hit) as (r' & Hr & HD).
        cbn in Hr. injection Hr as <-. exact HD.
      * intros N x2 y2 fdD HN HX HY HdD Hma.
        destruct (sample_total asin a step_nm_per_count s _ (truncate x) N x2 y2 fdD
                    HN HX HY HdD Hma) as (s1 & r & keep & Hs).
        destruct (sample_spec _ _ _ _ _ _ _ _ _ Hs) as (fdD' & HrD & _).
        destruct (sample_fields _ _ _ _ _ _ _ _ _ Hs) as (HrN & _).
        assert (HseqN : rec_seq r = N) by congruence.
        assert (Hstep : step_ s raw
                        = process_ s (parse_line_tokens (strip raw)) (truncate x)).
        { rewrite (primary_step _ _ _ _ _ _ _ Hp). cbn [py_int].
          rewrite Hint. reflexivity. }
        destruct (step_ s raw) as [[s' it]|e] eqn:He.
        -- exists s', it.
           assert (Hit : iteration_of_ s raw = Some (s', it)).
           { unfold iteration_of. rewrite He. reflexivity. }
           destruct (primary_iteration _ _ _ _ _ _ Hp Hint Hit) as (r' & Hr & HD).
           symmetry in Hstep.
           destruct (process_sample _ _ _ _ _ _ _ _ _ Hstep) as (s0 & r0 & Hs0 & Hr0 & _).
           assert (r0 = r) by congruence. subst r0.
           exists r. repeat split; assumption.
        -- destruct (step_raises _ _ _ _ _ _ _ He) as [[-> Hi]|(-> & s1' & r' & Hi)].
           ++ exfalso. symmetry in Hstep. unfold process in Hstep.
              rewrite Hs in Hstep. cbn [bind] in Hstep.
              unfold interrupted in Hi. rewrite Hp in Hi. cbn [py_int] in Hi.
              rewrite Hint in Hi. cbn [bind] in Hi. rewrite Hs in Hi.
              destruct keep; [|discriminate Hstep].
              destruct (fft_update _ _ _ _ _ _ _) as [f|e0]; discriminate.
           ++ exists s1', (Forwarded r' None).
              assert (Hit : iteration_of_ s raw = Some (s1', Forwarded r' None)).
              { unfold iteration_of. rewrite He, Hi. reflexivity. }
              destruct (interrupted_spec _ _ _ _ _ _ _ _ Hi)
                as (v' & D' & s0 & Hp' & HD' & Hs' & _).
              assert (D' = truncate x).
              { rewrite Hp in Hp'. injection Hp' as <-. cbn [py_int] in HD'. congruence. }
              subst D'. assert (r' = r) by congruence. subst r'.
              exists r. repeat split; assumption.
  - eexists. split; [vm_compute; reflexivity|]. split; vm_compute; reflexivity.
  - eexists. split; [vm_compute; reflexivity|]. split; vm_compute; reflexivity.
Qed.

End DecimalCounts.

(** The line D:12.9 N:4 is processed as the sample with primary count 12
    and sequence number 4; with an N token that overflows to an infinite
    float (1 followed by 309 zeros, then .0) the line raises
    [OverflowError]. *)
Lemma decimal_count_truncated_witness :
  (exists x s' r,
      primary_token (parse_line_tokens (strip "D:12.9 N:4")) = Some (PyFloat x)
      /\ x = Float.of_decimal false 129 1
      /\ Float.to_int x = Ok 12
      /\ step no_asin true default_args default_step (init default_args) "D:12.9 N:4"
         = Ok (s', Forwarded r None)
      /\ rec_D r = 12 /\ rec_seq r = 4)
  /\ (let line := String.append "D:12.9 N:" (String.append huge_numeral ".0") in
      primary_token (parse_line_tokens (strip line))
      = Some (PyFloat (Float.of_decimal false 129 1))
      /\ step no_asin true default_args default_step (init default_args) line
         = Raise OverflowError).
Proof.
  split.
  - assert (H1 : primary_token (parse_line_tokens (strip "D:12.9 N:4"))
                 = Some (PyFloat (Float.of_decimal false 129 1)))
      by (vm_compute; reflexivity).
    destruct (proj1 (proj2 (decimal_count_truncated no_asin true default_args default_step))
                    (init default_args) _ _ H1) as (_ & _ & Hfin).
    destruct (Hfin eq_refl) as (Hi & _ & _ & Hok).
    destruct (Hok 4 None None f0) as (s1 & it & r1 & Hit & Hr & HD & HN);
      try (vm_compute; reflexivity); [right; discriminate|].
    assert (Hstep : step no_asin true default_args default_step (init default_args)
                         "D:12.9 N:4" = Ok (s1, it)).
    { revert Hit. unfold iteration_of.
      destruct (step _ _ _ _ _ _) as [si|e] eqn:He.
      - intros H. injection H as ->. reflexivity.
      - vm_compute in He. discriminate He. }
    assert (Hfw : it = Forwarded r1 None).
    { vm_compute in Hstep. injection Hstep as _ <-. cbn in Hr. injection Hr as <-.
      reflexivity. }
    subst it. exists (Float.of_decimal false 129 1), s1, r1.
    split; [exact H1|]. split; [reflexivity|]. split; [exact Hi|].
    split; [exact Hstep|]. split; [exact HD | exact HN].
  - cbv zeta.
    match goal with
    | |- ?A /\ _ => assert (H1 : A) by (vm_compute; reflexivity)
    end.
    split; [exact H1|].
    destruct (proj1 (proj2 (decimal_count_truncated no_asin true default_args default_step))
                    (init default_args) _ _ H1) as (_ & _ & Hfin).
    destruct (Hfin eq_refl) as (_ & _ & Hraise & _).
    assert (He : exists e, step no_asin true default_args default_step
                                (init default_args)
                                (String.append "D:12.9 N:" (String.append huge_numeral ".0"))
                           = Raise e).
    { eexists. vm_compute. reflexivity. }
    destruct He as (e & He).
    destruct (Hraise e He) as [[-> _]|(-> & _)]; [exact He|].
    vm_compute in He. discriminate He.
Defined.

(** With [--fs] left at 0: a sample before any header carries 1000 Hz, and
    after the header of 250 Hz the next carries 250. *)
Lemma sampling_frequency_positive_witness :
  exists s' its e r1 r2,
    run no_asin true default_args default_step (init default_args)
        ["D:1"; "Sample Frequency = 250 Hz"; "D:2"] = (s', its, e)
    /\ samples its = [r1; r2]
    /\ rec_fs_hz r1 = f1000
    /\ rec_fs_hz r2 = fl 250
    /\ Forall (fun r => Float.gtb (rec_fs_hz r) f0 = true) (samples its).
Proof.
  eexists _, _, _, _, _.
  match goal with
  | |- ?A /\ _ => assert (H1 : A) by (vm_compute; reflexivity)
  end.
  split; [exact H1|]. split; [reflexivity|].
  split; [reflexivity|]. split; [reflexivity|].
  exact (proj1 (sampling_frequency_positive no_asin true _ _ _ _ _ _ H1)).
Defined.

(** A header that overflows to +inf, then samples with a window of one
    value: the first sample's snapshot code raises, spectral analysis
    being on; without it the same lines run to the end. *)
Lemma run_exceptions_witness :
  let header :=
    String.append "Sample Frequency = " (String.append huge_numeral " Hz") in
  let a := with_fft default_args 1 1 in
  (exists s' r,
      run no_asin true a default_step (init a) [header; "D:5"; "D:6"]
      = (s', [Header; Forwarded r None], Some ZeroDivisionError)
      /\ spectral_on true a = true
      /\ emitted s' mod fft_every a = 0
      /\ last (fft_buf s') = Some (signal_of a r))
  /\ snd (run no_asin true default_args default_step (init default_args)
              [header; "D:5"; "D:6"]) = None.
Proof.
  cbv zeta. split; [|vm_compute; reflexivity].
  eexists _, _.
  match goal with
  | |- ?A /\ _ => assert (H1 : A) by (vm_compute; reflexivity)
  end.
  split; [exact H1|].
  destruct (run_exceptions no_asin true _ _ _ _ _ _ _ H1)
    as [Habs|(_ & Hon & Hm & _ & r & Hlast & Hb)]; [discriminate Habs|].
  split; [exact Hon|]. split; [exact Hm|].
  cbn in Hlast. injection Hlast as <-. exact Hb.
Defined.

(** ** Exponential moving average *)

Section EmaFacts.

Variable asin : float -> float.
Variable numpy_available : bool.
Variable a : Args.
Variable step_nm_per_count : float.

Local Abbreviation iteration_of_ := (iteration_of asin numpy_available a step_nm_per_count).
Local Abbreviation run_ := (run asin numpy_available a step_nm_per_count).

Lemma iteration_ema (s s' : State) (raw : string) (it : Iteration) :
  iteration_of_ s raw = Some (s', it) ->
  match sample_of it with
  | Some r => ema_update a (ema_x s) (rec_x_nm r) = (ema_x s', rec_x_nm_ema r)
  | None => ema_x s' = ema_x s
  end.
Proof.
  intros H. destruct (sample_of it) as [r|] eqn:Hr.
  - destruct (iteration_spec _ _ _ _ _ _ _ _ _ H Hr)
      as (fdD & _ & _ & _ & _ & _ & _ & Hema & _).
    exact Hema.
  - apply (iteration_no_sample _ _ _ _ _ _ _ _ H Hr).
Qed.

Lemma run_ema_on (source : list string) :
  Float.gtb (ema_alpha a) f0 = true ->
  forall s s' its e,
    run_ s source = (s', its, e) ->
    map rec_x_nm_ema (samples its)
    = map Some (ema_series (ema_alpha a) (ema_x s) (xs_of its)).
Proof.
  intros Hon.
  apply (run_ind asin numpy_available a step_nm_per_count (fun s its s' =>
    map rec_x_nm_ema (samples its)
    = map Some (ema_series (ema_alpha a) (ema_x s) (xs_of its)))).
  - intros s. destruct (ema_x s); reflexivity.
  - intros s raw s1 it its s' Hit IHm.
    pose proof (iteration_ema _ _ _ _ Hit) as Hema.
    rewrite samples_cons, xs_of_cons.
    destruct (sample_of it) as [r|].
    + unfold ema_update in Hema. rewrite Hon in Hema.
      injection Hema as He1 Hr1.
      rewrite <- He1 in IHm. cbn [ema_series] in IHm.
      cbn [map]. rewrite IHm, <- Hr1.
      destruct (ema_x s) as [e0|]; reflexivity.
    + rewrite <- Hema. exact IHm.
Qed.

Lemma run_ema_off (source : list string) :
  Float.gtb (ema_alpha a) f0 = false ->
  forall s s' its e,
    run_ s source = (s', its, e) ->
    Forall (fun r => rec_x_nm_ema r = None) (samples its)
    /\ ema_x s' = ema_x s.
Proof.
  intros Hoff.
  apply (run_ind asin numpy_available a step_nm_per_count (fun s its s' =>
    Forall (fun r => rec_x_nm_ema r = None) (samples its)
    /\ ema_x s' = ema_x s)).
  - intros s. split; [constructor | reflexivity].
  - intros s raw s1 it its s' Hit [IHm IHl].
    pose proof (iteration_ema _ _ _ _ Hit) as Hema.
    rewrite samples_cons.
    destruct (sample_of it) as [r|].
    + unfold ema_update in Hema. rewrite Hoff in Hema.
      injection Hema as He1 Hr1.
      split; [constructor; auto | congruence].
    + split; [exact IHm | congruence].
Qed.

(** X6. With an EMA coefficient above zero, the EMA values of the samples
    of a run are the series seeded with the first cumulative displacement
    and continued by ema = alpha * x + (1 - alpha) * ema; with a
    coefficient that is not above zero (zero, negative or NaN) every
    sample has no EMA value and the accumulator stays unset. *)
Theorem ema_of_run (source : list string) (s' : State)
        (its : list Iteration) (e : option exn) :
  run_ (init a) source = (s', its, e) ->
  if Float.gtb (ema_alpha a) f0
  then map rec_x_nm_ema (samples its)
       = map Some (ema_series (ema_alpha a) None (xs_of its))
  else Forall (fun r => rec_x_nm_ema r = None) (samples its)
       /\ ema_x s' = None.
Proof.
  intros Hrun. destruct (Float.gtb (ema_alpha a) f0) eqn:Hon.
  - apply (run_ema_on source Hon _ _ _ _ Hrun).
  - apply (run_ema_off source Hon _ _ _ _ Hrun).
Qed.

End EmaFacts.

(** Coefficient 0.5 over the displacements 10, 20, 30: the EMA values are
    10, 15 and 22.5. *)
Lemma ema_of_run_witness :
  let a := with_ema (with_scaling default_args (fl 10) (fl 10) (fl 1))
                    (Float.of_decimal false 5 1) in
  exists s' its e,
    run no_asin true a (fl 10) (init a) ["D:0"; "D:1"; "D:2"] = (s', its, e)
    /\ xs_of its = [fl 10; fl 20; fl 30]
    /\ map rec_x_nm_ema (samples its)
       = [Some (fl 10); Some (fl 15); Some (Float.of_decimal false 225 1)]
    /\ map rec_x_nm_ema (samples its)
       = map Some (ema_series (ema_alpha a) None (xs_of its)).
Proof.
  cbv zeta. eexists _, _, _.
  match goal with
  | |- ?A /\ _ => assert (H1 : A) by (vm_compute; reflexivity)
  end.
  split; [exact H1|]. split; [reflexivity|]. split; [reflexivity|].
  exact (ema_of_run no_asin true _ _ _ _ _ _ H1).
Defined.

(** ** Environmental compensation does not feed back *)

Section EnvFacts.

Variable asin : float -> float.
Variable numpy_available : bool.
Variable step_nm_per_count : float.

Lemma sample_env (a : Args) (t t0 : option float) (kt : float)
      (p p0 : option float) (kp : float) (h h0 : option float) (kh : float)
      (s : State) (toks : gmap string pyval) (D : Z) :
  let a' := with_env a t t0 kt p p0 kp h h0 kh in
  sample asin a' step_nm_per_count s toks D =
  match sample asin a step_nm_per_count s toks D with
  | Ok (s1, r, keep) => Ok (s1, recompensate a' r, keep)
  | Raise e => Raise e
  end.
Proof.
  cbv zeta. unfold sample.
  change (second_channel (with_env a t t0 kt p p0 kp h h0 kh))
    with (second_channel a).
  destruct (py_int _) as [N|e]; cbn [bind]; [|reflexivity].
  destruct (second_channel a _ "X") as [x2|e]; cbn [bind]; [|reflexivity].
  destruct (second_channel a _ "Y") as [y2|e]; cbn [bind]; [|reflexivity].
  destruct (Float.of_int _) as [fdD|e]; cbn [bind]; [|reflexivity].
  change (ema_update (with_env a t t0 kt p p0 kp h h0 kh))
    with (ema_update a).
  change (ma_update (with_env a t t0 kt p p0 kp h h0 kh))
    with (ma_update a).
  change (straight_mult (with_env a t t0 kt p p0 kp h h0 kh))
    with (straight_mult a).
  change (mode (with_env a t t0 kt p p0 kp h h0 kh)) with (mode a).
  change (emission (with_env a t t0 kt p p0 kp h h0 kh)) with (emission a).
  destruct (ema_update a _ _) as [ema' x_ema].
  destruct (ma_update a _ _) as [[buf' x_ma]|e]; cbn [bind]; [|reflexivity].
  assert (Hang :
    match mode a with
    | Angle =>
        do g <- angle_from_displacement asin
                 (Float.mul (Float.add (x_nm s) (Float.mul step_nm_per_count fdD))
                            (straight_mult a))
                 (with_env a t t0 kt p p0 kp h h0 kh);
        Ok (Some g)
    | Displacement => Ok None
    end =
    match mode a with
    | Angle =>
        do g <- angle_from_displacement asin
                 (Float.mul (Float.add (x_nm s) (Float.mul step_nm_per_count fdD))
                            (straight_mult a)) a;
        Ok (Some g)
    | Displacement => Ok None
    end) by reflexivity.
  rewrite Hang. clear Hang.
  destruct (match mode a with Angle => _ | Displacement => _ end) as [angle|e];
    cbn [bind]; [|reflexivity].
  destruct (emission a _ _) as [count' keep]. reflexivity.
Qed.

Lemma process_env (a : Args) (t t0 : option float) (kt : float)
      (p p0 : option float) (kp : float) (h h0 : option float) (kh : float)
      (s : State) (toks : gmap string pyval) (D : Z) :
  let a' := with_env a t t0 kt p p0 kp h h0 kh in
  process asin numpy_available a' step_nm_per_count s toks D =
  match process asin numpy_available a step_nm_per_count s toks D with
  | Ok (s', it) => Ok (s', recompensate_it a' it)
  | Raise e => Raise e
  end.
Proof.
  cbv zeta. unfold process. rewrite sample_env. cbv zeta.
  destruct (sample asin a step_nm_per_count s toks D) as [[[s1 r] keep]|e];
    cbn [bind]; [|reflexivity].
  destruct keep; [|reflexivity].
  change (fft_update numpy_available (with_env a t t0 kt p p0 kp h h0 kh))
    with (fft_update numpy_available a).
  cbn [recompensate rec_fs_hz rec_x_nm rec_v_nm_s].
  destruct (fft_update numpy_available a _ _ _ _ _) as [f|e]; reflexivity.
Qed.

(** X7. Two configurations that differ in the environmental options only
    take every line the same way: the same exception or the same next
    state, the same path and the same record, but for the compensated
    displacement, which is [apply_env] of the same cumulative
    displacement. Compensation is an output and never enters the state. *)
Theorem environment_is_output_only (a : Args) (t t0 : option float) (kt : float)
        (p p0 : option float) (kp : float) (h h0 : option float) (kh : float)
        (s : State) (raw : string) :
  let a' := with_env a t t0 kt p p0 kp h h0 kh in
  step asin numpy_available a' step_nm_per_count s raw =
  match step asin numpy_available a step_nm_per_count s raw with
  | Ok (s', it) => Ok (s', recompensate_it a' it)
  | Raise e => Raise e
  end.
Proof.
  cbv zeta. unfold step.
  destruct (String.eqb (strip raw) ""); [reflexivity|].
  assert (Hdata :
    match primary_token (parse_line_tokens (strip raw)) with
    | Some v =>
        do D <- py_int v;
        process asin numpy_available (with_env a t t0 kt p p0 kp h h0 kh)
                step_nm_per_count s (parse_line_tokens (strip raw)) D
    | None => Ok (s, NoCount)
    end =
    match
      match primary_token (parse_line_tokens (strip raw)) with
      | Some v =>
          do D <- py_int v;
          process asin numpy_available a step_nm_per_count s
                  (parse_line_tokens (strip raw)) D
      | None => Ok (s, NoCount)
      end
    with
    | Ok (s', it) =>
        Ok (s', recompensate_it (with_env a t t0 kt p p0 kp h h0 kh) it)
    | Raise e => Raise e
    end).
  { destruct (primary_token _) as [v|]; [|reflexivity].
    destruct (py_int v) as [D|e]; cbn [bind]; [|reflexivity].
    apply process_env. }
  destruct (maybe_extract_fs (strip raw)) as [f|]; [|exact Hdata].
  destruct (Float.truthy f); [reflexivity | exact Hdata].
Qed.

End EnvFacts.

(** ** Spectral buffer and snapshots *)

Section SpectralFacts.

Variable asin : float -> float.
Variable numpy_available : bool.
Variable a : Args.
Variable step_nm_per_count : float.

Local Abbreviation process_ := (process asin numpy_available a step_nm_per_count).
Local Abbreviation step_ := (step asin numpy_available a step_nm_per_count).
Local Abbreviation interrupted_ := (interrupted asin numpy_available a step_nm_per_count).
Local Abbreviation iteration_of_ := (iteration_of asin numpy_available a step_nm_per_count).
Local Abbreviation run_ := (run asin numpy_available a step_nm_per_count).

(** The FFT block in one formula. *)
Lemma fft_update_cases (buf : list float) (count : Z) (fs_now x v : float) :
  let sigval := match fft_signal a with SigX => x | SigV => v end in
  fft_update numpy_available a buf count fs_now x v =
  if spectral_on numpy_available a && (count mod fft_every a =? 0) then
    if Z.of_nat (length (buf ++ [sigval])) >=? fft_len a then
      do d <- sample_spacing fs_now;
      do _ <- rfftfreq_val (float_of_len (last_n (fft_len a) (buf ++ [sigval]))) d;
      Ok (buf ++ [sigval],
          Some {| snap_signal := fft_signal a; snap_fs_hz := fs_now;
                  snap_buf := last_n (fft_len a) (buf ++ [sigval]) |})
    else Ok (buf ++ [sigval], None)
  else Ok (buf, None).
Proof.
  cbv zeta. unfold fft_update, spectral_on.
  destruct ((fft_len a >? 0) && (fft_every a >? 0)); cbn [andb]; [|reflexivity].
  destruct numpy_available; cbn [andb]; [|reflexivity].
  destruct (count mod fft_every a =? 0); reflexivity.
Qed.

Lemma step_forwarded (s s' : State) (raw : string) (r : Rec) (fft : option Snapshot) :
  step_ s raw = Ok (s', Forwarded r fft) ->
  fft_update numpy_available a (fft_buf s) (emitted s')
             (rec_fs_hz r) (rec_x_nm r) (rec_v_nm_s r)
  = Ok (fft_buf s', fft).
Proof.
  intros H.
  destruct (step_sample _ _ _ _ _ _ _ _ r H eq_refl) as (toks & Hp).
  destruct (process_spec _ _ _ _ _ _ _ _ _ Hp)
    as (r' & fdD & Hs & _ & _ & _ & _ & _ & _ & _ & _ & _ & _ & _ & _ & _ & Hb).
  cbn in Hs. injection Hs as <-. exact Hb.
Qed.

Lemma step_not_forwarded (s s' : State) (raw : string) (it : Iteration) :
  step_ s raw = Ok (s', it) -> is_forwarded it = false -> fft_buf s' = fft_buf s.
Proof.
  intros H Hn. destruct (sample_of it) as [r|] eqn:Hr.
  - destruct (step_sample _ _ _ _ _ _ _ _ _ H Hr) as (toks & Hp).
    destruct (process_spec _ _ _ _ _ _ _ _ _ Hp)
      as (r' & fdD & _ & _ & _ & _ & _ & _ & _ & _ & _ & _ & _ & _ & _ & _ & Hb).
    rewrite Hn in Hb. exact Hb.
  - apply (step_no_sample _ _ _ _ _ _ _ _ H Hr).
Qed.

(** With an infinite sampling frequency the sample spacing is 0.0, and
    the bin spacing 1.0/(n * 0.0) raises. *)
Lemma rfftfreq_infinite (n : float) :
  Float.is_finite n = true ->
  (do d <- sample_spacing (S754_infinity false); rfftfreq_val n d)
  = Raise ZeroDivisionError.
Proof.
  intros Hn. unfold sample_spacing. cbn [Float.gtb bind].
  change (Float.gtb (S754_infinity false) f0) with true. cbn [bind].
  change (Float.truediv f1 (S754_infinity false)) with (Ok (S754_zero false)).
  cbn [bind]. unfold rfftfreq_val, Float.truediv.
  destruct (mul_zero_r n false Hn) as (s0 & ->). reflexivity.
Qed.

(** X8. For a line processed to its end and forwarded, a snapshot is
    written exactly when spectral analysis can run, the counter is a
    multiple of the interval and the buffer, with the sample's own value
    appended, holds at least [fft_len] values. The snapshot then carries
    the newest [fft_len] buffered values, the last of them the sample's
    own, the sample's frequency and the configured selector, and its bin
    spacing was computed. Under the same conditions a sample whose
    frequency is +inf gets no snapshot: the FFT block raises
    [ZeroDivisionError] after buffering the value, and the run ends with
    the record of that sample as the last thing written. *)
Theorem snapshot_window :
  (forall s s' raw r fft,
      step_ s raw = Ok (s', Forwarded r fft) ->
      (is_Some fft <->
       spectral_on numpy_available a = true
       /\ emitted s' mod fft_every a = 0
       /\ fft_len a <= Z.of_nat (length (fft_buf s)) + 1)
      /\ forall sn,
           fft = Some sn ->
           fft_buf s' = fft_buf s ++ [signal_of a r]
           /\ snap_buf sn = last_n (fft_len a) (fft_buf s')
           /\ Z.of_nat (length (snap_buf sn)) = fft_len a
           /\ last (snap_buf sn) = Some (signal_of a r)
           /\ snap_fs_hz sn = rec_fs_hz r
           /\ snap_signal sn = fft_signal a
           /\ exists d val,
                sample_spacing (rec_fs_hz r) = Ok d
                /\ rfftfreq_val (float_of_len (snap_buf sn)) d = Ok val)
  /\ (forall buf count x v,
         spectral_on numpy_available a = true ->
         count mod fft_every a = 0 ->
         fft_len a <= Z.of_nat (length buf) + 1 ->
         fft_len a < 2 ^ 53 ->
         fft_update numpy_available a buf count (S754_infinity false) x v
         = Raise ZeroDivisionError)
  /\ (forall s raw rest s1 r,
         interrupted_ s raw = Some (s1, r) ->
         step_ s raw = Raise ZeroDivisionError
         /\ fft_buf s1 = fft_buf s ++ [signal_of a r]
         /\ run_ s (raw :: rest) = (s1, [Forwarded r None], Some ZeroDivisionError)).
Proof.
  split; [|split].
  - intros s s' raw r fft H. pose proof (step_forwarded _ _ _ _ _ H) as Hf.
    rewrite fft_update_cases in Hf. cbv zeta in Hf. fold (signal_of a r) in Hf.
    rewrite length_app in Hf. cbn [length] in Hf.
    destruct (spectral_on numpy_available a) eqn:Hon; cbn [andb] in Hf.
    2:{ injection Hf as _ <-. split.
        - split; [intros [x Hx]; discriminate | intros (Habs & _); discriminate].
        - intros sn Hsn. discriminate. }
    destruct (Z.eqb_spec (emitted s' mod fft_every a) 0) as [Hm|Hm].
    2:{ injection Hf as _ <-. split.
        - split; [intros [x Hx]; discriminate | intros (_ & Habs & _); contradiction].
        - intros sn Hsn. discriminate. }
    destruct (Z.geb_spec (Z.of_nat (length (fft_buf s) + 1)) (fft_len a)) as [Hge|Hlt].
    2:{ injection Hf as _ <-. split.
        - split; [intros [x Hx]; discriminate | intros (_ & _ & Habs); lia].
        - intros sn Hsn. discriminate. }
    destruct (sample_spacing (rec_fs_hz r)) as [d|e] eqn:Hd; cbn [bind] in Hf;
      [|discriminate Hf].
    destruct (rfftfreq_val _ d) as [val|e] eqn:Hval; cbn [bind] in Hf;
      [|discriminate Hf].
    injection Hf as Hb <-. split.
    + split; [intros _; repeat split; [exact Hm | lia] | intros _; eexists; reflexivity].
    + intros sn Hsn. injection Hsn as <-. cbn [snap_buf snap_fs_hz snap_signal].
      assert (Hlen : 0 < fft_len a).
      { unfold spectral_on in Hon. apply andb_prop in Hon as [Hon _].
        apply andb_prop in Hon as [Hon _]. lia. }
      rewrite <- Hb. repeat split.
      * rewrite last_n_length, length_app. cbn [length]. lia.
      * unfold last_n. rewrite length_app. cbn [length].
        rewrite drop_app_le by lia. apply last_snoc.
      * exists d, val. split; [reflexivity | exact Hval].
  - intros buf count x v Hon Hm Hl Hlen.
    rewrite fft_update_cases. cbv zeta. rewrite Hon.
    destruct (Z.eqb_spec (count mod fft_every a) 0) as [_|]; [|contradiction].
    cbn [andb]. rewrite length_app. cbn [length].
    destruct (Z.geb_spec (Z.of_nat (length buf + 1)) (fft_len a)) as [_|]; [|lia].
    assert (Hfin : Float.is_finite
                     (float_of_len (last_n (fft_len a)
                        (buf ++ [match fft_signal a with SigX => x | SigV => v end])))
                   = true).
    { apply float_of_len_finite. rewrite last_n_length. lia. }
    pose proof (rfftfreq_infinite _ Hfin) as Hr.
    destruct (sample_spacing (S754_infinity false)) as [d|e]; cbn [bind] in *;
      [|injection Hr as ->; reflexivity].
    rewrite Hr. reflexivity.
  - intros s raw rest s1 r Hi.
    pose proof (interrupted_raises _ _ _ _ _ _ _ _ Hi) as Hstep.
    split; [exact Hstep|].
    destruct (interrupted_spec _ _ _ _ _ _ _ _ Hi)
      as (v & D & s0 & _ & _ & _ & _ & -> & _).
    split; [reflexivity|].
    rewrite (run_cons_Raise _ _ _ _ _ _ _ _ Hstep), Hi. reflexivity.
Qed.

(** The buffer after any line. *)
Lemma step_buffer (s s' : State) (raw : string) (it : Iteration) :
  step_ s raw = Ok (s', it) ->
  fft_buf s' =
  match it with
  | Forwarded r _ =>
      if spectral_on numpy_available a && (emitted s' mod fft_every a =? 0)
      then fft_buf s ++ [signal_of a r] else fft_buf s
  | _ => fft_buf s
  end.
Proof.
  intros H. destruct it as [| | |r|r fft];
    try (apply (step_not_forwarded _ _ _ _ H); reflexivity).
  pose proof (step_forwarded _ _ _ _ _ H) as Hf.
  rewrite (fft_update_buffer _ _ _ _ _ _ _ _ _ Hf). unfold spectral_on, signal_of.
  reflexivity.
Qed.

Lemma iteration_spectral_off (s s' : State) (raw : string) (it : Iteration) :
  spectral_on numpy_available a = false ->
  iteration_of_ s raw = Some (s', it) ->
  fft_buf s' = fft_buf s /\ snapshot_of it = None.
Proof.
  intros Hoff H. unfold iteration_of in H.
  destruct (step_ s raw) as [[s1 it1]|e] eqn:Hstep.
  - injection H as -> ->. pose proof (step_buffer _ _ _ _ Hstep) as Hb.
    split.
    + rewrite Hb. destruct it; try reflexivity. rewrite Hoff. reflexivity.
    + destruct it as [| | |r|r fft]; try reflexivity. cbn.
      pose proof (step_forwarded _ _ _ _ _ Hstep) as Hf.
      rewrite fft_update_cases in Hf. cbv zeta in Hf. rewrite Hoff in Hf.
      cbn [andb] in Hf. congruence.
  - destruct (interrupted_ s raw) as [[s1 r]|] eqn:Hi; [|discriminate H].
    destruct (interrupted_spec _ _ _ _ _ _ _ _ Hi)
      as (_ & _ & _ & _ & _ & _ & _ & _ & Hon & _).
    congruence.
Qed.

Lemma run_spectral_off (source : list string) :
  spectral_on numpy_available a = false ->
  forall s s' its e,
    run_ s source = (s', its, e) ->
    fft_buf s' = fft_buf s /\ Forall (fun it => snapshot_of it = None) its.
Proof.
  intros Hoff.
  apply (run_ind asin numpy_available a step_nm_per_count (fun s its s' =>
    fft_buf s' = fft_buf s /\ Forall (fun it => snapshot_of it = None) its)).
  - intros s. split; [reflexivity | constructor].
  - intros s raw s1 it its s' Hit [IHb IHs].
    destruct (iteration_spectral_off _ _ _ _ Hoff Hit) as [Hb Hn].
    split; [congruence | constructor; assumption].
Qed.

(** X9. The spectral buffer only ever grows, and only by the value of a
    forwarded sample whose counter is a multiple of the interval while
    spectral analysis can run; every other line leaves it as it is. With
    spectral analysis off (a length not positive, or numpy missing) a
    whole run leaves the buffer untouched and writes no snapshot. *)
Theorem spectral_buffer_growth :
  (forall s s' raw it,
      step_ s raw = Ok (s', it) ->
      fft_buf s' =
      match it with
      | Forwarded r _ =>
          if spectral_on numpy_available a && (emitted s' mod fft_every a =? 0)
          then fft_buf s ++ [signal_of a r] else fft_buf s
      | _ => fft_buf s
      end)
  /\ (spectral_on numpy_available a = false ->
      forall source s s' its e,
        run_ s source = (s', its, e) ->
        fft_buf s' = fft_buf s /\ Forall (fun it => snapshot_of it = None) its).
Proof.
  split; [exact step_buffer|].
  intros Hoff source. apply (run_spectral_off source Hoff).
Qed.

End SpectralFacts.

(** Window 2, interval 1, signal x, step 1: the second sample writes the
    snapshot of the displacements 0 and 1. After a header whose number
    overflows to +inf the second sample raises instead, with its record
    written and its value buffered. *)
Lemma snapshot_window_witness :
  let a := with_fft (with_scaling default_args (fl 1) (fl 0) (fl 1)) 2 1 in
  (exists s1 it1 s2 r sn,
      step no_asin true a (fl 1) (init a) "D:5" = Ok (s1, it1)
      /\ step no_asin true a (fl 1) s1 "D:6" = Ok (s2, Forwarded r (Some sn))
      /\ snap_buf sn = [fl 0; fl 1]
      /\ fft_buf s2 = fft_buf s1 ++ [signal_of a r]
      /\ Z.of_nat (length (snap_buf sn)) = fft_len a
      /\ last (snap_buf sn) = Some (signal_of a r))
  /\ (let header :=
        String.append "Sample Frequency = " (String.append huge_numeral " Hz") in
      exists s0 r0 s1 r,
        run no_asin true a (fl 1) (init a) [header; "D:5"]
        = (s0, [Header; Forwarded r0 None], None)
        /\ interrupted no_asin true a (fl 1) s0 "D:6" = Some (s1, r)
        /\ rec_fs_hz r = S754_infinity false
        /\ fft_buf s1 = [fl 0; fl 1]
        /\ step no_asin true a (fl 1) s0 "D:6" = Raise ZeroDivisionError
        /\ run no_asin true a (fl 1) s0 ["D:6"; "D:7"]
           = (s1, [Forwarded r None], Some ZeroDivisionError)).
Proof.
  cbv zeta. split.
  - eexists _, _, _, _, _.
    split; [vm_compute; reflexivity|].
    match goal with
    | |- ?A /\ _ => assert (H1 : A) by (vm_compute; reflexivity)
    end.
    split; [exact H1|]. split; [reflexivity|].
    destruct (proj2 (proj1 (snapshot_window no_asin true _ (fl 1)) _ _ _ _ _ H1)
                    _ eq_refl)
      as (Hb & _ & Hl & Hlast & _).
    split; [exact Hb|]. split; [exact Hl | exact Hlast].
  - eexists _, _, _, _.
    split; [vm_compute; reflexivity|].
    match goal with
    | |- ?A /\ _ => assert (H1 : A) by (vm_compute; reflexivity)
    end.
    split; [exact H1|]. split; [reflexivity|]. split; [reflexivity|].
    destruct (proj2 (proj2 (snapshot_window no_asin true _ (fl 1)))
                    _ _ ["D:7"] _ _ H1) as (Hstep & _ & Hrun).
    split; [exact Hstep | exact Hrun].
Defined.

(** ** Where the fields of a record come from *)

Section RecordFacts.

Variable asin : float -> float.
Variable numpy_available : bool.
Variable a : Args.
Variable step_nm_per_count : float.

Local Abbreviation process_ := (process asin numpy_available a step_nm_per_count).
Local Abbreviation step_ := (step asin numpy_available a step_nm_per_count).

Lemma process_fields (s s' : State) (toks : gmap string pyval) (D : Z)
      (it : Iteration) (r : Rec) :
  process_ s toks D = Ok (s', it) -> sample_of it = Some r ->
  py_int (default (PyInt 0) (toks !! "N")) = Ok (rec_seq r)
  /\ second_channel a toks "X" = Ok (rec_x2 r)
  /\ second_channel a toks "Y" = Ok (rec_y2 r)
  /\ rec_x_nm_env r = apply_env (rec_x_nm r) a
  /\ match mode a with
     | Angle => exists g, angle_from_displacement asin (rec_x_nm r) a = Ok g
                          /\ rec_angle_deg r = Some g
     | Displacement => rec_angle_deg r = None
     end.
Proof.
  intros H Hr.
  destruct (process_sample _ _ _ _ _ _ _ _ _ H) as (s1 & r' & Hs & Hr' & _).
  assert (r' = r) by congruence. subst r'.
  apply (sample_fields _ _ _ _ _ _ _ _ _ Hs).
Qed.

(** X11. In the record of a line: D is [int] of the DIFF token when the
    line has one and of the D token otherwise; seq is [int] of the N
    token, and 0 without one; x2 and y2 are null unless [--enable-xy] is
    set and the line has the token; the compensated displacement is
    [apply_env] of the record's own cumulative displacement; the angle is
    null outside angle mode. *)
Theorem record_fields (s s' : State) (raw : string) (it : Iteration) (r : Rec) :
  step_ s raw = Ok (s', it) -> sample_of it = Some r ->
  let toks := parse_line_tokens (strip raw) in
  match toks !! "DIFF" with
  | Some v => py_int v = Ok (rec_D r)
  | None => exists v, toks !! "D" = Some v /\ py_int v = Ok (rec_D r)
  end
  /\ match toks !! "N" with
     | Some v => py_int v = Ok (rec_seq r)
     | None => rec_seq r = 0
     end
  /\ (enable_xy a = false -> rec_x2 r = None /\ rec_y2 r = None)
  /\ (toks !! "X" = None -> rec_x2 r = None)
  /\ (toks !! "Y" = None -> rec_y2 r = None)
  /\ (enable_xy a = true ->
      forall x, toks !! "X" = Some (PyFloat x) -> rec_x2 r = Some x)
  /\ rec_x_nm_env r = apply_env (rec_x_nm r) a
  /\ (mode a = Displacement -> rec_angle_deg r = None).
Proof.
  intros H Hr. cbv zeta.
  destruct (step_cases _ _ _ _ _ _ _ _ H)
    as [[-> _]|[[-> _]|[[-> _]|(v & D & Hprim & HD & Hp)]]]; try discriminate Hr.
  destruct (process_spec _ _ _ _ _ _ _ _ _ Hp) as (r' & fdD & Hr' & HrD & _).
  assert (r' = r) by congruence. subst r'.
  destruct (process_fields _ _ _ _ _ _ Hp Hr) as (HN & HX & HY & Henv & Hang).
  split.
  { unfold primary_token in Hprim.
    destruct (parse_line_tokens (strip raw) !! "DIFF") as [v0|].
    - injection Hprim as ->. congruence.
    - exists v. split; [exact Hprim | congruence]. }
  split.
  { destruct (parse_line_tokens (strip raw) !! "N") as [v0|]; cbn in HN.
    - exact HN.
    - congruence. }
  unfold second_channel in HX, HY.
  split.
  { intros Hxy. rewrite Hxy in HX, HY.
    destruct (_ !! "X"), (_ !! "Y"); split; congruence. }
  split; [intros Hx; rewrite Hx in HX; congruence|].
  split; [intros Hy; rewrite Hy in HY; congruence|].
  split.
  { intros Hxy x Hx. rewrite Hx, Hxy in HX. cbn in HX. congruence. }
  split; [exact Henv|].
  intros Hm. rewrite Hm in Hang. exact Hang.
Qed.

End RecordFacts.

(** The line "D:9 DIFF:4 X:1.5" without [--enable-xy]: D is 4, seq is 0,
    x2 and y2 are null. *)
Lemma record_fields_witness :
  exists s' it r,
    step no_asin true default_args default_step (init default_args)
         "D:9 DIFF:4 X:1.5" = Ok (s', it)
    /\ sample_of it = Some r
    /\ rec_D r = 4 /\ rec_seq r = 0 /\ rec_x2 r = None /\ rec_y2 r = None
    /\ rec_x_nm_env r = apply_env (rec_x_nm r) default_args.
Proof.
  eexists _, _, _.
  match goal with
  | |- ?A /\ ?B /\ _ =>
      assert (H1 : A) by (vm_compute; reflexivity);
      assert (H2 : B) by reflexivity
  end.
  split; [exact H1|]. split; [exact H2|].
  split; [reflexivity|]. split; [reflexivity|].
  destruct (record_fields no_asin true _ _ _ _ _ _ _ H1 H2)
    as (_ & _ & Hxy & _ & _ & _ & Henv & _).
  destruct (Hxy eq_refl) as [Hx Hy].
  split; [exact Hx|]. split; [exact Hy | exact Henv].
Defined.

(** ** Header lines and lines without a colon *)

Lemma header_group_digit (s g : list ascii) :
  Re.HeaderFS_RE_match s = Some g ->
  exists d rest, g = d :: rest /\ Re.is_digit d = true.
Proof.
  unfold Re.HeaderFS_RE_match. intros H.
  destruct (Re.literal_ci _ _) as [s1|]; [|discriminate].
  destruct (Re.span Re.is_space s1) as [sp s2].
  destruct sp as [|c0 sp]; [discriminate|].
  destruct (Re.literal_ci _ s2) as [s3|]; [|discriminate].
  destruct (Re.skip Re.is_space s3) as [|c4 s4]; [discriminate|].
  destruct (Ascii.eqb_spec c4 "="%char) as [->|Hne].
  2:{ exfalso. revert H. clear -Hne.
      destruct c4 as [[] [] [] [] [] [] [] []]; try discriminate. congruence. }
  destruct (Re.span Re.is_digit _) as [ds s5] eqn:H5.
  pose proof (span_forallb _ _ _ _ H5) as Hds.
  destruct ds as [|d0 ds]; [discriminate|].
  cbn [forallb] in Hds. apply andb_prop in Hds as [Hd0 _].
  assert (Hcases : g = d0 :: ds \/ exists fs, g = (d0 :: ds) ++ "."%char :: fs).
  { destruct s5 as [|c5 t].
    - destruct (Re.header_tail []); [injection H as <-; auto | discriminate].
    - destruct (Ascii.eqb_spec c5 "."%char) as [->|Hne].
      + destruct (Re.span Re.is_digit t) as [fs s6].
        destruct fs as [|f0 fs].
        * destruct (Re.header_tail _); [injection H as <-; auto | discriminate].
        * destruct (Re.header_tail s6).
          -- injection H as <-. right. eauto.
          -- destruct (Re.header_tail _); [injection H as <-; auto | discriminate].
      + left. revert H. clear -Hne.
        destruct c5 as [[] [] [] [] [] [] [] []];
          try (destruct (Re.header_tail _); intros H; [injection H as <-; reflexivity | discriminate]).
        congruence. }
  destruct Hcases as [->|(fs & ->)]; eauto.
Qed.

(** The value of a header is a zero, a positive number or +inf. *)
Lemma maybe_extract_fs_sign (line : string) (f : float) :
  maybe_extract_fs line = Some f -> has_sign false f = true.
Proof.
  unfold maybe_extract_fs.
  destruct (Re.HeaderFS_RE_match _) as [g|] eqn:Hg; [|discriminate].
  intros H. destruct (header_group_digit _ _ Hg) as (d & rest & -> & Hd).
  pose proof (float_of_str_sign _ _ H) as Hs.
  assert (Hsplit : fst (split_sign (d :: rest)) = false).
  { clear -Hd. destruct d as [[] [] [] [] [] [] [] []]; try reflexivity; discriminate Hd. }
  rewrite Hsplit in Hs. exact Hs.
Qed.

Lemma no_colon_suffix_skip (p : ascii -> bool) (s : list ascii) :
  no_colon s = true -> no_colon (Re.skip p s) = true.
Proof.
  unfold Re.skip. induction s as [|c s IH]; intros H; [reflexivity|].
  cbn [Re.span]. destruct (p c); [|exact H].
  rewrite no_colon_cons in H. apply andb_prop in H as [_ H].
  specialize (IH H). destruct (Re.span p s) as [a0 b0]. exact IH.
Qed.

Lemma no_colon_rev (s : list ascii) : no_colon (rev s) = no_colon s.
Proof.
  unfold no_colon. induction s as [|c s IH]; [reflexivity|].
  cbn [rev forallb]. rewrite forallb_app, IH. cbn [forallb].
  rewrite andb_true_r. apply andb_comm.
Qed.

Lemma no_colon_strip (s : list ascii) :
  no_colon s = true -> no_colon (Re.strip s) = true.
Proof.
  intros H. unfold Re.strip. rewrite no_colon_rev.
  apply no_colon_suffix_skip. rewrite no_colon_rev.
  apply no_colon_suffix_skip, H.
Qed.

Section LineKinds.

Variable asin : float -> float.
Variable numpy_available : bool.
Variable a : Args.
Variable step_nm_per_count : float.

Local Abbreviation step_ := (step asin numpy_available a step_nm_per_count).

(** X12. A header line never yields a record or an exception, in any
    configuration and state. Its value is a zero, a positive number or
    +inf; a nonzero value replaces the sampling frequency and nothing
    else, a zero value changes nothing. *)
Theorem header_line_effect (s : State) (raw : string) (f : float) :
  maybe_extract_fs (strip raw) = Some f ->
  has_sign false f = true
  /\ step_ s raw =
     Ok (if Float.eqb f f0 then (s, NoCount) else (with_fs_hz s f, Header)).
Proof.
  intros H. split; [apply (maybe_extract_fs_sign _ _ H)|].
  rewrite (header_step _ _ _ _ _ _ _ H). unfold Float.truthy. fold f0.
  destruct (Float.eqb f f0); reflexivity.
Qed.

(** X13. A line without a colon never yields a record or an exception: it
    is blank, a header, or passed over; the previous count, the
    displacement, the smoothing state, the counter and the spectral
    buffer stay as they were. *)
Theorem colonless_line_no_record (s : State) (raw : string) :
  no_colon (list_ascii_of_string raw) = true ->
  exists s' it,
    step_ s raw = Ok (s', it)
    /\ sample_of it = None
    /\ x_nm s' = x_nm s /\ prevD s' = prevD s /\ ema_x s' = ema_x s
    /\ ma_buf s' = ma_buf s /\ fft_buf s' = fft_buf s /\ emitted s' = emitted s.
Proof.
  intros Hnc.
  assert (Htoks : parse_line_tokens (strip raw) = ∅).
  { unfold parse_line_tokens, Re.Tok_RE_findall, strip.
    rewrite list_ascii_of_string_of_list_ascii.
    rewrite (findall_no_colon _ _ (no_colon_strip _ Hnc)). reflexivity. }
  assert (Hstep : exists s' it, step_ s raw = Ok (s', it) /\ sample_of it = None).
  { unfold step. destruct (String.eqb (strip raw) ""); [eauto|].
    rewrite Htoks. change (primary_token ∅) with (@None pyval).
    destruct (maybe_extract_fs (strip raw)) as [f|]; [|eauto].
    destruct (Float.truthy f); eauto. }
  destruct Hstep as (s' & it & Hstep & Hn).
  exists s', it. split; [exact Hstep|]. split; [exact Hn|].
  apply (step_no_sample _ _ _ _ _ _ _ _ Hstep Hn).
Qed.

End LineKinds.

Lemma header_line_effect_witness :
  let s := init default_args in
  maybe_extract_fs (strip "  sample frequency=250.5 hz ") = Some (Float.of_decimal false 2505 1)
  /\ has_sign false (Float.of_decimal false 2505 1) = true
  /\ step no_asin true default_args default_step s "  sample frequency=250.5 hz "
     = Ok (with_fs_hz s (Float.of_decimal false 2505 1), Header).
Proof.
  cbv zeta.
  assert (H : maybe_extract_fs (strip "  sample frequency=250.5 hz ")
              = Some (Float.of_decimal false 2505 1)) by (vm_compute; reflexivity).
  split; [exact H|].
  exact (header_line_effect no_asin true default_args default_step
                            (init default_args) _ _ H).
Defined.

Lemma colonless_line_no_record_witness :
  no_colon (list_ascii_of_string "# UMD2 log, 12 counts") = true
  /\ exists s' it,
       step no_asin true default_args default_step (init default_args)
            "# UMD2 log, 12 counts" = Ok (s', it)
       /\ sample_of it = None
       /\ x_nm s' = x_nm (init default_args)
       /\ prevD s' = prevD (init default_args)
       /\ ema_x s' = ema_x (init default_args)
       /\ ma_buf s' = ma_buf (init default_args)
       /\ fft_buf s' = fft_buf (init default_args)
       /\ emitted s' = emitted (init default_args).
Proof.
  split; [reflexivity|].
  apply colonless_line_no_record. reflexivity.
Defined.

(** ** The step per count *)

(** X14. An explicit [--stepnm] is the step per count whatever the
    wavelength and the division are; without it the step is the
    wavelength divided by the division, a division below 1 counting as 1;
    for the divisions 1, 2, 4, 8 and for every division below 1 the
    computation raises nothing. *)
Theorem compute_step_nm_cases (a : Args) :
  match stepnm a with
  | Some s => compute_step_nm a = Ok s
  | None =>
      scale_div a <= 1 \/ scale_div a = 2 \/ scale_div a = 4 \/ scale_div a = 8 ->
      compute_step_nm a
      = Ok (Float.div (lambda_nm a) (fl (Z.max 1 (scale_div a))))
  end.
Proof.
  unfold compute_step_nm. destruct (stepnm a) as [s|]; [reflexivity|].
  intros H.
  assert (Hd : Z.max 1 (scale_div a) = 1 \/ Z.max 1 (scale_div a) = 2
               \/ Z.max 1 (scale_div a) = 4 \/ Z.max 1 (scale_div a) = 8) by lia.
  destruct Hd as [-> | [-> | [-> | ->]]]; reflexivity.
Qed.

Lemma compute_step_nm_cases_witness :
  compute_step_nm default_args
  = Ok (Float.div (lambda_nm default_args) (fl 8))
  /\ compute_step_nm (with_scaling default_args (fl 5) f0 f1) = Ok (fl 5).
Proof.
  split.
  - apply (compute_step_nm_cases default_args). right. right. right. reflexivity.
  - exact (compute_step_nm_cases (with_scaling default_args (fl 5) f0 f1)).
Defined.

(** ** What [main] writes *)

Lemma write_iterations_no_log (a : Args) (its : list Iteration) :
  forall w,
    fold_left (write_iteration a None) its w
    = {| stdout := stdout w ++ flat_map (lines_of a) its; files := files w |}.
Proof.
  induction its as [|it its IH]; intros w.
  - cbn. rewrite app_nil_r. destruct w; reflexivity.
  - cbn [fold_left flat_map]. rewrite IH.
    destruct it as [| | |r|r [sn|]]; cbn [write_iteration lines_of];
      try reflexivity;
      unfold write_stdout; cbn [stdout files]; rewrite <- ?app_assoc; reflexivity.
Qed.

(** X15. Without a log, [main] leaves every file as it was. When the
    step per count cannot be computed, or the moving-average window is
    beyond [PY_SSIZE_T_MAX], it ends with that exception and has written
    nothing. Otherwise it only appends to standard output: the CSV header
    when the format is CSV, then, in the order of the lines, one record
    per forwarded sample, each followed by its snapshot when it has one;
    the record of a sample whose snapshot code raised is written too, and
    is the last. Lines that are blank, headers, without a count or
    filtered out write nothing. *)
Theorem main_without_log (asin : float -> float) (np : bool) (a : Args)
        (w : World) (source : list string) :
  log a = None \/ log a = Some "" ->
  main asin np a w source =
  match compute_step_nm a with
  | Raise e => (w, Some e)
  | Ok st =>
      if ma_window a >? PY_SSIZE_T_MAX then (w, Some OverflowError)
      else
        ({| stdout := stdout w
                      ++ match out a with
                         | Csv => [CsvLine HeaderRow]
                         | Jsonl => []
                         end
                      ++ flat_map (lines_of a)
                                  (snd (fst (run asin np a st (init a) source)));
            files := files w |},
         snd (run asin np a st (init a) source))
  end.
Proof.
  intros Hlog. unfold main.
  destruct (compute_step_nm a) as [st|e]; [|reflexivity].
  rewrite start_spec.
  destruct (ma_window a >? PY_SSIZE_T_MAX); [reflexivity|].
  assert (Hopen : open_log a w = Ok (w, None)).
  { unfold open_log. destruct Hlog as [-> | ->]; reflexivity. }
  rewrite Hopen.
  destruct (run asin np a st (init a) source) as [[s' its] e]. cbn [fst snd].
  rewrite write_iterations_no_log. f_equal.
  destruct (out a); cbn [write_stdout stdout files].
  - rewrite app_nil_l. reflexivity.
  - rewrite <- app_assoc. reflexivity.
Qed.

(** The default configuration on a comment, a sample and a blank line;
    spectral analysis with window 1 after a header that overflows to
    +inf, where the first sample's record is written and the snapshot
    code raises; and a moving-average window of 2^63, where nothing is
    written. *)
Lemma main_without_log_witness :
  (exists r,
      main no_asin true default_args empty_world ["# x"; "D:3"; ""]
      = ({| stdout := [JsonRec r]; files := ∅ |}, None)
      /\ rec_D r = 3)
  /\ (let header :=
        String.append "Sample Frequency = " (String.append huge_numeral " Hz") in
      exists r,
        main no_asin true (with_fft default_args 1 1) empty_world
             [header; "D:5"; "D:6"]
        = ({| stdout := [JsonRec r]; files := ∅ |}, Some ZeroDivisionError)
        /\ rec_D r = 5 /\ rec_fs_hz r = S754_infinity false)
  /\ main no_asin true (with_policy default_args Every 1 (2 ^ 63)) empty_world ["D:1"]
     = (empty_world, Some OverflowError).
Proof.
  split; [|split].
  - eexists. split.
    + rewrite (main_without_log no_asin true default_args empty_world _
                 (or_introl eq_refl)).
      vm_compute. reflexivity.
    + reflexivity.
  - cbv zeta. eexists. split.
    + rewrite (main_without_log no_asin true (with_fft default_args 1 1) empty_world _
                 (or_introl eq_refl)).
      vm_compute. reflexivity.
    + split; reflexivity.
  - rewrite (main_without_log no_asin true (with_policy default_args Every 1 (2 ^ 63))
               empty_world _ (or_introl eq_refl)).
    vm_compute. reflexivity.
Defined.

(** ** The moving-average block on any buffer *)

Lemma fold_append_last_n (m : Z) (l : list float) :
  0 < m ->
  items (fold_left deque_append l {| items := []; maxlen := m |}) = last_n m l.
Proof.
  intros Hm.
  assert (H : forall h d,
             items d = last_n m h -> maxlen d = m ->
             items (fold_left deque_append l d) = last_n m (h ++ l)).
  { induction l as [|x l IH]; intros h d Hi Hd; cbn [fold_left].
    - rewrite app_nil_r. exact Hi.
    - replace (h ++ x :: l) with ((h ++ [x]) ++ l) by (rewrite <- app_assoc; reflexivity).
      apply IH; [|rewrite deque_append_maxlen; exact Hd].
      rewrite <- (deque_append_last_n _ _ _ Hm).
      destruct d as [di dm]. cbn in Hi, Hd. subst. reflexivity. }
  apply (H [] {| items := []; maxlen := m |}); reflexivity.
Qed.

Lemma last_n_last_n_app (w : Z) (l : list float) (x : float) :
  0 < w -> last_n w (last_n w l ++ [x]) = last_n w (l ++ [x]).
Proof.
  intros Hw.
  destruct (Nat.le_gt_cases (length l) (Z.to_nat w)) as [Hle|Hgt].
  - rewrite (last_n_short w l Hle). reflexivity.
  - unfold last_n. rewrite !length_app, length_drop. cbn [length].
    rewrite (drop_app_le l [x]) by lia.
    rewrite drop_app_le by (rewrite length_drop; lia).
    rewrite drop_drop. do 2 f_equal. lia.
Qed.

(** X16. For a window up to [PY_SSIZE_T_MAX], whatever bound the buffer
    had before, the moving-average block leaves it bounded by the window,
    holding the newest [ma_window] of its former values with the new
    displacement appended, and reports sum/len of exactly those; it
    raises nothing. A buffer with another bound is re-bounded first,
    keeping its newest values. For a window beyond [PY_SSIZE_T_MAX] the
    re-bounding raises [OverflowError]. *)
Theorem ma_update_rebounds (a : Args) (buf : deque) (x : float) :
  0 < ma_window a ->
  Z.of_nat (length (items buf)) <= maxlen buf ->
  if ma_window a <=? PY_SSIZE_T_MAX
  then exists buf' m,
         ma_update a buf x = Ok (buf', Some m)
         /\ maxlen buf' = ma_window a
         /\ items buf' = last_n (ma_window a) (items buf ++ [x])
         /\ Z.of_nat (length (items buf')) <= ma_window a
         /\ last (items buf') = Some x
         /\ mean (items buf') = Ok m
  else maxlen buf <> ma_window a -> ma_update a buf x = Raise OverflowError.
Proof.
  intros Hw Hinv.
  destruct (Z.leb_spec (ma_window a) PY_SSIZE_T_MAX) as [Hb|Hb].
  2:{ intros Hne.
      destruct (ma_update_cases a buf x) as [(r & Hok)|(Hr & _)]; [|exact Hr].
      exfalso. unfold ma_update in Hok.
      destruct (Z.gtb_spec (ma_window a) 0) as [_|]; [|lia].
      destruct (Z.eqb_spec (maxlen buf) (ma_window a)) as [|_]; [contradiction|].
      cbn [negb] in Hok. unfold deque_of, deque_new in Hok.
      destruct (Z.gtb_spec (ma_window a) PY_SSIZE_T_MAX) as [_|]; [|lia].
      cbn [orb bind] in Hok. discriminate Hok. }
  unfold ma_update.
  destruct (Z.gtb_spec (ma_window a) 0) as [_|]; [|lia].
  set (buf0 := fold_left deque_append (items buf)
                         {| items := []; maxlen := ma_window a |}).
  set (buf1 := if negb (maxlen buf =? ma_window a) then buf0 else buf).
  assert (Hbind : (if negb (maxlen buf =? ma_window a)
                   then deque_of (items buf) (ma_window a) else Ok buf) = Ok buf1).
  { subst buf1 buf0. destruct (negb (maxlen buf =? ma_window a)); [|reflexivity].
    apply deque_of_ok. lia. }
  rewrite Hbind. cbn [bind].
  assert (H1 : items buf1 = last_n (ma_window a) (items buf)
               /\ maxlen buf1 = ma_window a).
  { subst buf1 buf0.
    destruct (Z.eqb_spec (maxlen buf) (ma_window a)) as [He|Hne]; cbn [negb].
    - split; [|exact He]. symmetry. apply last_n_short. lia.
    - split; [apply fold_append_last_n, Hw | apply fold_append_maxlen]. }
  destruct H1 as [Hi1 Hm1].
  assert (Hitems : items (deque_append buf1 x)
                   = last_n (ma_window a) (items buf ++ [x])).
  { rewrite <- (last_n_last_n_app _ _ _ Hw), <- Hi1.
    rewrite <- (deque_append_last_n _ _ _ Hw), last_n_short.
    - destruct buf1 as [bi bm]. cbn in Hm1. subst. reflexivity.
    - rewrite Hi1, last_n_length. lia. }
  assert (Hne : items (deque_append buf1 x) <> []).
  { apply deque_append_nonempty. lia. }
  rewrite (mean_nonempty _ Hne). cbn [bind].
  eexists _, _. split; [reflexivity|].
  split; [exact Hm1|]. split; [exact Hitems|].
  split; [rewrite Hitems, last_n_length; lia|].
  split; [|apply mean_nonempty, Hne].
  rewrite Hitems. unfold last_n. rewrite length_app. cbn [length].
  rewrite drop_app_le by lia. apply last_snoc.
Qed.

(** A buffer of five values bounded by 5, window 3: the block keeps the
    two newest and the new value. With the window at 2^63 the same buffer
    cannot be re-bounded. *)
Lemma ma_update_rebounds_witness :
  let a := with_policy default_args Every 1 3 in
  let buf := {| items := [fl 1; fl 2; fl 3; fl 4; fl 5]; maxlen := 5 |} in
  (exists buf' m,
      ma_update a buf (fl 9) = Ok (buf', Some m)
      /\ items buf' = [fl 4; fl 5; fl 9]
      /\ m = fl 6
      /\ maxlen buf' = 3)
  /\ ma_update (with_policy default_args Every 1 (2 ^ 63)) buf (fl 9)
     = Raise OverflowError.
Proof.
  cbv zeta. split.
  - pose proof (ma_update_rebounds (with_policy default_args Every 1 3)
                  {| items := [fl 1; fl 2; fl 3; fl 4; fl 5]; maxlen := 5 |} (fl 9)
                  eq_refl ltac:(cbn; lia)) as H.
    cbv beta iota in H.
    change (ma_window (with_policy default_args Every 1 3) <=? PY_SSIZE_T_MAX)
      with true in H.
    destruct H as (buf' & m & Hu & Hm & Hi & _).
    exists buf', m. split; [exact Hu|].
    vm_compute in Hu. injection Hu as <- <-.
    split; [reflexivity|]. split; [reflexivity | reflexivity].
  - pose proof (ma_update_rebounds (with_policy default_args Every 1 (2 ^ 63))
                  {| items := [fl 1; fl 2; fl 3; fl 4; fl 5]; maxlen := 5 |} (fl 9)
                  eq_refl ltac:(cbn; lia)) as H.
    change (ma_window (with_policy default_args Every 1 (2 ^ 63)) <=? PY_SSIZE_T_MAX)
      with false in H.
    apply H. discriminate.
Defined.

(** ** The viewer's rolling window *)

Lemma stale_count_spec (cutoff : float) (ts : list float) :
  (stale_count cutoff ts <= length ts)%nat
  /\ Forall (fun t => Float.ltb t cutoff = true) (take (stale_count cutoff ts) ts)
  /\ (forall t, head (drop (stale_count cutoff ts) ts) = Some t ->
                Float.ltb t cutoff = false).
Proof.
  induction ts as [|t rest (IHlen & IHtake & IHhead)]; cbn [stale_count].
  - split; [reflexivity|]. split; [constructor | discriminate].
  - destruct (Float.ltb t cutoff) eqn:Hlt.
    + cbn [length take drop]. split; [lia|]. split; [|exact IHhead].
      constructor; assumption.
    + cbn [take drop head]. split; [lia|]. split; [constructor|].
      intros t' [= <-]. exact Hlt.
Qed.

Lemma stale_count_fresh_head (cutoff : float) (ts : list float) :
  (forall t, head ts = Some t -> Float.ltb t cutoff = false) ->
  stale_count cutoff ts = 0%nat.
Proof.
  destruct ts as [|t rest]; [reflexivity|]. intros H. cbn [stale_count].
  rewrite (H t eq_refl). reflexivity.
Qed.

Lemma last_drop_Some (i : nat) (l : list float) (x : float) :
  last (drop i l) = Some x -> last l = Some x.
Proof.
  revert i. induction l as [|y l IH]; intros [|i] H; cbn [drop] in H;
    try exact H; try discriminate.
  specialize (IH i H). destruct l as [|z l]; [destruct i; discriminate|].
  exact IH.
Qed.

Lemma trim_drop (b : Rolling) (newest : float) :
  last (roll_ts b) = Some newest ->
  trim b =
  let i := stale_count (Float.sub newest ROLLING_SECONDS) (roll_ts b) in
  {| roll_ts := drop i (roll_ts b);
     roll_xs := drop i (roll_xs b);
     roll_vs := drop i (roll_vs b) |}.
Proof.
  intros Hl. unfold trim. rewrite Hl. cbv zeta.
  destruct (stale_count _ _) as [|i]; [|reflexivity].
  destruct b; reflexivity.
Qed.

(** X17. [_trim] cuts the same number [i] of leading entries from the
    three buffers: every time stamp it removes is older than the newest
    stamp minus 30 seconds, the first one it keeps is not, and trimming a
    second time changes nothing. *)
Theorem trim_window (b : Rolling) (newest : float) :
  last (roll_ts b) = Some newest ->
  let cutoff := Float.sub newest ROLLING_SECONDS in
  exists i : nat,
    (i <= length (roll_ts b))%nat
    /\ roll_ts (trim b) = drop i (roll_ts b)
    /\ roll_xs (trim b) = drop i (roll_xs b)
    /\ roll_vs (trim b) = drop i (roll_vs b)
    /\ Forall (fun t => Float.ltb t cutoff = true) (take i (roll_ts b))
    /\ (forall t, head (roll_ts (trim b)) = Some t -> Float.ltb t cutoff = false)
    /\ trim (trim b) = trim b.
Proof.
  intros Hl cutoff.
  destruct (stale_count_spec cutoff (roll_ts b)) as (Hlen & Htake & Hhead).
  pose proof (trim_drop b newest Hl) as Ht. cbv zeta in Ht. fold cutoff in Ht.
  exists (stale_count cutoff (roll_ts b)).
  rewrite Ht. cbn [roll_ts roll_xs roll_vs].
  repeat (split; [first [exact Hlen | reflexivity | exact Htake | exact Hhead]|]).
  unfold trim at 1. cbn [roll_ts roll_xs roll_vs].
  destruct (last (drop _ (roll_ts b))) as [n'|] eqn:Hl'; [|reflexivity].
  apply last_drop_Some in Hl'. rewrite Hl in Hl'. injection Hl' as <-.
  cbv zeta. fold cutoff.
  rewrite (stale_count_fresh_head cutoff _ Hhead). reflexivity.
Qed.

(** Stamps 0, 10 and 45 s: the cutoff is 15 s and two entries go. *)
Lemma trim_window_witness :
  let b := {| roll_ts := [fl 0; fl 10; fl 45];
              roll_xs := [fl 1; fl 2; fl 3];
              roll_vs := [fl 4; fl 5; fl 6] |} in
  last (roll_ts b) = Some (fl 45)
  /\ trim b = {| roll_ts := [fl 45]; roll_xs := [fl 3]; roll_vs := [fl 6] |}
  /\ trim (trim b) = trim b.
Proof.
  cbv zeta.
  match goal with |- ?A /\ _ => assert (H1 : A) by reflexivity end.
  split; [exact H1|].
  destruct (trim_window _ _ H1) as (i & _ & _ & _ & _ & _ & _ & Hidem).
  split; [vm_compute; reflexivity | exact Hidem].
Defined.

(** X18. Fed any sequence of samples, starting from buffers of one
    length (the empty ones of a fresh window, for instance), the viewer
    keeps its three buffers of one length, and they grow by one entry per
    sample at most: the plotted curves always pair a time stamp with a
    value. *)
Theorem rolling_buffers_aligned (stream : list (float * float * float))
        (b : Rolling) :
  length (roll_xs b) = length (roll_ts b) ->
  length (roll_vs b) = length (roll_ts b) ->
  let b' := fold_left on_sample stream b in
  length (roll_xs b') = length (roll_ts b')
  /\ length (roll_vs b') = length (roll_ts b')
  /\ (length (roll_ts b') <= length (roll_ts b) + length stream)%nat.
Proof.
  revert b. induction stream as [|[[relt x] v] stream IH]; intros b Hx Hv; cbv zeta.
  - cbn [fold_left length]. repeat split; [exact Hx | exact Hv | lia].
  - cbn [fold_left length].
    set (b1 := {| roll_ts := roll_ts b ++ [relt];
                  roll_xs := roll_xs b ++ [x];
                  roll_vs := roll_vs b ++ [v] |}).
    assert (H1 : length (roll_xs (trim b1)) = length (roll_ts (trim b1))
                 /\ length (roll_vs (trim b1)) = length (roll_ts (trim b1))
                 /\ (length (roll_ts (trim b1)) <= S (length (roll_ts b)))%nat).
    { assert (Hl : last (roll_ts b1) = Some relt) by apply last_snoc.
      rewrite (trim_drop b1 relt Hl). cbv zeta. cbn [roll_ts roll_xs roll_vs].
      subst b1. cbn [roll_ts roll_xs roll_vs].
      rewrite !length_drop, !length_app, Hx, Hv. cbn [length]. lia. }
    destruct H1 as (H1x & H1v & H1l).
    specialize (IH (trim b1) H1x H1v). cbv zeta in IH.
    change (on_sample b (relt, x, v)) with (trim b1).
    destruct IH as (IHx & IHv & IHl). repeat split; [exact IHx | exact IHv | lia].
Qed.

Lemma rolling_buffers_aligned_witness :
  let b' := fold_left on_sample
              [(fl 0, fl 1, fl 4); (fl 10, fl 2, fl 5); (fl 45, fl 3, fl 6)]
              empty_rolling in
  length (roll_xs b') = length (roll_ts b')
  /\ length (roll_vs b') = length (roll_ts b')
  /\ roll_ts b' = [fl 45].
Proof.
  cbv zeta.
  destruct (rolling_buffers_aligned
              [(fl 0, fl 1, fl 4); (fl 10, fl 2, fl 5); (fl 45, fl 3, fl 6)]
              empty_rolling eq_refl eq_refl) as (Hx & Hv & _).
  split; [exact Hx|]. split; [exact Hv|]. vm_compute. reflexivity.
Defined.
